(** * Distributed ML Document Orchestrator: completion and aggregation core

    A shallow embedding of the status store (document-status.service.ts and
    models.ts), the page worker (consumer.service.ts), the analysis client
    (gemini.service.ts), the stream handler (aggregator lambda), the stream
    poller and the aggregator, with the properties of the written
    specification stated and settled against them.

    The DynamoDB table is a finite map from (PK, SK) to items, an item is a
    finite map from attribute names to attribute values, and every command
    the services send is executed by [exec] in one atomic step.  Effects are
    threaded through a state-and-exception monad over [World].

    Modelling choices.  Numbers are integers.  The table and the results
    bucket are always reachable: a command fails only when the store
    rejects it (a put without its key, an add to an attribute that is not
    a number).  A query and a scan return their whole answer at once, a
    query in ascending sort-key order.  The services' log lines are not
    part of the world.  The JSON codec, the analysis model, the blob
    download, the PDF parser and the clock are parameters
    ([Collaborators]).

    The second part embeds the file metadata service, the jobs controller
    and the publisher of the event stream (kinesis.service.ts), and states
    what the services do taken together: which records an operation leaves
    alone, what is read back after a write, what a run costs, and how the
    worker, the watcher, the aggregator and the controller hand a document
    on.  The request signer, the name of the results bucket and the stream
    client are parameters of the definitions that use them; the stream
    has a state of its own ([Kinesis.Stream]).  An object that is printed
    as JSON is the list of its properties in the order in which JavaScript
    enumerates them ([Kinesis.setField]). *)

From Stdlib Require Import ZArith String Ascii List Lia Bool.
From stdpp Require Import base gmap strings list sorting pretty.

Open Scope string_scope.
Open Scope Z_scope.

(** ** JavaScript values and errors *)

#[local] Unset Elimination Schemes.
Inductive Json :=
| JNull
| JBool (b : bool)
| JNum (n : Z)
| JStr (s : string)
| JArr (elems : list Json)
| JObj (fields : list (string * Json)).
#[local] Set Elimination Schemes.

Record JsError := { errName : string; message : option string }.

Inductive Result (A : Type) :=
| Ok (a : A)
| Throw (e : JsError).
Arguments Ok {A} a.
Arguments Throw {A} e.

(** What an awaited call hands back when the code reads a number or nothing. *)
Inductive JsValue :=
| JsUndefined
| JsNumber (n : Z).

(** A template literal prints an absent value as the text undefined. *)
Definition jsString (o : option string) : string := default "undefined" o.

Definition TypeError (msg : string) : JsError :=
  {| errName := "TypeError"; message := Some msg |}.

(** [s.includes(needle)] *)
Definition includes (needle s : string) : bool :=
  if String.index 0 needle s is Some _ then true else false.

(** Truthiness of a string: every string but the empty one. *)
Definition truthyString (s : string) : bool :=
  match s with EmptyString => false | String _ _ => true end.

(** Truthiness of a property read from a parsed JSON value; [None] is
    undefined. *)
Definition truthy (v : option Json) : bool :=
  match v with
  | None => false
  | Some JNull => false
  | Some (JBool b) => b
  | Some (JNum n) => negb (n =? 0)
  | Some (JStr s) => truthyString s
  | Some (JArr _) => true
  | Some (JObj _) => true
  end.

Fixpoint lookupField (k : string) (fields : list (string * Json)) : option Json :=
  match fields with
  | [] => None
  | (k', v) :: rest => if String.eqb k k' then Some v else lookupField k rest
  end.

(** [v.error] for a parsed value [v]: reading a property of null throws,
    any value that is not an object has no such property. *)
Definition dotError (v : Json) : Result (option Json) :=
  match v with
  | JNull => Throw (TypeError "Cannot read properties of null (reading 'error')")
  | JObj fields => Ok (lookupField "error" fields)
  | _ => Ok None
  end.

(** ** The DynamoDB table *)

Inductive AttributeValue :=
| AttrS (s : string)
| AttrN (n : Z)
| AttrL (l : list string).

Global Instance AttributeValue_eq_dec : EqDecision AttributeValue.
Proof. solve_decision. Defined.

Abbreviation Item := (gmap string AttributeValue).
Abbreviation Key := (string * string)%type.
Abbreviation Table := (gmap (string * string) (gmap string AttributeValue)).

(** An object literal handed to the document client: fields whose value is
    undefined are dropped (removeUndefinedValues). *)
Fixpoint marshall (fields : list (string * option AttributeValue)) : Item :=
  match fields with
  | [] => ∅
  | (k, Some v) :: rest => <[k := v]> (marshall rest)
  | (_, None) :: rest => marshall rest
  end.

Definition keyOf (item : Item) : option Key :=
  match item !! "PK", item !! "SK" with
  | Some (AttrS pk), Some (AttrS sk) => Some (pk, sk)
  | _, _ => None
  end.

(** The item an update starts from when the key is absent. *)
Definition keyItem (key : Key) : Item :=
  <["PK" := AttrS key.1]> (<["SK" := AttrS key.2]> ∅).

(** One SET action of an UpdateExpression. *)
Inductive SetAction :=
| SetValue (attr : string) (v : AttributeValue)
| SetIfNotExistsPlus (attr : string) (zero inc : Z).

(** One conjunct of a FilterExpression. *)
Inductive Condition :=
| CondEq (attr : string) (v : AttributeValue)
| CondEqAttr (a b : string)
| CondGt (attr : string) (v : AttributeValue).

Inductive Command :=
| PutCommand (item : Item)
| GetCommand (key : Key)
| UpdateCommand (key : Key) (actions : list SetAction)
| QueryCommand (pk skPrefix : string)
| ScanCommand (filter : list Condition).

Inductive Output :=
| OutNone
| OutItem (item : option Item)
| OutItems (items : list Item).

(** Every right-hand side of a SET clause is evaluated on the item as it
    was before the update. *)
Definition applySet (old : Item) (acc : option Item) (a : SetAction) : option Item :=
  match acc with
  | None => None
  | Some item =>
      match a with
      | SetValue attr v => Some (<[attr := v]> item)
      | SetIfNotExistsPlus attr zero inc =>
          match default (AttrN zero) (old !! attr) with
          | AttrN n => Some (<[attr := AttrN (n + inc)]> item)
          | _ => None
          end
      end
  end.

Definition applyUpdate (old : Item) (actions : list SetAction) : option Item :=
  fold_left (applySet old) actions (Some old).

Definition gtValue (x y : AttributeValue) : bool :=
  match x, y with
  | AttrN a, AttrN b => b <? a
  | AttrS a, AttrS b => String.ltb b a
  | _, _ => false
  end.

Definition evalCondition (item : Item) (c : Condition) : bool :=
  match c with
  | CondEq attr v =>
      match item !! attr with Some x => bool_decide (x = v) | None => false end
  | CondEqAttr a b =>
      match item !! a, item !! b with
      | Some x, Some y => bool_decide (x = y)
      | _, _ => false
      end
  | CondGt attr v =>
      match item !! attr with Some x => gtValue x v | None => false end
  end.

Definition evalFilter (filter : list Condition) (item : Item) : bool :=
  forallb (evalCondition item) filter.

(** Sort keys are compared as byte strings. *)
Definition skLe (a b : Key * Item) : Prop := String.leb a.1.2 b.1.2 = true.

Global Instance skLe_dec : RelDecision skLe.
Proof. intros a b. unfold skLe. apply _. Defined.

Definition keyCondition (pk skPrefix : string) (kv : Key * Item) : bool :=
  String.eqb kv.1.1 pk && String.prefix skPrefix kv.1.2.

(** A query returns the items of one partition in ascending sort-key
    order. *)
Definition queryItems (pk skPrefix : string) (t : Table) : list Item :=
  snd <$> merge_sort skLe (List.filter (keyCondition pk skPrefix) (map_to_list t)).

Definition scanItems (filter : list Condition) (t : Table) : list Item :=
  List.filter (evalFilter filter) (snd <$> map_to_list t).

Definition ValidationException (msg : string) : JsError :=
  {| errName := "ValidationException"; message := Some msg |}.

(** The store executes a command in one step: the new table and the
    response, or the table unchanged and a validation error. *)
Definition exec (c : Command) (t : Table) : Result Output * Table :=
  match c with
  | PutCommand item =>
      match keyOf item with
      | Some key => (Ok OutNone, <[key := item]> t)
      | None => (Throw (ValidationException "Missing the key"), t)
      end
  | GetCommand key => (Ok (OutItem (t !! key)), t)
  | UpdateCommand key actions =>
      match applyUpdate (default (keyItem key) (t !! key)) actions with
      | Some item => (Ok OutNone, <[key := item]> t)
      | None => (Throw (ValidationException
                  "An operand in the update expression has an incorrect data type"), t)
      end
  | QueryCommand pk skPrefix => (Ok (OutItems (queryItems pk skPrefix t)), t)
  | ScanCommand filter => (Ok (OutItems (scanItems filter t)), t)
  end.

(** ** The world the services act on *)

Record Chunk := {
  pageNumber : option Z;
  analysis : Json;
  status : string
}.

(** The aggregated results object; the bucket keeps it under its key (the
    uploaded body is its pretty-printed JSON text). *)
Record Manifest := {
  fileId : string;
  tenantId : string;
  processedAt : string;
  totalPages : Z;
  successCount : Z;
  failedCount : Z;
  chunks : list Chunk
}.

Inductive Event :=
| EvSend (c : Command)
| EvUpload (key : string) (m : Manifest)
| EvSleep (ms : Z)
| EvGenerate (text : string)
| EvDownload (bucket key : string)
| EvAggregate (fileId tenantId : string) (totalPages : Z).

(** [trace] lists the effects performed so far, the latest first; [time]
    counts the readings of the clock and [genCalls] the calls of the
    analysis model. *)
Record World := {
  table : Table;
  resultsBucket : gmap string Manifest;
  trace : list Event;
  time : nat;
  genCalls : nat
}.

Definition setTable (t : Table) (w : World) : World :=
  {| table := t; resultsBucket := resultsBucket w; trace := trace w;
     time := time w; genCalls := genCalls w |}.

Definition setResults (r : gmap string Manifest) (w : World) : World :=
  {| table := table w; resultsBucket := r; trace := trace w;
     time := time w; genCalls := genCalls w |}.

Definition addEvent (e : Event) (w : World) : World :=
  {| table := table w; resultsBucket := resultsBucket w; trace := e :: trace w;
     time := time w; genCalls := genCalls w |}.

Definition tick (w : World) : World :=
  {| table := table w; resultsBucket := resultsBucket w; trace := trace w;
     time := S (time w); genCalls := genCalls w |}.

Definition countCall (w : World) : World :=
  {| table := table w; resultsBucket := resultsBucket w; trace := trace w;
     time := time w; genCalls := S (genCalls w) |}.

(** ** Computations: state and exceptions *)

Definition M (A : Type) : Type := World -> Result A * World.

Definition ret {A} (a : A) : M A := fun w => (Ok a, w).

Definition throw {A} (e : JsError) : M A := fun w => (Throw e, w).

Definition bind {A B} (m : M A) (k : A -> M B) : M B :=
  fun w =>
    match m w with
    | (Ok a, w') => k a w'
    | (Throw e, w') => (Throw e, w')
    end.

Notation "'let*' x ':=' m 'in' k" := (bind m (fun x => k))
  (at level 10, x pattern, m at level 100, k at level 200, only parsing).
Notation "m ';;' k" := (bind m (fun _ => k))
  (at level 100, k at level 200, right associativity, only parsing).

(** The outcome of a computation started in [w], and the world it leaves. *)
Definition outcome {A} (m : M A) (w : World) : Result A := (m w).1.
Definition after {A} (m : M A) (w : World) : World := (m w).2.

Definition liftResult {A} (r : Result A) : M A := fun w => (r, w).

(** try body catch (error) handler *)
Definition tryCatch {A} (body : M A) (handler : JsError -> M A) : M A :=
  fun w =>
    match body w with
    | (Ok a, w') => (Ok a, w')
    | (Throw e, w') => handler e w'
    end.

(** try body catch (error) handler finally fin: the finally block runs on
    every path, and an error it throws replaces the pending outcome. *)
Definition tryCatchFinally {A} (body : M A) (handler : JsError -> M A)
    (fin : M unit) : M A :=
  fun w =>
    let '(r, w1) := tryCatch body handler w in
    match fin w1 with
    | (Ok _, w2) => (r, w2)
    | (Throw e, w2) => (Throw e, w2)
    end.

Fixpoint forEach {A} (l : list A) (f : A -> M unit) : M unit :=
  match l with
  | [] => ret tt
  | x :: rest => f x;; forEach rest f
  end.

(** [l.filter(p)] for a predicate that may throw *)
Fixpoint filterM {A} (p : A -> Result bool) (l : list A) : Result (list A) :=
  match l with
  | [] => Ok []
  | x :: rest =>
      match p x with
      | Throw e => Throw e
      | Ok b =>
          match filterM p rest with
          | Throw e => Throw e
          | Ok rest' => Ok (if b then x :: rest' else rest')
          end
      end
  end.

(** [l.map(f)] for a function that may throw *)
Fixpoint mapM {A B} (f : A -> Result B) (l : list A) : Result (list B) :=
  match l with
  | [] => Ok []
  | x :: rest =>
      match f x with
      | Throw e => Throw e
      | Ok y =>
          match mapM f rest with
          | Throw e => Throw e
          | Ok rest' => Ok (y :: rest')
          end
      end
  end.

Definition logEvent (e : Event) : M unit := fun w => (Ok tt, addEvent e w).

(** setTimeout(resolve, ms), awaited *)
Definition sleep (ms : Z) : M unit := logEvent (EvSleep ms).

(** this.dynamoClient.send(command) *)
Definition send (c : Command) : M Output :=
  fun w =>
    let '(out, t) := exec c (table w) in
    (out, setTable t (addEvent (EvSend c) w)).

(** ** Collaborators outside the repository

    The JSON codec of the runtime, the analysis model, the blob download,
    the PDF parser and the clock.  [generateContent n text] is the outcome
    of the [n]-th call of the model, made on the prompt built around
    [text]: the response text, or the error thrown. *)
Class Collaborators := {
  JSON_parse : string -> Result Json;
  JSON_stringify : Json -> string;
  generateContent : nat -> string -> Result string;
  downloadFile : string -> string -> Result string;
  pdf : string -> Result (Z * list string);
  clockMs : nat -> Z;
  toISOString : Z -> string
}.

Section Services.
Context `{Collaborators}.

(** new Date().toISOString() *)
Definition newDateISO : M string :=
  fun w => (Ok (toISOString (clockMs (time w))), tick w).

(** Date.now() *)
Definition dateNow : M Z :=
  fun w => (Ok (clockMs (time w)), tick w).

(** ** models.ts: DynamoDBKeyGenerator *)

Definition documentStatusKeys (fileId : string) : Key :=
  ("DOC#" +:+ fileId, "STATUS").

(** Number.prototype.toString of an integer; the numbers of the services
    are page numbers and counts, far below 1e21, from where on JavaScript
    prints the exponent form. *)
Definition toString (n : Z) : string := pretty n.

Fixpoint repeatChar (n : nat) (c : ascii) : string :=
  match n with
  | O => EmptyString
  | S n' => String c (repeatChar n' c)
  end.

(** [s.padStart(targetLength, c)] *)
Definition padStart (targetLength : nat) (c : ascii) (s : string) : string :=
  repeatChar (targetLength - String.length s) c +:+ s.

Definition documentPageKeys (fileId : string) (pageNumber : Z) : Key :=
  ("DOC#" +:+ fileId, "PAGE#" +:+ padStart 4 "0" (toString pageNumber)).

Definition documentStatusGSI1Keys (tenantId updatedAt : string) : string * string :=
  ("TENANT#" +:+ tenantId +:+ "#STATUS", updatedAt).

Definition generateTTL (days : Z) : M Z :=
  let* nowMs := dateNow in
  ret (nowMs / 1000 + days * 24 * 60 * 60).

(** The guards of [isProcessingComplete] that test for undefined hold
    exactly when the attribute is present. *)
Definition isProcessingComplete (status : Item) : bool :=
  bool_decide (status !! "SK" = Some (AttrS "STATUS"))
  && bool_decide (status !! "processedPages" ≠ None)
  && bool_decide (status !! "totalPages" ≠ None)
  && bool_decide (status !! "processedPages" = status !! "totalPages")
  && bool_decide (status !! "overallStatus" = Some (AttrS "processing")).

(** ** document-status.service.ts *)

Definition createDocumentStatus (fileId tenantId : string) (totalPages : Z) : M Item :=
  let keys := documentStatusKeys fileId in
  let* gsiNow := newDateISO in
  let gsiKeys := documentStatusGSI1Keys tenantId gsiNow in
  let* startedAt := newDateISO in
  let* createdAt := newDateISO in
  let* updatedAt := newDateISO in
  let* ttl := generateTTL 90 in
  let item := marshall
    [ ("PK", Some (AttrS keys.1));
      ("SK", Some (AttrS keys.2));
      ("GSI1PK", Some (AttrS gsiKeys.1));
      ("GSI1SK", Some (AttrS gsiKeys.2));
      ("fileId", Some (AttrS fileId));
      ("tenantId", Some (AttrS tenantId));
      ("overallStatus", Some (AttrS "pending"));
      ("totalPages", Some (AttrN totalPages));
      ("processedPages", Some (AttrN 0));
      ("failedPages", Some (AttrN 0));
      ("startedAt", Some (AttrS startedAt));
      ("createdAt", Some (AttrS createdAt));
      ("updatedAt", Some (AttrS updatedAt));
      ("ttl", Some (AttrN ttl)) ] in
  send (PutCommand item);;
  ret item.

Definition getDocumentStatus (fileId : string) : M (option Item) :=
  let keys := documentStatusKeys fileId in
  let* result := send (GetCommand keys) in
  ret (match result with OutItem item => item | _ => None end).

(** The SET clauses built from the entries of [updates] whose value is
    defined. *)
Fixpoint updateExpressions (updates : list (string * option AttributeValue)) : list SetAction :=
  match updates with
  | [] => []
  | (key, Some value) :: rest => SetValue key value :: updateExpressions rest
  | (_, None) :: rest => updateExpressions rest
  end.

Definition updateDocumentStatus (fileId : string)
    (updates : list (string * option AttributeValue)) : M unit :=
  let keys := documentStatusKeys fileId in
  let* updatedAt := newDateISO in
  send (UpdateCommand keys
          (SetValue "updatedAt" (AttrS updatedAt) :: updateExpressions updates));;
  ret tt.

Definition savePageAttributes (fileId tenantId : string) (pageNumber : Z)
    (pageAnalysis : option string) (chunkIds : option (list string)) : M Item :=
  let keys := documentPageKeys fileId pageNumber in
  let* createdAt := newDateISO in
  let* updatedAt := newDateISO in
  let* ttl := generateTTL 90 in
  let item := marshall
    [ ("PK", Some (AttrS keys.1));
      ("SK", Some (AttrS keys.2));
      ("fileId", Some (AttrS fileId));
      ("tenantId", Some (AttrS tenantId));
      ("pageNumber", Some (AttrN pageNumber));
      ("pageAnalysis", AttrS <$> pageAnalysis);
      ("chunkIds", AttrL <$> chunkIds);
      ("createdAt", Some (AttrS createdAt));
      ("updatedAt", Some (AttrS updatedAt));
      ("ttl", Some (AttrN ttl)) ] in
  send (PutCommand item);;
  ret item.

Definition getDocumentPages (fileId : string) : M (list Item) :=
  let* result := send (QueryCommand ("DOC#" +:+ fileId) "PAGE#") in
  ret (match result with OutItems items => items | _ => [] end).

Definition getPage (fileId : string) (pageNumber : Z) : M (option Item) :=
  let keys := documentPageKeys fileId pageNumber in
  let* result := send (GetCommand keys) in
  ret (match result with OutItem item => item | _ => None end).

(** The update names no ReturnValues and the method is declared to
    resolve to nothing: the caller is handed undefined. *)
Definition incrementProcessedPages (fileId : string) : M JsValue :=
  let keys := documentStatusKeys fileId in
  let* updatedAt := newDateISO in
  send (UpdateCommand keys
          [ SetIfNotExistsPlus "processedPages" 0 1;
            SetValue "updatedAt" (AttrS updatedAt) ]);;
  ret JsUndefined.

Definition updateStatus (fileId tenantId status : string) : M unit :=
  updateDocumentStatus fileId [("overallStatus", Some (AttrS status))].

Definition updateTotalPages (fileId tenantId : string) (totalPages : Z) : M unit :=
  let keys := documentStatusKeys fileId in
  let* updatedAt := newDateISO in
  send (UpdateCommand keys
          [ SetValue "totalPages" (AttrN totalPages);
            SetValue "updatedAt" (AttrS updatedAt) ]);;
  ret tt.

Definition readyFilter : list Condition :=
  [ CondEq "SK" (AttrS "STATUS");
    CondEq "overallStatus" (AttrS "processing");
    CondEqAttr "processedPages" "totalPages";
    CondGt "totalPages" (AttrN 0) ].

Definition getReadyForAggregation : M (list Item) :=
  let* result := send (ScanCommand readyFilter) in
  ret (match result with OutItems items => items | _ => [] end).

(** ** s3.service.ts *)

(** uploadResults: the manifest is put under the tenant and document
    scoped key of the results bucket, replacing what was there. *)
Definition uploadResults (fileId tenantId : string) (results : Manifest) : M string :=
  let key := tenantId +:+ "/" +:+ fileId +:+ "/results.json" in
  let* stamp := newDateISO in
  fun w => (Ok key, setResults (<[key := results]> (resultsBucket w))
                      (addEvent (EvUpload key results) w)).

Definition s3Download (bucket key : string) : M string :=
  logEvent (EvDownload bucket key);;
  liftResult (downloadFile bucket key).

(** ** gemini.service.ts *)

Fixpoint lastIndexOf (c : ascii) (s : string) : option nat :=
  match s with
  | EmptyString => None
  | String a rest =>
      match lastIndexOf c rest with
      | Some i => Some (S i)
      | None => if Ascii.eqb a c then Some O else None
      end
  end.

Fixpoint fromFirst (c : ascii) (s : string) : option string :=
  match s with
  | EmptyString => None
  | String a rest => if Ascii.eqb a c then Some s else fromFirst c rest
  end.

(** responseText.match(/\{[\s\S]*\}/): from the first opening brace to the
    last closing brace after it. *)
Definition jsonMatch (responseText : string) : option string :=
  match fromFirst "{" responseText with
  | Some (String open rest) =>
      match lastIndexOf "}" rest with
      | Some i => Some (String open (substring 0 (S i) rest))
      | None => None
      end
  | _ => None
  end.

(** this.model.generateContent(prompt), then response.text() *)
Definition callModel (text : string) : M string :=
  fun w => (generateContent (genCalls w) text,
            countCall (addEvent (EvGenerate text) w)).

(** error.message?.includes('429') *)
Definition isRateLimit (error : JsError) : bool :=
  match message error with
  | Some m => includes "429" m
  | None => false
  end.

Fixpoint analyzeChunk (text : string) (retries : nat) (delay : Z) : M Json :=
  tryCatch
    (let* responseText := callModel text in
     match jsonMatch responseText with
     | Some jsonText => liftResult (JSON_parse jsonText)
     | None => liftResult (JSON_parse responseText)
     end)
    (fun error =>
       match retries with
       | S retries' =>
           if isRateLimit error then
             sleep delay;;
             analyzeChunk text retries' (delay * 2)
           else throw error
       | O => throw error
       end).

(** The call sites pass the text alone: three retries, 2000 ms. *)
Definition analyzeChunkDefault (text : string) : M Json := analyzeChunk text 3 2000.

(** ** consumer.service.ts *)

Definition failureMarker (timestamp : string) : Json :=
  JObj [("error", JStr "Analysis failed"); ("timestamp", JStr timestamp)].

(** The body of the page loop for the chunk at index [i]. *)
Definition processPage (fileId tenantId : string) (i : nat) (chunk : string) : M unit :=
  tryCatchFinally
    (let* analysis := analyzeChunkDefault chunk in
     savePageAttributes fileId tenantId (Z.of_nat i + 1)
       (Some (JSON_stringify analysis)) None;;
     ret tt)
    (fun chunkError =>
       let* timestamp := newDateISO in
       savePageAttributes fileId tenantId (Z.of_nat i + 1)
         (Some (JSON_stringify (failureMarker timestamp))) None;;
       ret tt)
    (incrementProcessedPages fileId;; ret tt);;
  sleep 1000.

Fixpoint pageLoop (fileId tenantId : string) (i : nat) (chunks : list string) : M unit :=
  match chunks with
  | [] => ret tt
  | chunk :: rest =>
      processPage fileId tenantId i chunk;;
      pageLoop fileId tenantId (S i) rest
  end.

Definition processDocument (fileId tenantId s3Key bucket : string) : M unit :=
  tryCatch
    (updateStatus fileId tenantId "processing";;
     let* fileBuffer := s3Download bucket s3Key in
     let* data := liftResult (pdf fileBuffer) in
     let numPages := data.1 in
     updateTotalPages fileId tenantId numPages;;
     let chunks := data.2 in
     pageLoop fileId tenantId 0 chunks)
    (fun error => updateStatus fileId tenantId "failed").

(** ** aggregator.service.ts *)

(** p.pageAnalysis of a fetched page item *)
Definition pageAnalysisOf (p : Item) : option string :=
  match p !! "pageAnalysis" with
  | Some (AttrS s) => Some s
  | _ => None
  end.

Definition pageNumberOf (p : Item) : option Z :=
  match p !! "pageNumber" with
  | Some (AttrN n) => Some n
  | _ => None
  end.

(** p.pageAnalysis && JSON.parse(p.pageAnalysis).error, as a condition *)
Definition hasError (p : Item) : Result bool :=
  match pageAnalysisOf p with
  | Some s =>
      if truthyString s then
        match JSON_parse s with
        | Throw e => Throw e
        | Ok v =>
            match dotError v with
            | Throw e => Throw e
            | Ok err => Ok (truthy err)
            end
        end
      else Ok false
  | None => Ok false
  end.

(** p.pageAnalysis && !JSON.parse(p.pageAnalysis).error *)
Definition isSuccess (p : Item) : Result bool :=
  match pageAnalysisOf p with
  | Some s =>
      if truthyString s then
        match JSON_parse s with
        | Throw e => Throw e
        | Ok v =>
            match dotError v with
            | Throw e => Throw e
            | Ok err => Ok (negb (truthy err))
            end
        end
      else Ok false
  | None => Ok false
  end.

Definition toChunk (p : Item) : Result Chunk :=
  match (match pageAnalysisOf p with
         | Some s => if truthyString s then JSON_parse s else Ok JNull
         | None => Ok JNull
         end) with
  | Throw e => Throw e
  | Ok parsed =>
      match hasError p with
      | Throw e => Throw e
      | Ok failedPage =>
          Ok {| pageNumber := pageNumberOf p;
                analysis := parsed;
                status := if failedPage then "failed" else "success" |}
      end
  end.

Definition aggregateResults (fileId tenantId : string) (totalPages : Z) : M unit :=
  logEvent (EvAggregate fileId tenantId totalPages);;
  tryCatch
    (updateStatus fileId tenantId "aggregating";;
     let* pages := getDocumentPages fileId in
     if Z.of_nat (length pages) <? totalPages then
       updateStatus fileId tenantId "processing";;
       ret tt
     else
       let* processedAt := newDateISO in
       let* succeeded := liftResult (filterM isSuccess pages) in
       let* failedPages := liftResult (filterM hasError pages) in
       let* chunks := liftResult (mapM toChunk pages) in
       let aggregatedResults :=
         {| fileId := fileId;
            tenantId := tenantId;
            processedAt := processedAt;
            totalPages := totalPages;
            successCount := Z.of_nat (length succeeded);
            failedCount := Z.of_nat (length failedPages);
            chunks := chunks |} in
       let resultsKey := tenantId +:+ "/" +:+ fileId +:+ "/results.json" in
       uploadResults fileId tenantId aggregatedResults;;
       let* completedAt := newDateISO in
       updateDocumentStatus fileId
         [ ("overallStatus", Some (AttrS "completed"));
           ("completedAt", Some (AttrS completedAt));
           ("resultS3Key", Some (AttrS resultsKey)) ])
    (fun error =>
       updateDocumentStatus fileId
         [ ("overallStatus", Some (AttrS "failed"));
           ("errorMessage",
            Some (AttrS ("Aggregation failed: " +:+ jsString (message error)))) ];;
       throw error).

(** ** The stream handler of the aggregator lambda *)

Inductive EventName := INSERT | MODIFY | REMOVE.

Global Instance EventName_eq_dec : EqDecision EventName.
Proof. solve_decision. Defined.

Record StreamRecord := {
  eventName : EventName;
  NewImage : option Item;
  OldImage : option Item
}.

(** image.attr.S: reading [.S] of an absent attribute throws; an attribute
    of another type has no [S] member. *)
Definition dotS (attr : string) (image : Item) : Result (option string) :=
  match image !! attr with
  | None => Throw (TypeError "Cannot read properties of undefined (reading 'S')")
  | Some (AttrS s) => Ok (Some s)
  | Some _ => Ok None
  end.

(** parseInt(image.attr.N); [None] stands for NaN. *)
Definition dotN (attr : string) (image : Item) : Result (option Z) :=
  match image !! attr with
  | None => Throw (TypeError "Cannot read properties of undefined (reading 'N')")
  | Some (AttrN n) => Ok (Some n)
  | Some _ => Ok None
  end.

(** The body of the handler's loop over event.Records. *)
Definition handleRecord (record : StreamRecord) : M unit :=
  if negb (bool_decide (eventName record = MODIFY)) then ret tt else
  match NewImage record, OldImage record with
  | Some newImage, Some oldImage =>
      let* sk := liftResult (dotS "SK" newImage) in
      if negb (bool_decide (sk = Some "STATUS")) then ret tt else
      let* fileId := liftResult (dotS "fileId" newImage) in
      let* tenantId := liftResult (dotS "tenantId" newImage) in
      let* totalPages := liftResult (dotN "totalPages" newImage) in
      let* processedPages := liftResult (dotN "processedPages" newImage) in
      let* overallStatus := liftResult (dotS "overallStatus" newImage) in
      match processedPages, totalPages with
      | Some processed, Some total =>
          if (processed =? total) && (0 <? total)
             && bool_decide (overallStatus = Some "processing")
          then aggregateResults (jsString fileId) (jsString tenantId) total
          else ret tt
      | _, _ => ret tt
      end
  | _, _ => ret tt
  end.

Definition handler (event : list StreamRecord) : M unit :=
  forEach event handleRecord.

(** ** stream-poller.service.ts *)

(** A field of a fetched item as the callee's template literals print it. *)
Definition fieldText (doc : Item) (attr : string) : string :=
  match doc !! attr with
  | Some (AttrS s) => s
  | Some (AttrN n) => toString n
  | Some (AttrL l) => String.concat "," l
  | None => "undefined"
  end.

(** doc.totalPages; the scan filter admits only items where it is a
    number. *)
Definition fieldNumber (doc : Item) (attr : string) : Z :=
  match doc !! attr with
  | Some (AttrN n) => n
  | _ => 0
  end.

Definition checkForCompletedDocuments : M unit :=
  let* completedDocs := getReadyForAggregation in
  if (0 <? length completedDocs)%nat then
    forEach completedDocs (fun doc =>
      tryCatch
        (aggregateResults (fieldText doc "fileId") (fieldText doc "tenantId")
           (fieldNumber doc "totalPages"))
        (fun error => ret tt))
  else ret tt.

End Services.

(** ** Sample collaborators

    A concrete runtime to evaluate the services on: a JSON printer, the
    parser that inverts it on the values the samples use, a scripted
    analysis model, a blob store holding one three-page document and a
    clock that advances by one second per reading. *)
Module Sample.

Definition dq : string := String (ascii_of_nat 34) EmptyString.

Fixpoint stringify (j : Json) : string :=
  match j with
  | JNull => "null"
  | JBool true => "true"
  | JBool false => "false"
  | JNum n => pretty n
  | JStr s => dq +:+ s +:+ dq
  | JArr elems =>
      "[" +:+ (fix items (l : list Json) : string :=
                 match l with
                 | [] => EmptyString
                 | [x] => stringify x
                 | x :: rest => stringify x +:+ "," +:+ items rest
                 end) elems +:+ "]"
  | JObj fields =>
      "{" +:+ (fix members (l : list (string * Json)) : string :=
                 match l with
                 | [] => EmptyString
                 | [(k, v)] => dq +:+ k +:+ dq +:+ ":" +:+ stringify v
                 | (k, v) :: rest =>
                     dq +:+ k +:+ dq +:+ ":" +:+ stringify v +:+ "," +:+ members rest
                 end) fields +:+ "}"
  end.

Definition clock (n : nat) : Z := 1700000000000 + 1000 * Z.of_nat n.

Definition iso (ms : Z) : string := "T" +:+ pretty ms.

Definition summaryOf (text : string) : Json :=
  JObj [("summary", JStr text); ("sentiment", JStr "neutral")].

(** The values the sample parser knows. *)
Definition known : list Json :=
  [ summaryOf "page one"; summaryOf "page two"; summaryOf "page three";
    JNull; JNum 7 ]
  ++ ((fun n => failureMarker (iso (clock n))) <$> seq 0 64).

Definition SyntaxError : JsError :=
  {| errName := "SyntaxError"; message := Some "Unexpected token in JSON" |}.

Definition parse (s : string) : Result Json :=
  match List.find (fun j => String.eqb (stringify j) s) known with
  | Some j => Ok j
  | None => Throw SyntaxError
  end.

Definition RateLimited : JsError :=
  {| errName := "Error"; message := Some "[429 Too Many Requests] quota exceeded" |}.

Definition ServerError : JsError :=
  {| errName := "Error"; message := Some "[500 Internal Server Error]" |}.

(** The model answers every page with a fenced JSON object, except that
    every call on page two is rate limited. *)
Definition model (n : nat) (text : string) : Result string :=
  if String.eqb text "page two" then Throw RateLimited
  else Ok ("Here is the analysis: " +:+ stringify (summaryOf text) +:+ " (end)").

Definition NoSuchKey : JsError :=
  {| errName := "NoSuchKey"; message := Some "The specified key does not exist." |}.

Definition download (bucket key : string) : Result string :=
  if String.eqb key "acme/doc-1/report.pdf" then Ok "%PDF-three-pages"
  else Throw NoSuchKey.

Definition parsePdf (buffer : string) : Result (Z * list string) :=
  Ok (3, ["page one"; "page two"; "page three"]).

Definition collaborators : Collaborators :=
  {| JSON_parse := parse;
     JSON_stringify := stringify;
     generateContent := model;
     downloadFile := download;
     pdf := parsePdf;
     clockMs := clock;
     toISOString := iso |}.

(** The same runtime with a model that fails every call with an error of
    the server. *)
Definition failing (n : nat) (text : string) : Result string := Throw ServerError.

Definition withFailingModel : Collaborators :=
  {| JSON_parse := parse;
     JSON_stringify := stringify;
     generateContent := failing;
     downloadFile := download;
     pdf := parsePdf;
     clockMs := clock;
     toISOString := iso |}.

(** The same runtime with a model that answers every call, with a text
    that is no JSON, and a parser that quotes the text it rejects in its
    complaint, as the engine does for a short text. *)
Definition prose : string := "Error 429".

Definition QuotingSyntaxError : JsError :=
  {| errName := "SyntaxError";
     message := Some ("Unexpected token 'E', " +:+ dq +:+ prose +:+ dq
                      +:+ " is not valid JSON") |}.

Definition quotingParse (s : string) : Result Json :=
  if String.eqb s prose then Throw QuotingSyntaxError else parse s.

Definition answering (n : nat) (text : string) : Result string := Ok prose.

Definition withProseModel : Collaborators :=
  {| JSON_parse := quotingParse;
     JSON_stringify := stringify;
     generateContent := answering;
     downloadFile := download;
     pdf := parsePdf;
     clockMs := clock;
     toISOString := iso |}.

Definition emptyWorld : World :=
  {| table := ∅; resultsBucket := ∅; trace := []; time := 0; genCalls := 0 |}.

#[local] Existing Instance collaborators.

(** A document whose status record was just created by the upload. *)
Definition created : World :=
  after (createDocumentStatus "doc-1" "acme" 0) emptyWorld.

(** The worker has marked it as processing; the total is still 0. *)
Definition started : World :=
  after (updateStatus "doc-1" "acme" "processing") created.

(** Two of three pages are written and the total is known. *)
Definition twoOfThree : World :=
  after (savePageAttributes "doc-1" "acme" 2
           (Some (stringify (summaryOf "page two"))) None)
    (after (savePageAttributes "doc-1" "acme" 1
              (Some (stringify (summaryOf "page one"))) None)
       (after (updateTotalPages "doc-1" "acme" 3) started)).

(** The worker has run over the three-page sample document. *)
Definition processed : World :=
  after (processDocument "doc-1" "acme" "acme/doc-1/report.pdf" "pdfs") created.

(** Pages 9999 and 10000 of a long document are written. *)
Definition longDocument : World :=
  after (savePageAttributes "doc-1" "acme" 10000
           (Some (stringify (summaryOf "page two"))) None)
    (after (savePageAttributes "doc-1" "acme" 9999
              (Some (stringify (summaryOf "page one"))) None)
       started).

(** A status image that meets the completion condition. *)
Definition readyImage : Item :=
  marshall
    [ ("PK", Some (AttrS "DOC#doc-1"));
      ("SK", Some (AttrS "STATUS"));
      ("fileId", Some (AttrS "doc-1"));
      ("tenantId", Some (AttrS "acme"));
      ("overallStatus", Some (AttrS "processing"));
      ("totalPages", Some (AttrN 2));
      ("processedPages", Some (AttrN 2)) ].

Definition insertRecord : StreamRecord :=
  {| eventName := INSERT; NewImage := Some readyImage; OldImage := None |}.

Definition modifyRecord : StreamRecord :=
  {| eventName := MODIFY; NewImage := Some readyImage; OldImage := Some readyImage |}.

(** A MODIFY of a status record that was never created by the upload: the
    image lacks the document and tenant attributes. *)
Definition bareRecord : StreamRecord :=
  {| eventName := MODIFY;
     NewImage := Some (marshall [ ("PK", Some (AttrS "DOC#doc-9"));
                                  ("SK", Some (AttrS "STATUS"));
                                  ("overallStatus", Some (AttrS "processing")) ]);
     OldImage := Some (marshall [ ("PK", Some (AttrS "DOC#doc-9"));
                                  ("SK", Some (AttrS "STATUS")) ]) |}.

Definition checksb (p : Item) : bool :=
  match hasError p with Ok _ => true | Throw _ => false end.

End Sample.

(** * The vocabulary of the properties

    What the properties below observe of a world and of a run: attributes
    of the status record, the commands sent, the manifests uploaded, the
    invocations of the aggregator, and the pure readings of the
    specification's conditions. *)

Section Observations.
Context `{Collaborators}.

(** The sort key of page [n]. *)
Definition pageSK (n : Z) : string := (documentPageKeys EmptyString n).2.

(** [len] consecutive integers from [i]. *)
Fixpoint countFrom (i : Z) (len : nat) : list Z :=
  match len with
  | O => []
  | S len' => i :: countFrom (i + 1) len'
  end.

(** The sort keys of pages 0 .. [bound] increase from each page to the
    next. *)
Definition adjacentKeysIncrease (bound : Z) : bool :=
  forallb (fun i => String.ltb (pageSK i) (pageSK (i + 1)))
          (countFrom 0 (Z.to_nat bound)).

(** The reading of the clock a world is about to hand out. *)
Definition stamp (w : World) : string := toISOString (clockMs (time w)).

(** The item stored under a document's status key, or the bare key item an
    update would start from. *)
Definition statusItem (t : Table) (fileId : string) : Item :=
  default (keyItem (documentStatusKeys fileId)) (t !! documentStatusKeys fileId).

(** An attribute of the stored status record. *)
Definition statusAttr (w : World) (fileId attr : string) : option AttributeValue :=
  table w !! documentStatusKeys fileId ≫= (.!! attr).

(** The commands sent to the table, the latest first. *)
Fixpoint sends (tr : list Event) : list Command :=
  match tr with
  | [] => []
  | EvSend c :: rest => c :: sends rest
  | _ :: rest => sends rest
  end.

(** The manifests uploaded, the latest first. *)
Fixpoint uploads (tr : list Event) : list (string * Manifest) :=
  match tr with
  | [] => []
  | EvUpload key m :: rest => (key, m) :: uploads rest
  | _ :: rest => uploads rest
  end.

(** The invocations of the aggregator, the latest first. *)
Fixpoint aggregations (tr : list Event) : list (string * string * Z) :=
  match tr with
  | [] => []
  | EvAggregate fileId tenantId total :: rest => (fileId, tenantId, total) :: aggregations rest
  | _ :: rest => aggregations rest
  end.

(** The command [incrementProcessedPages] sends. *)
Definition incrementCommand (fileId updatedAt : string) : Command :=
  UpdateCommand (documentStatusKeys fileId)
    [ SetIfNotExistsPlus "processedPages" 0 1;
      SetValue "updatedAt" (AttrS updatedAt) ].

(** The command [updateDocumentStatus] sends. *)
Definition statusCommand (fileId updatedAt : string)
    (updates : list (string * option AttributeValue)) : Command :=
  UpdateCommand (documentStatusKeys fileId)
    (SetValue "updatedAt" (AttrS updatedAt) :: updateExpressions updates).

(** The item a status update leaves: the SET values written over the
    stored item. *)
Definition updatedItem (old : Item) (updatedAt : string)
    (updates : list (string * option AttributeValue)) : Item :=
  fold_left (fun item a =>
               match a with
               | SetValue attr v => <[attr := v]> item
               | _ => item
               end) (updateExpressions updates) (<["updatedAt" := AttrS updatedAt]> old).

(** The counter of a status item as the add reads it: absent counts as
    zero, and a value that is not a number makes the add fail. *)
Definition counterOf (item : Item) : option Z :=
  match item !! "processedPages" with
  | None => Some 0
  | Some (AttrN n) => Some n
  | Some _ => None
  end.

(** The page item written by [savePageAttributes] in world [w]. *)
Definition pageItem (fileId tenantId : string) (pageNumber : Z)
    (pageAnalysis : option string) (chunkIds : option (list string)) (w : World) : Item :=
  marshall
    [ ("PK", Some (AttrS (documentPageKeys fileId pageNumber).1));
      ("SK", Some (AttrS (documentPageKeys fileId pageNumber).2));
      ("fileId", Some (AttrS fileId));
      ("tenantId", Some (AttrS tenantId));
      ("pageNumber", Some (AttrN pageNumber));
      ("pageAnalysis", AttrS <$> pageAnalysis);
      ("chunkIds", AttrL <$> chunkIds);
      ("createdAt", Some (AttrS (toISOString (clockMs (time w)))));
      ("updatedAt", Some (AttrS (toISOString (clockMs (S (time w))))));
      ("ttl", Some (AttrN (clockMs (S (S (time w))) / 1000 + 90 * 24 * 60 * 60))) ].

(** The status item written by [createDocumentStatus] in world [w]. *)
Definition freshStatusItem (fileId tenantId : string) (totalPages : Z) (w : World) : Item :=
  marshall
    [ ("PK", Some (AttrS (documentStatusKeys fileId).1));
      ("SK", Some (AttrS (documentStatusKeys fileId).2));
      ("GSI1PK", Some (AttrS (documentStatusGSI1Keys tenantId (stamp w)).1));
      ("GSI1SK", Some (AttrS (documentStatusGSI1Keys tenantId (stamp w)).2));
      ("fileId", Some (AttrS fileId));
      ("tenantId", Some (AttrS tenantId));
      ("overallStatus", Some (AttrS "pending"));
      ("totalPages", Some (AttrN totalPages));
      ("processedPages", Some (AttrN 0));
      ("failedPages", Some (AttrN 0));
      ("startedAt", Some (AttrS (toISOString (clockMs (S (time w))))));
      ("createdAt", Some (AttrS (toISOString (clockMs (S (S (time w)))))));
      ("updatedAt", Some (AttrS (toISOString (clockMs (S (S (S (time w))))))));
      ("ttl", Some (AttrN (clockMs (S (S (S (S (time w))))) / 1000 + 90 * 24 * 60 * 60))) ].

(** One call of the status service by some worker.  Every call sends one
    command, so the runs of concurrent workers are the interleavings of
    their calls: a schedule is any list of them. *)
Inductive WorkerCall :=
| CallIncrement (fileId : string)
| CallSavePage (fileId tenantId : string) (pageNumber : Z) (pageAnalysis : option string)
| CallUpdateStatus (fileId tenantId status : string)
| CallUpdateTotalPages (fileId tenantId : string) (totalPages : Z).

Definition runCall (c : WorkerCall) (w : World) : World :=
  match c with
  | CallIncrement fileId => after (incrementProcessedPages fileId) w
  | CallSavePage fileId tenantId pageNumber pageAnalysis =>
      after (savePageAttributes fileId tenantId pageNumber pageAnalysis None) w
  | CallUpdateStatus fileId tenantId status => after (updateStatus fileId tenantId status) w
  | CallUpdateTotalPages fileId tenantId totalPages =>
      after (updateTotalPages fileId tenantId totalPages) w
  end.

Definition runSchedule (calls : list WorkerCall) (w : World) : World :=
  fold_left (fun w c => runCall c w) calls w.

Definition isIncrementOf (fileId : string) (c : WorkerCall) : bool :=
  match c with
  | CallIncrement f => String.eqb f fileId
  | _ => false
  end.

(** The number of increments of [fileId] in a schedule. *)
Definition incrementsOf (fileId : string) (calls : list WorkerCall) : Z :=
  Z.of_nat (length (List.filter (isIncrementOf fileId) calls)).

(** The entries a query selects, in the order it returns them. *)
Definition queryEntries (pk skPrefix : string) (t : Table) : list (Key * Item) :=
  merge_sort skLe (List.filter (keyCondition pk skPrefix) (map_to_list t)).

(** The page records a query for the document's pages fetches. *)
Definition fetchedPages (w : World) (fileId : string) : list Item :=
  queryItems ("DOC#" +:+ fileId) "PAGE#" (table w).

(** A fetched page carries a payload when its analysis text is present
    and not empty. *)
Definition payload (p : Item) : bool :=
  match pageAnalysisOf p with
  | Some s => truthyString s
  | None => false
  end.

(** The failure test of a page whose payload check does not throw. *)
Definition errorOf (p : Item) : bool :=
  match hasError p with
  | Ok b => b
  | Throw _ => false
  end.

(** The parsed payload of a page, null when there is none. *)
Definition parsedOf (p : Item) : Json :=
  match pageAnalysisOf p with
  | Some s =>
      if truthyString s then
        match JSON_parse s with Ok v => v | Throw _ => JNull end
      else JNull
  | None => JNull
  end.

Definition chunkOf (p : Item) : Chunk :=
  {| pageNumber := pageNumberOf p;
     analysis := parsedOf p;
     status := if errorOf p then "failed" else "success" |}.

(** The payload check of a page returns: it parses and is not null. *)
Definition checks (p : Item) : Prop := exists b, hasError p = Ok b.

(** The manifest [aggregateResults] builds from the fetched pages. *)
Definition manifestOf (docId tenant : string) (total : Z) (at_ : string)
    (pages : list Item) : Manifest :=
  {| fileId := docId;
     tenantId := tenant;
     processedAt := at_;
     totalPages := total;
     successCount :=
       Z.of_nat (length (List.filter (fun p => payload p && negb (errorOf p)) pages));
     failedCount := Z.of_nat (length (List.filter errorOf pages));
     chunks := List.map chunkOf pages |}.

Definition resultsKey (docId tenant : string) : string :=
  tenant +:+ "/" +:+ docId +:+ "/results.json".

(** Every page record sits under the sort key of its own page number, and
    page numbers have at most four digits. *)
Definition pagesWf (t : Table) : Prop :=
  forall (k : Key) (item : Item),
    t !! k = Some item -> String.prefix "PAGE#" k.2 = true ->
    exists n, 0 <= n <= 9999 /\ k.2 = pageSK n /\ item !! "pageNumber" = Some (AttrN n).

(** The page writes of a schedule keep within four digits. *)
Definition pagesInRange (c : WorkerCall) : Prop :=
  match c with
  | CallSavePage _ _ pageNumber _ => 0 <= pageNumber <= 9999
  | _ => True
  end.

(** The page number a fetched record carries. *)
Definition pageNumberOr0 (p : Item) : Z := default 0 (pageNumberOf p).

(** [m] never changes the observation [obs] of the world. *)
Definition preserves {X A : Type} (obs : World -> X) (m : M A) : Prop :=
  forall w, obs (after m w) = obs w.

(** The invocations of the aggregator a world has seen. *)
Definition invoked (w : World) : list (string * string * Z) := aggregations (trace w).

(** The completion condition of the specification on a status image: the
    record is the STATUS record, its processed count equals its total
    count, the total is positive and the overall status is processing. *)
Definition eligible (image : Item) : bool :=
  bool_decide (image !! "SK" = Some (AttrS "STATUS"))
  && match image !! "processedPages", image !! "totalPages" with
     | Some (AttrN processed), Some (AttrN total) => (processed =? total) && (0 <? total)
     | _, _ => false
     end
  && bool_decide (image !! "overallStatus" = Some (AttrS "processing")).

(** The text the handler reads as [image.attr.S]. *)
Definition imageText (image : Item) (attr : string) : string :=
  match image !! attr with
  | Some (AttrS s) => s
  | _ => "undefined"
  end.

(** The call the handler makes for a record, if any: the record is a
    MODIFY with both images whose new image meets the completion condition
    and carries the document and tenant attributes. *)
Definition triggered (record : StreamRecord) : option (string * string * Z) :=
  match eventName record, NewImage record, OldImage record with
  | MODIFY, Some image, Some _ =>
      match image !! "fileId", image !! "tenantId", image !! "totalPages" with
      | Some _, Some _, Some (AttrN total) =>
          if eligible image
          then Some (imageText image "fileId", imageText image "tenantId", total)
          else None
      | _, _, _ => None
      end
  | _, _, _ => None
  end.

(** The call the poller makes for a scanned document. *)
Definition callOf (doc : Item) : string * string * Z :=
  (fieldText doc "fileId", fieldText doc "tenantId", fieldNumber doc "totalPages").

(** The outcome of the [n]-th call of the model on [text], parsed as the
    try block parses it. *)
Definition attemptResult (n : nat) (text : string) : Result Json :=
  match generateContent n text with
  | Throw e => Throw e
  | Ok responseText =>
      match jsonMatch responseText with
      | Some jsonText => JSON_parse jsonText
      | None => JSON_parse responseText
      end
  end.

(** The [n]-th attempt ends in an error that carries the rate-limit
    signal. *)
Definition rateLimited (n : nat) (text : string) : bool :=
  match attemptResult n text with
  | Throw e => isRateLimit e
  | Ok _ => false
  end.

(** The world after one call of the model. *)
Definition called (text : string) (w : World) : World :=
  countCall (addEvent (EvGenerate text) w).

(** The delays slept, the latest first. *)
Fixpoint sleepsOf (tr : list Event) : list Z :=
  match tr with
  | [] => []
  | EvSleep ms :: rest => ms :: sleepsOf rest
  | _ :: rest => sleepsOf rest
  end.

(** [k] delays starting at [delay] and doubling, the latest first. *)
Fixpoint backoff (delay : Z) (k : nat) : list Z :=
  match k with
  | O => []
  | S k' => (backoff (delay * 2) k' ++ [delay])%list
  end.

(** What the analysis of a page never touches: the table, the bucket, the
    clock and the commands and uploads sent. *)
Definition storeView (w : World) :=
  (table w, resultsBucket w, time w, sends (trace w), uploads (trace w)).

(** The text stored for a page: the analysis, or the failure marker
    stamped with the clock reading of the catch block. *)
Definition pageText (chunk : string) (w : World) : string :=
  match outcome (analyzeChunkDefault chunk) w with
  | Ok analysis => JSON_stringify analysis
  | Throw _ => JSON_stringify (failureMarker (stamp w))
  end.

(** The page record one iteration of the page loop writes. *)
Definition pageRecord (docId tenant : string) (i : nat) (chunk : string) (w : World) : Item :=
  pageItem docId tenant (Z.of_nat i + 1) (Some (pageText chunk w)) None
    (match outcome (analyzeChunkDefault chunk) w with
     | Ok _ => w
     | Throw _ => tick w
     end).

Definition isPut (c : Command) : bool :=
  match c with PutCommand _ => true | _ => false end.

Definition isIncrement (docId : string) (c : Command) : bool :=
  match c with
  | UpdateCommand key [SetIfNotExistsPlus "processedPages" 0 1; SetValue "updatedAt" _] =>
      bool_decide (key = documentStatusKeys docId)
  | _ => false
  end.

(** The number of commands of a kind among those sent. *)
Definition sent (kind : Command -> bool) (w : World) : nat :=
  length (List.filter kind (sends (trace w))).

End Observations.

(** * More of the services

    The file metadata service and the jobs controller, which share the
    table and the results bucket with the services above, and the
    publisher of the event stream, which has a state of its own. *)

(** ** The file metadata service and the jobs controller *)

(** new Error(msg) *)
Definition JsErrorOf (msg : string) : JsError :=
  {| errName := "Error"; message := Some msg |}.

Definition NotFoundException (msg : string) : JsError :=
  {| errName := "NotFoundException"; message := Some msg |}.

(** Truthiness of an attribute read from an item; [None] is undefined. *)
Definition truthyAttr (v : option AttributeValue) : bool :=
  match v with
  | None => false
  | Some (AttrS s) => truthyString s
  | Some (AttrN n) => negb (n =? 0)
  | Some (AttrL _) => true
  end.

Module Files.

(** The argument of [saveFileMetadata]: a file record without its keys.
    Its optional [ttl] is left out: the item literal overrides it. *)
Record FileInfo := {
  fileId : string;
  fileName : string;
  fileSize : Z;
  mimeType : string;
  s3Key : string;
  s3Bucket : string;
  tenantId : string;
  userId : option string;
  processingType : string;
  status : string;
  uploadedAt : string;
  updatedAt : string
}.

Section Service.
Context `{Collaborators}.

(** ** models.ts *)

Definition fileMetadataKeys (fileId : string) : Key :=
  ("FILE#" +:+ fileId, "METADATA").

Definition fileMetadataGSI1Keys (tenantId uploadedAt : string) : string * string :=
  ("TENANT#" +:+ tenantId, "FILE#" +:+ uploadedAt).

(** ** file-metadata.service.ts *)

Definition saveFileMetadata (metadata : FileInfo) : M Item :=
  let keys := fileMetadataKeys (fileId metadata) in
  let gsiKeys := fileMetadataGSI1Keys (tenantId metadata) (uploadedAt metadata) in
  let* ttl := generateTTL 90 in
  let item := marshall
    [ ("PK", Some (AttrS keys.1));
      ("SK", Some (AttrS keys.2));
      ("GSI1PK", Some (AttrS gsiKeys.1));
      ("GSI1SK", Some (AttrS gsiKeys.2));
      ("fileId", Some (AttrS (fileId metadata)));
      ("fileName", Some (AttrS (fileName metadata)));
      ("fileSize", Some (AttrN (fileSize metadata)));
      ("mimeType", Some (AttrS (mimeType metadata)));
      ("s3Key", Some (AttrS (s3Key metadata)));
      ("s3Bucket", Some (AttrS (s3Bucket metadata)));
      ("tenantId", Some (AttrS (tenantId metadata)));
      ("userId", AttrS <$> userId metadata);
      ("processingType", Some (AttrS (processingType metadata)));
      ("status", Some (AttrS (status metadata)));
      ("uploadedAt", Some (AttrS (uploadedAt metadata)));
      ("updatedAt", Some (AttrS (updatedAt metadata)));
      ("ttl", Some (AttrN ttl)) ] in
  send (PutCommand item);;
  ret item.

Definition getFileMetadata (fileId : string) : M (option Item) :=
  let keys := fileMetadataKeys fileId in
  let* result := send (GetCommand keys) in
  ret (match result with OutItem item => item | _ => None end).

(** The error message joins the SET clause only when it is given and not
    empty. *)
Definition updateFileStatus (fileId status : string) (errorMessage : option string) : M unit :=
  let keys := fileMetadataKeys fileId in
  let* updatedAt := newDateISO in
  send (UpdateCommand keys
          ([ SetValue "status" (AttrS status);
             SetValue "updatedAt" (AttrS updatedAt) ]
           ++ match errorMessage with
              | Some msg => if truthyString msg then [SetValue "errorMessage" (AttrS msg)] else []
              | None => []
              end)%list);;
  ret tt.

(** The Delete command has no counterpart among the commands of the
    document services; it removes the item under the key. *)
Definition deleteFileMetadata (fileId : string) : M unit :=
  let keys := fileMetadataKeys fileId in
  fun w => (Ok tt, setTable (delete keys (table w)) w).

End Service.
End Files.

Module Jobs.

Record Progress := {
  processed : option AttributeValue;
  total : option AttributeValue;
  failed : option AttributeValue
}.

Record Timestamps := {
  uploaded : option AttributeValue;
  started : option AttributeValue;
  completed : option AttributeValue
}.

(** The response of [getJobStatus]; an absent value is undefined.
    [result] is the stored results key, null when there is none, and
    [downloadUrl] is set for completed jobs only. *)
Record JobStatus := {
  fileId : string;
  fileName : option AttributeValue;
  status : option AttributeValue;
  progress : Progress;
  timestamps : Timestamps;
  result : option AttributeValue;
  downloadUrl : option string
}.

Section Controller.
Context `{Collaborators}.

(** Outside the repository: the request signer of the SDK, the name of the
    results bucket taken from the environment, and the error of the
    object store for a key it does not hold. *)
Variable getSignedUrl : string -> string -> Z -> Result string.
Variable resultsBucketName : string.
Variable noSuchKey : JsError.

(** ** s3.service.ts *)

Definition getPresignedUrl (bucket key : string) (expiresIn : Z) : M string :=
  tryCatch
    (liftResult (getSignedUrl bucket key expiresIn))
    (fun error =>
       throw (JsErrorOf ("Failed to generate presigned URL: " +:+ jsString (message error)))).

(** downloadFile on the results bucket, followed by the parse of the
    body: the manifest stored under the key. *)
Definition downloadResults (key : string) : M Manifest :=
  tryCatch
    (logEvent (EvDownload resultsBucketName key);;
     fun w => match resultsBucket w !! key with
              | Some results => (Ok results, w)
              | None => (Throw noSuchKey, w)
              end)
    (fun error =>
       throw (JsErrorOf ("S3 download failed: " +:+ jsString (message error)))).

(** ** jobs.controller.ts *)

Definition getJobStatus (fileId : string) : M JobStatus :=
  let* status := getDocumentStatus fileId in
  match status with
  | None => throw (NotFoundException ("Job not found for file ID: " +:+ fileId))
  | Some status =>
      let* metadata := Files.getFileMetadata fileId in
      let response :=
        {| fileId := fileId;
           fileName := metadata ≫= (.!! "fileName");
           status := status !! "overallStatus";
           progress := {| processed := status !! "processedPages";
                          total := status !! "totalPages";
                          failed := status !! "failedPages" |};
           timestamps := {| uploaded := metadata ≫= (.!! "uploadedAt");
                            started := status !! "startedAt";
                            completed := status !! "completedAt" |};
           result := if truthyAttr (status !! "resultS3Key")
                     then status !! "resultS3Key" else None;
           downloadUrl := None |} in
      if bool_decide (status !! "overallStatus" = Some (AttrS "completed"))
         && truthyAttr (status !! "resultS3Key")
      then
        let* url := getPresignedUrl resultsBucketName (fieldText status "resultS3Key") 3600 in
        ret {| fileId := fileId;
               fileName := fileName response;
               status := Jobs.status response;
               progress := progress response;
               timestamps := timestamps response;
               result := result response;
               downloadUrl := Some url |}
      else ret response
  end.

Definition getJobResults (fileId : string) : M Manifest :=
  let* status := getDocumentStatus fileId in
  match status with
  | Some status =>
      if truthyAttr (status !! "resultS3Key")
      then downloadResults (fieldText status "resultS3Key")
      else throw (NotFoundException ("Results not found for file ID: " +:+ fileId))
  | None => throw (NotFoundException ("Results not found for file ID: " +:+ fileId))
  end.

End Controller.
End Jobs.

(** ** The event stream: kinesis.service.ts *)

Module Kinesis.

(** An element of [BatchPublishOptions.records]. *)
Record PublishRecord := {
  partitionKey : string;
  eventType : string;
  data : Json
}.

(** An entry of a PutRecords request; [Data] is the JSON text of the
    event envelope. *)
Record Entry := {
  PartitionKey : string;
  Data : string
}.

(** What the service reads of a PutRecords response: the failure count
    and the error code of each result, where present. *)
Record PutRecordsOutput := {
  FailedRecordCount : option Z;
  Records : option (list (option string))
}.

(** The result of [publishBatch]; a failed record beyond the records sent
    is undefined, [None]. *)
Record BatchResult := {
  successCount : Z;
  failedCount : Z;
  failedRecords : list (option PublishRecord)
}.

(** A chunk handed to [publishChunkBatch]: its page number and its data
    object, given by the properties set on it, in the order in which they
    were set. *)
Record ChunkInput := {
  pageNumber : Z;
  chunkData : list (string * Json)
}.

(** The stream as the service sees it: the requests sent, the latest
    first, and the readings of the clock so far. *)
Record Stream := {
  requests : list (list Entry);
  readings : nat
}.

Definition K (A : Type) : Type := Stream -> Result A * Stream.

Definition ret {A} (a : A) : K A := fun s => (Ok a, s).

Definition throw {A} (e : JsError) : K A := fun s => (Throw e, s).

Definition bind {A B} (m : K A) (k : A -> K B) : K B :=
  fun s =>
    match m s with
    | (Ok a, s') => k a s'
    | (Throw e, s') => (Throw e, s')
    end.

Definition tryCatch {A} (body : K A) (handler : JsError -> K A) : K A :=
  fun s =>
    match body s with
    | (Ok a, s') => (Ok a, s')
    | (Throw e, s') => handler e s'
    end.

(** [l.map(f)] for a function with effects *)
Fixpoint mapK {A B} (f : A -> K B) (l : list A) : K (list B) :=
  match l with
  | [] => ret []
  | x :: rest =>
      bind (f x) (fun y => bind (mapK f rest) (fun rest' => ret (y :: rest')))
  end.

(** ** Objects

    An object is the list of its properties in the order in which
    JavaScript enumerates them, which is the order JSON.stringify prints:
    the array indices in ascending order, then the other names in the
    order of their creation. *)

(** The value of a text of decimal digits. *)
Fixpoint digitsValue (acc : N) (s : string) : option N :=
  match s with
  | EmptyString => Some acc
  | String a rest =>
      let c := N_of_ascii a in
      if ((48 <=? c) && (c <=? 57))%N
      then digitsValue (10 * acc + (c - 48))%N rest
      else None
  end.

(** A property name that is an array index: the decimal text, as
    JavaScript prints it, of an integer from 0 to 2^32 - 2. *)
Definition arrayIndex (k : string) : option N :=
  match digitsValue 0 k with
  | Some n => if String.eqb (pretty n) k && (n <=? 4294967294)%N then Some n else None
  | None => None
  end.

(** A new property [k] is enumerated before the property [k']. *)
Definition before (k k' : string) : bool :=
  match arrayIndex k, arrayIndex k' with
  | Some i, Some j => (i <? j)%N
  | Some _, None => true
  | None, _ => false
  end.

Definition hasField (k : string) (fields : list (string * Json)) : bool :=
  existsb (fun kv => String.eqb k kv.1) fields.

Fixpoint replaceField (k : string) (v : Json) (fields : list (string * Json))
    : list (string * Json) :=
  match fields with
  | [] => []
  | (k', v') :: rest =>
      if String.eqb k k' then (k, v) :: rest else (k', v') :: replaceField k v rest
  end.

Fixpoint insertField (k : string) (v : Json) (fields : list (string * Json))
    : list (string * Json) :=
  match fields with
  | [] => [(k, v)]
  | (k', v') :: rest =>
      if before k k' then (k, v) :: (k', v') :: rest else (k', v') :: insertField k v rest
  end.

(** [obj[k] = v]: an own property keeps its place, a new one is created. *)
Definition setField (k : string) (v : Json) (fields : list (string * Json))
    : list (string * Json) :=
  if hasField k fields then replaceField k v fields else insertField k v fields.

(** The properties of the object on which [entries] were set in this
    order. *)
Definition objectOf (entries : list (string * Json)) : list (string * Json) :=
  fold_left (fun acc kv => setField kv.1 kv.2 acc) entries [].

(** { ...base, ...extra }: the properties of [extra] are set on [base] in
    the order of their enumeration. *)
Definition spread (base extra : list (string * Json)) : list (string * Json) :=
  fold_left (fun acc kv => setField kv.1 kv.2 acc) (objectOf extra) base.

(** [obj[k]] *)
Definition getField (k : string) (fields : list (string * Json)) : option Json :=
  snd <$> List.find (fun kv => String.eqb k kv.1) fields.

(** [l.slice(i, j)] *)
Definition slice {A} (i j : nat) (l : list A) : list A := take (j - i) (drop i l).

Section Service.
Context `{Collaborators}.

(** The stream client: the response to the [n]-th PutRecords request, or
    the error it throws. *)
Variable putRecords : nat -> list Entry -> Result PutRecordsOutput.

(** new Date().toISOString() *)
Definition newDateISO : K string :=
  fun s => (Ok (toISOString (clockMs (readings s))),
            {| requests := requests s; readings := S (readings s) |}).

(** this.kinesisClient.send(new PutRecordsCommand(...)) *)
Definition sendPutRecords (entries : list Entry) : K PutRecordsOutput :=
  fun s => (putRecords (length (requests s)) entries,
            {| requests := entries :: requests s; readings := readings s |}).

Definition envelope (record : PublishRecord) (timestamp : string) : Json :=
  JObj [ ("eventType", JStr (eventType record));
         ("data", data record);
         ("timestamp", JStr timestamp);
         ("metadata", JObj [("source", JStr "document-orchestrator")]) ].

(** response.Records?.map(...).filter(...) || [] *)
Definition failedOf (records : list PublishRecord) (results : option (list (option string)))
    : list (option PublishRecord) :=
  match results with
  | None => []
  | Some results =>
      omap id
        (imap (fun index (errorCode : option string) =>
                 match errorCode with
                 | Some code => if truthyString code then Some (records !! index) else None
                 | None => None
                 end) results)
  end.

Definition publishBatch (records : list PublishRecord) : K BatchResult :=
  if (length records =? 0)%nat then
    ret {| successCount := 0; failedCount := 0; failedRecords := [] |}
  else if (500 <? length records)%nat then
    throw (JsErrorOf "Batch size cannot exceed 500 records")
  else
    bind (mapK (fun record =>
                  bind newDateISO (fun timestamp =>
                    ret {| PartitionKey := partitionKey record;
                           Data := JSON_stringify (envelope record timestamp) |}))
            records)
      (fun kinesisRecords =>
         tryCatch
           (bind (sendPutRecords kinesisRecords) (fun response =>
              let failedCount := default 0 (FailedRecordCount response) in
              let successCount := Z.of_nat (length records) - failedCount in
              ret {| successCount := successCount;
                     failedCount := failedCount;
                     failedRecords := failedOf records (Records response) |}))
           (fun error =>
              throw (JsErrorOf ("Kinesis batch publish failed: "
                                +:+ jsString (message error))))).

Definition chunkRecord (fileId tenantId : string) (chunk : ChunkInput) : PublishRecord :=
  {| partitionKey := tenantId +:+ "#" +:+ fileId;
     eventType := "chunk.ready";
     data := JObj (spread [ ("fileId", JStr fileId);
                            ("tenantId", JStr tenantId);
                            ("pageNumber", JNum (pageNumber chunk)) ]
                     (chunkData chunk)) |}.

(** The loop over the batches, from index [i] on.  [fuel] bounds its
    iterations; the loop is started with enough of it. *)
Fixpoint batchLoop (fuel : nat) (records : list PublishRecord) (i : nat) : K unit :=
  if (i <? length records)%nat then
    match fuel with
    | O => throw (JsErrorOf "out of fuel")
    | S fuel' =>
        bind (publishBatch (slice i (i + 500) records)) (fun _ =>
          batchLoop fuel' records (i + 500))
    end
  else ret tt.

Definition publishChunkBatch (fileId tenantId : string) (chunks : list ChunkInput) : K unit :=
  let records := List.map (chunkRecord fileId tenantId) chunks in
  batchLoop (length records) records 0.

End Service.
End Kinesis.

(** * More vocabulary

    Observations of a document, of a run of the worker and of a text, for
    the properties of the services taken together. *)

Section Views.
Context `{Collaborators}.

(** What the table holds for one document: its status record and the page
    records a query fetches. *)
Definition documentView (docId : string) (t : Table) : option Item * list Item :=
  (t !! documentStatusKeys docId, queryItems ("DOC#" +:+ docId) "PAGE#" t).

(** The sum of a list of delays. *)
Definition sumZ (l : list Z) : Z := foldr Z.add 0 l.

(** An operation of the services on one document. *)
Inductive Operation :=
| OpCreate (fileId tenantId : string) (totalPages : Z)
| OpCall (c : WorkerCall)
| OpProcess (fileId tenantId s3Key bucket : string)
| OpAggregate (fileId tenantId : string) (totalPages : Z).

(** The document an operation is called for. *)
Definition subject (op : Operation) : string :=
  match op with
  | OpCreate fileId _ _ => fileId
  | OpCall (CallIncrement fileId) => fileId
  | OpCall (CallSavePage fileId _ _ _) => fileId
  | OpCall (CallUpdateStatus fileId _ _) => fileId
  | OpCall (CallUpdateTotalPages fileId _ _) => fileId
  | OpProcess fileId _ _ _ => fileId
  | OpAggregate fileId _ _ => fileId
  end.

Definition perform (op : Operation) (w : World) : World :=
  match op with
  | OpCreate fileId tenantId totalPages =>
      after (createDocumentStatus fileId tenantId totalPages) w
  | OpCall c => runCall c w
  | OpProcess fileId tenantId s3Key bucket =>
      after (processDocument fileId tenantId s3Key bucket) w
  | OpAggregate fileId tenantId totalPages =>
      after (aggregateResults fileId tenantId totalPages) w
  end.

Definition performAll (ops : list Operation) (w : World) : World :=
  fold_left (fun w op => perform op w) ops w.

(** The value a call of a schedule leaves in the total or in the overall
    status of [fileId], given the value [old] stored before it. *)
Definition totalAfter (fileId : string) (old : option AttributeValue) (c : WorkerCall)
    : option AttributeValue :=
  match c with
  | CallUpdateTotalPages f _ n => if String.eqb f fileId then Some (AttrN n) else old
  | _ => old
  end.

Definition statusAfter (fileId : string) (old : option AttributeValue) (c : WorkerCall)
    : option AttributeValue :=
  match c with
  | CallUpdateStatus f _ st => if String.eqb f fileId then Some (AttrS st) else old
  | _ => old
  end.

(** [c] occurs in [s]. *)
Fixpoint occurs (c : ascii) (s : string) : bool :=
  match s with
  | EmptyString => false
  | String a rest => Ascii.eqb a c || occurs c rest
  end.

(** The number of occurrences of [c] in [s]. *)
Fixpoint occurrences (c : ascii) (s : string) : nat :=
  match s with
  | EmptyString => O
  | String a rest => if Ascii.eqb a c then S (occurrences c rest) else occurrences c rest
  end.

(** The page records the page loop writes, in the order of the chunks. *)
Fixpoint loopRecords (docId tenant : string) (i : nat) (chunks : list string) (w : World)
    : list Item :=
  match chunks with
  | [] => []
  | chunk :: rest =>
      pageRecord docId tenant i chunk w
      :: loopRecords docId tenant (S i) rest (after (processPage docId tenant i chunk) w)
  end.

(** The world in which the worker enters its page loop, when the download
    and the parse have returned. *)
Definition loopStart (docId tenant s3Key bucket : string) (numPages : Z) (w : World) : World :=
  after (updateTotalPages docId tenant numPages)
    (addEvent (EvDownload bucket s3Key)
       (after (updateStatus docId tenant "processing") w)).

(** The time slept so far. *)
Definition slept (w : World) : Z := sumZ (sleepsOf (trace w)).

(** [m] makes at most [calls] calls of the model and sleeps at most [ms]
    milliseconds, whatever its outcome. *)
Definition spends {A} (m : M A) (calls : nat) (ms : Z) : Prop :=
  0 <= ms
  /\ forall w,
       (genCalls w <= genCalls (after m w) <= genCalls w + calls)%nat
       /\ slept w <= slept (after m w) <= slept w + ms.

(** The entry [publishBatch] builds for a record when the clock has been
    read [n] times before. *)
Definition entryAt (n : nat) (record : Kinesis.PublishRecord) : Kinesis.Entry :=
  {| Kinesis.PartitionKey := Kinesis.partitionKey record;
     Kinesis.Data := JSON_stringify (Kinesis.envelope record (toISOString (clockMs n))) |}.

(** The entries of a list of records, the clock being read once for each
    record, from its [n]-th reading on. *)
Definition entriesFrom (n : nat) (records : list Kinesis.PublishRecord)
    : list Kinesis.Entry :=
  imap (fun j record => entryAt (n + j) record) records.

(** The [k]-th batch of 500 of a list, and the number of batches that
    hold [n] elements. *)
Definition batchAt {A} (l : list A) (k : nat) : list A := take 500 (drop (500 * k) l).

Definition batchCount (n : nat) : nat := (n + 499) / 500.

(** The names of an object are in the order of enumeration: no name
    twice, and no name after one it would be enumerated before. *)
Definition objectOrder (names : list string) : Prop :=
  StronglySorted (fun a b => a <> b /\ Kinesis.before b a = false) names.

(** The number of chunks the worker finds in the document under a key. *)
Definition chunkCount (bucket s3Key : string) : nat :=
  match downloadFile bucket s3Key with
  | Ok buffer =>
      match pdf buffer with
      | Ok data => length data.2
      | Throw _ => O
      end
  | Throw _ => O
  end.

End Views.

(** ** More sample worlds *)

Module Cases.

#[local] Existing Instance Sample.collaborators.

(** All three increments have arrived for the document of which only two
    page records are stored. *)
Definition lagging : World :=
  runSchedule (repeat (CallIncrement "doc-1") 3) Sample.twoOfThree.

(** The model answered page one with the JSON value null, and the worker
    stored it. *)
Definition nullPage : World :=
  after (savePageAttributes "doc-1" "acme" 1 (Some (Sample.stringify JNull)) None)
    (after (updateTotalPages "doc-1" "acme" 1) Sample.started).

(** The sample document after the worker and the aggregator have run. *)
Definition completed : World :=
  after (aggregateResults "doc-1" "acme" 3) Sample.processed.

(** A request signer and the name of the results bucket when the
    environment sets none. *)
Definition signer (bucket key : string) (expiresIn : Z) : Result string :=
  Ok ("https://" +:+ bucket +:+ ".example/" +:+ key +:+ "?expires=" +:+ pretty expiresIn).

Definition resultsBucketName : string := "document-orchestrator-results".

(** A stream client that accepts every request. *)
Definition acceptAll (n : nat) (entries : list Kinesis.Entry) : Result Kinesis.PutRecordsOutput :=
  Ok {| Kinesis.FailedRecordCount := None; Kinesis.Records := None |}.

Definition emptyStream : Kinesis.Stream :=
  {| Kinesis.requests := []; Kinesis.readings := 0 |}.

(** A stream client that refuses its second request. *)
Definition Throttled : JsError :=
  {| errName := "ProvisionedThroughputExceededException";
     message := Some "Rate exceeded for shard" |}.

Definition refuseSecond (n : nat) (entries : list Kinesis.Entry)
    : Result Kinesis.PutRecordsOutput :=
  if (n =? 1)%nat then Throw Throttled else acceptAll n entries.

(** A chunk whose data was given a text, the array indices 10 and 9, a
    language and a page number of its own. *)
Definition chunk (n : Z) : Kinesis.ChunkInput :=
  {| Kinesis.pageNumber := n;
     Kinesis.chunkData := [ ("text", JStr "page"); ("10", JStr "ten"); ("9", JStr "nine");
                            ("lang", JStr "en"); ("pageNumber", JNum 0) ] |}.

End Cases.

(** A closed equation between stored values, by evaluation of its
    decision. *)
Ltac by_evaluation :=
  match goal with |- ?P => apply (bool_decide_eq_true_1 P) end; vm_compute; reflexivity.

(** * Properties *)

(** ** Byte order of strings *)

Lemma ascii_compare_lt_trans (a b c : ascii) :
  Ascii.compare a b = Lt -> Ascii.compare b c = Lt -> Ascii.compare a c = Lt.
Proof.
  unfold Ascii.compare. rewrite !N.compare_lt_iff. lia.
Qed.

Lemma string_compare_lt_trans (s1 s2 s3 : string) :
  String.compare s1 s2 = Lt -> String.compare s2 s3 = Lt -> String.compare s1 s3 = Lt.
Proof.
  revert s2 s3. induction s1 as [|a s1 IH]; intros [|b s2] [|c s3]; simpl;
    try discriminate; auto.
  destruct (Ascii.compare a b) eqn:Hab; try discriminate;
    destruct (Ascii.compare b c) eqn:Hbc; try discriminate; intros H1 H2.
  - apply Ascii.compare_eq_iff in Hab, Hbc. subst.
    assert (Ascii.compare c c = Eq) as -> by (unfold Ascii.compare; apply N.compare_refl).
    eauto.
  - apply Ascii.compare_eq_iff in Hab. subst. now rewrite Hbc.
  - apply Ascii.compare_eq_iff in Hbc. subst. now rewrite Hab.
  - now rewrite (ascii_compare_lt_trans _ _ _ Hab Hbc).
Qed.

Lemma string_compare_refl (s : string) : String.compare s s = Eq.
Proof.
  induction s as [|a s IH]; simpl; [reflexivity|].
  assert (Ascii.compare a a = Eq) as -> by (unfold Ascii.compare; apply N.compare_refl).
  exact IH.
Qed.

Lemma string_ltb_trans (s1 s2 s3 : string) :
  String.ltb s1 s2 = true -> String.ltb s2 s3 = true -> String.ltb s1 s3 = true.
Proof.
  unfold String.ltb.
  destruct (String.compare s1 s2) eqn:H12; try discriminate.
  destruct (String.compare s2 s3) eqn:H23; try discriminate.
  now rewrite (string_compare_lt_trans _ _ _ H12 H23).
Qed.

Lemma string_ltb_irrefl (s : string) : String.ltb s s = false.
Proof. unfold String.ltb. now rewrite string_compare_refl. Qed.

Lemma string_leb_ltb (s1 s2 : string) :
  String.leb s1 s2 = true <-> String.ltb s1 s2 = true \/ s1 = s2.
Proof.
  unfold String.leb, String.ltb. split.
  - destruct (String.compare s1 s2) eqn:Hc; try discriminate; auto.
    right. now apply String.compare_eq_iff.
  - intros [Hlt | ->]; [|now rewrite string_compare_refl].
    now destruct (String.compare s1 s2).
Qed.

Lemma string_ltb_not_leb (s1 s2 : string) :
  String.ltb s1 s2 = true -> String.leb s2 s1 = false.
Proof.
  unfold String.ltb, String.leb. rewrite (String.compare_antisym s2 s1).
  now destruct (String.compare s1 s2).
Qed.

Global Instance skLe_trans : Transitive skLe.
Proof.
  intros a b c. unfold skLe. rewrite !string_leb_ltb.
  intros [H1 | H1] [H2 | H2].
  - left. eauto using string_ltb_trans.
  - left. congruence.
  - left. congruence.
  - right. congruence.
Qed.

Global Instance skLe_total : Total skLe.
Proof. intros a b. unfold skLe. apply String.leb_total. Qed.

(** ** Page sort keys *)

Lemma documentPageKeys_SK (fileId : string) (n : Z) :
  (documentPageKeys fileId n).2 = pageSK n.
Proof. reflexivity. Qed.

Lemma in_countFrom (n i : Z) (len : nat) :
  i <= n < i + Z.of_nat len -> In n (countFrom i len).
Proof.
  revert i. induction len as [|len IH]; intros i Hn; simpl; [lia|].
  destruct (Z.eq_dec i n) as [->|Hne]; [now left|].
  right. apply IH. lia.
Qed.

Lemma adjacent_keys_increase : adjacentKeysIncrease 9999 = true.
Proof. vm_compute. reflexivity. Qed.

Lemma pageSK_succ (n : Z) :
  0 <= n < 9999 -> String.ltb (pageSK n) (pageSK (n + 1)) = true.
Proof.
  intros Hn. pose proof adjacent_keys_increase as Hall.
  unfold adjacentKeysIncrease in Hall. rewrite forallb_forall in Hall.
  apply Hall, in_countFrom. lia.
Qed.

Lemma pageSK_lt (m n : Z) :
  0 <= m -> m < n -> n <= 9999 -> String.ltb (pageSK m) (pageSK n) = true.
Proof.
  intros Hm Hlt Hn.
  replace n with (m + 1 + Z.of_nat (Z.to_nat (n - m - 1))) in * by lia.
  induction (Z.to_nat (n - m - 1)) as [|k IH].
  - rewrite Z.add_0_r. apply pageSK_succ. lia.
  - apply string_ltb_trans with (pageSK (m + 1 + Z.of_nat k)).
    + apply IH; lia.
    + replace (m + 1 + Z.of_nat (S k)) with (m + 1 + Z.of_nat k + 1) by lia.
      apply pageSK_succ. lia.
Qed.

Lemma pageSK_leb_inv (m n : Z) :
  0 <= m <= 9999 -> 0 <= n <= 9999 ->
  String.leb (pageSK m) (pageSK n) = true -> m <= n.
Proof.
  intros Hm Hn Hle. destruct (Z_le_gt_dec m n) as [|Hgt]; [assumption|].
  assert (String.ltb (pageSK n) (pageSK m) = true) as Hlt by (apply pageSK_lt; lia).
  apply string_ltb_not_leb in Hlt. congruence.
Qed.

(** ** The status service, one call at a time *)

Section Properties.
Context `{Collaborators}.

Lemma keyOf_marshall (pk sk : string) rest :
  keyOf (marshall (("PK", Some (AttrS pk)) :: ("SK", Some (AttrS sk)) :: rest))
  = Some (pk, sk).
Proof.
  unfold keyOf. simpl. rewrite lookup_insert_eq.
  rewrite lookup_insert_ne by discriminate. now rewrite lookup_insert_eq.
Qed.

Lemma applyUpdate_values (old : Item) (updates : list (string * option AttributeValue)) :
  forall acc, fold_left (applySet old) (updateExpressions updates) (Some acc)
              = Some (fold_left (fun item a =>
                          match a with
                          | SetValue attr v => <[attr := v]> item
                          | _ => item
                          end) (updateExpressions updates) acc).
Proof.
  induction updates as [|[k [v|]] rest IH]; intros acc; simpl; auto.
Qed.

Lemma updateDocumentStatus_run (fileId : string) updates (w : World) :
  updateDocumentStatus fileId updates w
  = (Ok tt,
     {| table := <[documentStatusKeys fileId :=
                     updatedItem (statusItem (table w) fileId) (stamp w) updates]> (table w);
        resultsBucket := resultsBucket w;
        trace := EvSend (statusCommand fileId (stamp w) updates) :: trace w;
        time := S (time w);
        genCalls := genCalls w |}).
Proof.
  unfold updateDocumentStatus, bind, newDateISO, send, statusCommand. simpl.
  unfold applyUpdate. simpl. rewrite applyUpdate_values. reflexivity.
Qed.

Lemma updateStatus_run (fileId tenantId st : string) (w : World) :
  updateStatus fileId tenantId st w
  = (Ok tt,
     {| table := <[documentStatusKeys fileId :=
                     <["overallStatus" := AttrS st]>
                       (<["updatedAt" := AttrS (stamp w)]> (statusItem (table w) fileId))]>
                   (table w);
        resultsBucket := resultsBucket w;
        trace := EvSend (statusCommand fileId (stamp w)
                           [("overallStatus", Some (AttrS st))]) :: trace w;
        time := S (time w);
        genCalls := genCalls w |}).
Proof. unfold updateStatus. now rewrite updateDocumentStatus_run. Qed.

Lemma updateTotalPages_run (fileId tenantId : string) (n : Z) (w : World) :
  updateTotalPages fileId tenantId n w
  = (Ok tt,
     {| table := <[documentStatusKeys fileId :=
                     <["updatedAt" := AttrS (stamp w)]>
                       (<["totalPages" := AttrN n]> (statusItem (table w) fileId))]>
                   (table w);
        resultsBucket := resultsBucket w;
        trace := EvSend (UpdateCommand (documentStatusKeys fileId)
                           [ SetValue "totalPages" (AttrN n);
                             SetValue "updatedAt" (AttrS (stamp w)) ]) :: trace w;
        time := S (time w);
        genCalls := genCalls w |}).
Proof. reflexivity. Qed.

Lemma incrementProcessedPages_run (fileId : string) (w : World) (p : Z) :
  counterOf (statusItem (table w) fileId) = Some p ->
  incrementProcessedPages fileId w
  = (Ok JsUndefined,
     {| table := <[documentStatusKeys fileId :=
                     <["updatedAt" := AttrS (stamp w)]>
                       (<["processedPages" := AttrN (p + 1)]> (statusItem (table w) fileId))]>
                   (table w);
        resultsBucket := resultsBucket w;
        trace := EvSend (incrementCommand fileId (stamp w)) :: trace w;
        time := S (time w);
        genCalls := genCalls w |}).
Proof.
  intros Hp. unfold incrementProcessedPages, bind, newDateISO, send, incrementCommand.
  simpl. unfold applyUpdate, statusItem, counterOf in *. simpl.
  destruct (default _ _ !! "processedPages") as [[| |]|]; simplify_eq/=; reflexivity.
Qed.

Lemma incrementProcessedPages_trace (fileId : string) (w : World) :
  trace (after (incrementProcessedPages fileId) w)
  = EvSend (incrementCommand fileId (stamp w)) :: trace w.
Proof.
  unfold after, incrementProcessedPages, bind, newDateISO, send. simpl.
  destruct (applyUpdate _ _); reflexivity.
Qed.

Lemma savePageAttributes_run fileId tenantId pageNumber pageAnalysis chunkIds (w : World) :
  savePageAttributes fileId tenantId pageNumber pageAnalysis chunkIds w
  = (Ok (pageItem fileId tenantId pageNumber pageAnalysis chunkIds w),
     {| table := <[documentPageKeys fileId pageNumber :=
                     pageItem fileId tenantId pageNumber pageAnalysis chunkIds w]> (table w);
        resultsBucket := resultsBucket w;
        trace := EvSend (PutCommand
                   (pageItem fileId tenantId pageNumber pageAnalysis chunkIds w)) :: trace w;
        time := S (S (S (time w)));
        genCalls := genCalls w |}).
Proof.
  unfold savePageAttributes, generateTTL, bind, newDateISO, dateNow, send, ret, pageItem.
  cbn [time tick table addEvent setTable trace resultsBucket genCalls exec fst snd].
  rewrite keyOf_marshall. reflexivity.
Qed.

Lemma createDocumentStatus_run fileId tenantId totalPages (w : World) :
  createDocumentStatus fileId tenantId totalPages w
  = (Ok (freshStatusItem fileId tenantId totalPages w),
     {| table := <[documentStatusKeys fileId :=
                     freshStatusItem fileId tenantId totalPages w]> (table w);
        resultsBucket := resultsBucket w;
        trace := EvSend (PutCommand (freshStatusItem fileId tenantId totalPages w)) :: trace w;
        time := S (S (S (S (S (time w)))));
        genCalls := genCalls w |}).
Proof.
  unfold createDocumentStatus, generateTTL, bind, newDateISO, dateNow, send, ret,
    freshStatusItem, stamp.
  cbn [time tick table addEvent setTable trace resultsBucket genCalls exec fst snd].
  rewrite keyOf_marshall. reflexivity.
Qed.

Lemma getDocumentPages_run fileId (w : World) :
  getDocumentPages fileId w
  = (Ok (queryItems ("DOC#" +:+ fileId) "PAGE#" (table w)),
     addEvent (EvSend (QueryCommand ("DOC#" +:+ fileId) "PAGE#")) w).
Proof. destruct w; reflexivity. Qed.

Lemma getReadyForAggregation_run (w : World) :
  getReadyForAggregation w
  = (Ok (scanItems readyFilter (table w)),
     addEvent (EvSend (ScanCommand readyFilter)) w).
Proof. destruct w; reflexivity. Qed.

(** ** Keys *)

Lemma append_inj_r (p s1 s2 : string) : p +:+ s1 = p +:+ s2 -> s1 = s2.
Proof. induction p as [|a p IH]; simpl; intros Heq; [assumption|]. injection Heq. auto. Qed.

Lemma documentStatusKeys_inj (f1 f2 : string) :
  documentStatusKeys f1 = documentStatusKeys f2 -> f1 = f2.
Proof. unfold documentStatusKeys. intros [= Heq]. eapply append_inj_r, Heq. Qed.

Lemma page_key_not_status (f1 f2 : string) (n : Z) :
  documentPageKeys f1 n <> documentStatusKeys f2.
Proof. unfold documentPageKeys, documentStatusKeys. intros [= _ Heq]. Qed.

(** ** The processed-page counter *)

Lemma statusAttr_counter (w : World) (fileId : string) (p : Z) :
  statusAttr w fileId "processedPages" = Some (AttrN p) ->
  counterOf (statusItem (table w) fileId) = Some p.
Proof.
  unfold statusAttr, statusItem, counterOf.
  destruct (table w !! documentStatusKeys fileId) as [item|]; simpl; [|discriminate].
  now intros ->.
Qed.

Lemma increment_counter_same (w : World) (fileId : string) (p : Z) :
  statusAttr w fileId "processedPages" = Some (AttrN p) ->
  statusAttr (after (incrementProcessedPages fileId) w) fileId "processedPages"
  = Some (AttrN (p + 1)).
Proof.
  intros Hp. unfold after.
  rewrite (incrementProcessedPages_run _ _ p) by now apply statusAttr_counter.
  unfold statusAttr. simpl. rewrite lookup_insert_eq. simpl.
  rewrite lookup_insert_ne by discriminate. now rewrite lookup_insert_eq.
Qed.

Lemma increment_counter_other (w : World) (f fileId attr : string) :
  f <> fileId ->
  statusAttr (after (incrementProcessedPages f) w) fileId attr = statusAttr w fileId attr.
Proof.
  intros Hne. unfold after, incrementProcessedPages, bind, newDateISO, send, statusAttr.
  simpl. destruct (applyUpdate _ _); simpl; [|reflexivity].
  rewrite lookup_insert_ne; [reflexivity|].
  intros Heq. now apply documentStatusKeys_inj in Heq.
Qed.

Lemma savePage_statusAttr (w : World) f t n a c (fileId attr : string) :
  statusAttr (after (savePageAttributes f t n a c) w) fileId attr = statusAttr w fileId attr.
Proof.
  unfold after. rewrite savePageAttributes_run. unfold statusAttr. simpl.
  rewrite lookup_insert_ne; [reflexivity|]. apply page_key_not_status.
Qed.

Lemma updateStatus_counter (w : World) (f t st fileId : string) :
  statusAttr (after (updateStatus f t st) w) fileId "processedPages"
  = statusAttr w fileId "processedPages".
Proof.
  unfold after. rewrite updateStatus_run. unfold statusAttr, statusItem. simpl.
  destruct (decide (documentStatusKeys f = documentStatusKeys fileId)) as [Heq|Hne].
  - rewrite Heq, lookup_insert_eq. simpl.
    rewrite !lookup_insert_ne by discriminate.
    destruct (table w !! documentStatusKeys fileId); simpl; [reflexivity|].
    unfold keyItem. now rewrite !lookup_insert_ne by discriminate.
  - now rewrite lookup_insert_ne.
Qed.

Lemma updateTotalPages_counter (w : World) (f t : string) (n : Z) (fileId : string) :
  statusAttr (after (updateTotalPages f t n) w) fileId "processedPages"
  = statusAttr w fileId "processedPages".
Proof.
  unfold after. rewrite updateTotalPages_run. unfold statusAttr, statusItem. simpl.
  destruct (decide (documentStatusKeys f = documentStatusKeys fileId)) as [Heq|Hne].
  - rewrite Heq, lookup_insert_eq. simpl.
    rewrite !lookup_insert_ne by discriminate.
    destruct (table w !! documentStatusKeys fileId); simpl; [reflexivity|].
    unfold keyItem. now rewrite !lookup_insert_ne by discriminate.
  - now rewrite lookup_insert_ne.
Qed.

Lemma runSchedule_counter (calls : list WorkerCall) (fileId : string) :
  forall (w : World) (p : Z),
    statusAttr w fileId "processedPages" = Some (AttrN p) ->
    statusAttr (runSchedule calls w) fileId "processedPages"
    = Some (AttrN (p + incrementsOf fileId calls)).
Proof.
  unfold runSchedule, incrementsOf.
  induction calls as [|c calls IH]; intros w p Hp; simpl.
  - now rewrite Z.add_0_r.
  - destruct c as [f|f t n a|f t st|f t n]; simpl.
    + destruct (String.eqb_spec f fileId) as [->|Hne].
      * rewrite (IH _ (p + 1)) by now apply increment_counter_same.
        simpl length. f_equal. f_equal. lia.
      * apply IH. now rewrite increment_counter_other.
    + apply IH. now rewrite savePage_statusAttr.
    + apply IH. now rewrite updateStatus_counter.
    + apply IH. now rewrite updateTotalPages_counter.
Qed.

(** C1, as the code has it.  For a status record whose counter holds [p]:
    one call of [incrementProcessedPages] sends exactly one command, the
    update whose expression adds 1 to the stored counter, and no read; the
    counter then holds [p + 1]; [K] successive calls leave it at [p + K];
    more generally the counter ends at [p] plus the number of increments
    of the document in every interleaving of the increments with the page
    writes, status transitions and total-page updates of any workers; and
    the call hands its caller undefined, not the new count. *)
Theorem incrementProcessedPages_atomic_add (w : World) (fileId : string) (p : Z) :
  statusAttr w fileId "processedPages" = Some (AttrN p) ->
  sends (trace (after (incrementProcessedPages fileId) w))
    = incrementCommand fileId (stamp w) :: sends (trace w)
  /\ statusAttr (after (incrementProcessedPages fileId) w) fileId "processedPages"
     = Some (AttrN (p + 1))
  /\ (forall K : nat,
        statusAttr (runSchedule (repeat (CallIncrement fileId) K) w) fileId "processedPages"
        = Some (AttrN (p + Z.of_nat K)))
  /\ (forall calls : list WorkerCall,
        statusAttr (runSchedule calls w) fileId "processedPages"
        = Some (AttrN (p + incrementsOf fileId calls)))
  /\ outcome (incrementProcessedPages fileId) w = Ok JsUndefined.
Proof.
  intros Hp. repeat split.
  - now rewrite incrementProcessedPages_trace.
  - now apply increment_counter_same.
  - intros K. rewrite (runSchedule_counter _ _ _ p Hp).
    assert (length (List.filter (isIncrementOf fileId) (repeat (CallIncrement fileId) K)) = K)
      as Hlen.
    { induction K as [|K IH]; simpl; [reflexivity|].
      rewrite String.eqb_refl. simpl. now rewrite IH. }
    unfold incrementsOf. now rewrite Hlen.
  - intros calls. now apply runSchedule_counter.
  - unfold outcome.
    now rewrite (incrementProcessedPages_run _ _ p) by now apply statusAttr_counter.
Qed.

(** ** Queries *)

Lemma filter_Permutation_bool {A} (f : A -> bool) (l1 l2 : list A) :
  l1 ≡ₚ l2 -> List.filter f l1 ≡ₚ List.filter f l2.
Proof.
  induction 1 as [|x l1 l2 _ IH|x y l|l1 l2 l3 _ IH1 _ IH2]; simpl.
  - reflexivity.
  - destruct (f x); [now constructor|assumption].
  - destruct (f x), (f y); try reflexivity. apply perm_swap.
  - now transitivity (List.filter f l2).
Qed.

(** Two entries of a table with the same key are the same entry. *)
Lemma map_to_list_key_unique (t : Table) (x y : Key * Item) :
  x ∈ map_to_list t -> y ∈ map_to_list t -> x.1 = y.1 -> x = y.
Proof.
  destruct x as [kx vx], y as [ky vy]. rewrite !elem_of_map_to_list. simpl.
  intros Hx Hy ->. congruence.
Qed.

Lemma elem_of_filter_bool {A} (f : A -> bool) (l : list A) (x : A) :
  x ∈ List.filter f l <-> x ∈ l /\ f x = true.
Proof. rewrite !list_elem_of_In. apply filter_In. Qed.

Lemma queryItems_entries (pk skPrefix : string) (t : Table) :
  queryItems pk skPrefix t = snd <$> queryEntries pk skPrefix t.
Proof. reflexivity. Qed.

Lemma elem_of_queryEntries (pk skPrefix : string) (t : Table) (e : Key * Item) :
  e ∈ queryEntries pk skPrefix t
  <-> t !! e.1 = Some e.2 /\ e.1.1 = pk /\ String.prefix skPrefix e.1.2 = true.
Proof.
  unfold queryEntries. rewrite merge_sort_Permutation, elem_of_filter_bool.
  destruct e as [k v]. rewrite elem_of_map_to_list. unfold keyCondition. simpl.
  rewrite andb_true_iff, String.eqb_eq. tauto.
Qed.

Lemma queryEntries_key_unique (pk skPrefix : string) (t : Table) (x y : Key * Item) :
  x ∈ queryEntries pk skPrefix t -> y ∈ queryEntries pk skPrefix t ->
  skLe x y -> skLe y x -> x = y.
Proof.
  rewrite !elem_of_queryEntries. intros (Hx & Hpx & _) (Hy & Hpy & _) Hxy Hyx.
  assert (x.1.2 = y.1.2) as Hsk by (apply String.leb_antisym; assumption).
  destruct x as [[px sx] vx], y as [[py sy] vy]. simpl in *. subst. congruence.
Qed.

Lemma queryEntries_sorted (pk skPrefix : string) (t : Table) :
  StronglySorted skLe (queryEntries pk skPrefix t).
Proof. apply StronglySorted_merge_sort; apply _. Qed.

(** Writing under a key the query does not select leaves its answer
    unchanged. *)
Lemma queryEntries_insert_other (pk skPrefix : string) (t : Table) (k : Key) (v : Item) :
  keyCondition pk skPrefix (k, v) = false ->
  queryEntries pk skPrefix (<[k := v]> t) = queryEntries pk skPrefix t.
Proof.
  intros Hk.
  apply (StronglySorted_unique_strong skLe).
  - intros x y Hx Hy. apply (queryEntries_key_unique pk skPrefix t); [|assumption].
    apply elem_of_queryEntries in Hx as (Hx & Hpk & Hsk).
    apply elem_of_queryEntries. repeat split; try assumption.
    rewrite lookup_insert_ne in Hx; [assumption|].
    intros ->. unfold keyCondition in Hk. simpl in Hk.
    rewrite Hsk, andb_true_r in Hk. apply String.eqb_neq in Hk. contradiction.
  - apply queryEntries_sorted.
  - apply queryEntries_sorted.
  - unfold queryEntries. rewrite !merge_sort_Permutation.
    assert (map_to_list (<[k := v]> t) ≡ₚ (k, v) :: map_to_list (delete k t)) as Hnew.
    { rewrite <- (insert_delete_eq t k v). apply map_to_list_insert, lookup_delete_eq. }
    transitivity (List.filter (keyCondition pk skPrefix) ((k, v) :: map_to_list (delete k t))).
    { now apply filter_Permutation_bool. }
    simpl. rewrite Hk.
    destruct (t !! k) as [old|] eqn:Hold.
    + transitivity (List.filter (keyCondition pk skPrefix)
                      ((k, old) :: map_to_list (delete k t))).
      * simpl. now replace (keyCondition pk skPrefix (k, old)) with false.
      * apply filter_Permutation_bool. symmetry.
        rewrite <- (insert_delete_id t k old Hold) at 1.
        apply map_to_list_insert, lookup_delete_eq.
    + now rewrite (delete_id t k Hold).
Qed.

Lemma status_key_not_queried (pk fileId : string) (v : Item) :
  keyCondition pk "PAGE#" (documentStatusKeys fileId, v) = false.
Proof. unfold keyCondition. simpl. apply andb_false_r. Qed.

Lemma queryItems_insert_status (pk fileId : string) (t : Table) (v : Item) :
  queryItems pk "PAGE#" (<[documentStatusKeys fileId := v]> t) = queryItems pk "PAGE#" t.
Proof.
  rewrite !queryItems_entries.
  now rewrite queryEntries_insert_other by apply status_key_not_queried.
Qed.

(** ** The aggregator *)

Lemma statusItem_insert (t : Table) (fileId : string) (item : Item) :
  statusItem (<[documentStatusKeys fileId := item]> t) fileId = item.
Proof. unfold statusItem. now rewrite lookup_insert_eq. Qed.

(** C3.  When the query for the document's pages fetches fewer records
    than [totalPages], [aggregateResults] returns without an error, leaves
    the overall status at processing, uploads nothing and leaves the
    results bucket as it was; the commands it sends are the transition to
    aggregating, the query and the transition back to processing, so that
    no transition to completed is made. *)
Theorem aggregateResults_deferred (w : World) (fileId tenantId : string) (totalPages : Z) :
  Z.of_nat (length (fetchedPages w fileId)) < totalPages ->
  let w' := after (aggregateResults fileId tenantId totalPages) w in
  outcome (aggregateResults fileId tenantId totalPages) w = Ok tt
  /\ statusAttr w' fileId "overallStatus" = Some (AttrS "processing")
  /\ resultsBucket w' = resultsBucket w
  /\ uploads (trace w') = uploads (trace w)
  /\ sends (trace w')
     = statusCommand fileId (toISOString (clockMs (S (time w))))
         [("overallStatus", Some (AttrS "processing"))]
       :: QueryCommand ("DOC#" +:+ fileId) "PAGE#"
       :: statusCommand fileId (stamp w) [("overallStatus", Some (AttrS "aggregating"))]
       :: sends (trace w).
Proof.
  intros Hfew w'. subst w'.
  unfold outcome, after, aggregateResults, bind, tryCatch, logEvent.
  rewrite updateStatus_run. rewrite getDocumentPages_run.
  cbn [table addEvent]. rewrite queryItems_insert_status.
  fold (fetchedPages w fileId).
  destruct (Z.ltb_spec (Z.of_nat (length (fetchedPages w fileId))) totalPages) as [_|Hge];
    [|lia].
  rewrite updateStatus_run. unfold ret, statusAttr. cbn.
  repeat split.
  rewrite lookup_insert_eq. cbn. now rewrite lookup_insert_eq.
Qed.

Lemma checks_hasError (p : Item) : checks p -> hasError p = Ok (errorOf p).
Proof. intros [b Hb]. unfold errorOf. now rewrite Hb. Qed.

Lemma errorOf_payload (p : Item) : errorOf p = true -> payload p = true.
Proof.
  unfold errorOf, hasError, payload.
  destruct (pageAnalysisOf p) as [s|]; [|discriminate].
  destruct (truthyString s); [reflexivity|discriminate].
Qed.

Lemma checks_isSuccess (p : Item) :
  checks p -> isSuccess p = Ok (payload p && negb (errorOf p)).
Proof.
  intros [b Hb]. unfold errorOf. rewrite Hb. revert Hb.
  unfold hasError, isSuccess, payload.
  destruct (pageAnalysisOf p) as [s|]; [|now intros [= <-]].
  destruct (truthyString s); [|now intros [= <-]].
  destruct (JSON_parse s) as [v|e]; [|discriminate].
  destruct (dotError v) as [err|e]; [|discriminate].
  now intros [= <-].
Qed.

Lemma checks_toChunk (p : Item) : checks p -> toChunk p = Ok (chunkOf p).
Proof.
  intros [b Hb]. unfold toChunk, chunkOf, errorOf, parsedOf. rewrite Hb. revert Hb.
  unfold hasError.
  destruct (pageAnalysisOf p) as [s|]; [|reflexivity].
  destruct (truthyString s); [|reflexivity].
  destruct (JSON_parse s) as [v|e]; [reflexivity|discriminate].
Qed.

Lemma filterM_ok {A} (f : A -> Result bool) (g : A -> bool) (l : list A) :
  Forall (fun x => f x = Ok (g x)) l -> filterM f l = Ok (List.filter g l).
Proof.
  induction 1 as [|x l Hx _ IH]; simpl; [reflexivity|].
  rewrite Hx, IH. reflexivity.
Qed.

Lemma mapM_ok {A B} (f : A -> Result B) (g : A -> B) (l : list A) :
  Forall (fun x => f x = Ok (g x)) l -> mapM f l = Ok (List.map g l).
Proof.
  induction 1 as [|x l Hx _ IH]; simpl; [reflexivity|].
  rewrite Hx, IH. reflexivity.
Qed.

Lemma success_failed_count (l : list Item) :
  (length (List.filter (fun p => payload p && negb (errorOf p)) l)
   + length (List.filter errorOf l))%nat
  = length (List.filter payload l).
Proof.
  induction l as [|p l IH]; simpl; [reflexivity|].
  pose proof (errorOf_payload p) as Himp.
  destruct (errorOf p); simpl.
  - rewrite Himp by reflexivity. simpl. lia.
  - destruct (payload p); simpl; lia.
Qed.

Lemma filter_all {A} (f : A -> bool) (l : list A) :
  Forall (fun x => f x = true) l -> List.filter f l = l.
Proof. induction 1 as [|x l Hx _ IH]; simpl; [reflexivity|]. now rewrite Hx, IH. Qed.

Lemma aggregateResults_proceeds (w : World) (docId tenant : string) (total : Z) :
  total <= Z.of_nat (length (fetchedPages w docId)) ->
  Forall checks (fetchedPages w docId) ->
  let m := manifestOf docId tenant total (toISOString (clockMs (S (time w))))
             (fetchedPages w docId) in
  let w' := after (aggregateResults docId tenant total) w in
  outcome (aggregateResults docId tenant total) w = Ok tt
  /\ resultsBucket w' = <[resultsKey docId tenant := m]> (resultsBucket w)
  /\ uploads (trace w') = (resultsKey docId tenant, m) :: uploads (trace w)
  /\ statusAttr w' docId "overallStatus" = Some (AttrS "completed")
  /\ statusAttr w' docId "resultS3Key" = Some (AttrS (resultsKey docId tenant)).
Proof.
  intros Hall Hchecks m w'. subst m w'.
  unfold outcome, after, aggregateResults, bind, tryCatch, logEvent.
  rewrite updateStatus_run. rewrite getDocumentPages_run.
  cbn [table addEvent]. rewrite queryItems_insert_status.
  fold (fetchedPages w docId).
  destruct (Z.ltb_spec (Z.of_nat (length (fetchedPages w docId))) total) as [Hlt|_];
    [lia|].
  unfold newDateISO, liftResult.
  rewrite (filterM_ok isSuccess (fun p => payload p && negb (errorOf p))).
  2:{ eapply Forall_impl; [exact Hchecks|]. intros p Hp. now apply checks_isSuccess. }
  rewrite (filterM_ok hasError errorOf).
  2:{ eapply Forall_impl; [exact Hchecks|]. intros p Hp. now apply checks_hasError. }
  rewrite (mapM_ok toChunk chunkOf).
  2:{ eapply Forall_impl; [exact Hchecks|]. intros p Hp. now apply checks_toChunk. }
  unfold uploadResults, bind, newDateISO.
  rewrite updateDocumentStatus_run. unfold statusAttr, resultsKey, manifestOf. cbn.
  repeat split.
  - rewrite lookup_insert_eq. cbn.
    rewrite !lookup_insert_ne by discriminate. now rewrite lookup_insert_eq.
  - rewrite lookup_insert_eq. cbn. now rewrite lookup_insert_eq.
Qed.

(** ** Page order *)

Lemma pageSK_prefix (n : Z) : String.prefix "PAGE#" (pageSK n) = true.
Proof. unfold pageSK, documentPageKeys. simpl. now destruct (padStart _ _ _). Qed.

Lemma pagesWf_empty : pagesWf ∅.
Proof. intros k item Hk. now rewrite lookup_empty in Hk. Qed.

Lemma pagesWf_insert_status (t : Table) (docId : string) (item : Item) :
  pagesWf t -> pagesWf (<[documentStatusKeys docId := item]> t).
Proof.
  intros Hwf k it Hk Hpre.
  destruct (decide (documentStatusKeys docId = k)) as [<-|Hne].
  - discriminate Hpre.
  - rewrite lookup_insert_ne in Hk by assumption. eauto.
Qed.

Lemma pagesWf_savePage (w : World) docId tenant (n : Z) a c :
  0 <= n <= 9999 -> pagesWf (table w) ->
  pagesWf (table (after (savePageAttributes docId tenant n a c) w)).
Proof.
  intros Hn Hwf. unfold after. rewrite savePageAttributes_run. cbn [snd table].
  intros k it Hk Hpre.
  destruct (decide (documentPageKeys docId n = k)) as [<-|Hne].
  - rewrite lookup_insert_eq in Hk. injection Hk as <-.
    exists n. repeat split; try lia.
    unfold pageItem. cbn [marshall].
    rewrite !lookup_insert_ne by discriminate. now rewrite lookup_insert_eq.
  - rewrite lookup_insert_ne in Hk by assumption. eauto.
Qed.

Lemma table_after_increment (w : World) (docId : string) :
  table (after (incrementProcessedPages docId) w) = table w
  \/ exists item, table (after (incrementProcessedPages docId) w)
                  = <[documentStatusKeys docId := item]> (table w).
Proof.
  unfold after, incrementProcessedPages, bind, newDateISO, send. simpl.
  destruct (applyUpdate _ _); simpl; eauto.
Qed.

(** In whatever order the workers' calls reach the table, the page
    records stay well formed. *)
Lemma pagesWf_runSchedule (calls : list WorkerCall) :
  forall w : World,
    Forall pagesInRange calls -> pagesWf (table w) -> pagesWf (table (runSchedule calls w)).
Proof.
  unfold runSchedule.
  induction calls as [|c calls IH]; intros w Hrange Hwf; simpl; [assumption|].
  inversion Hrange as [|? ? Hc Hrest]; subst.
  apply IH; [assumption|].
  destruct c as [f|f t n a|f t st|f t n]; cbn [runCall pagesInRange] in *.
  - destruct (table_after_increment w f) as [-> | [item ->]]; [assumption|].
    now apply pagesWf_insert_status.
  - now apply pagesWf_savePage.
  - unfold after. rewrite updateStatus_run. now apply pagesWf_insert_status.
  - unfold after. rewrite updateTotalPages_run. now apply pagesWf_insert_status.
Qed.

Lemma queryEntries_NoDup (pk skPrefix : string) (t : Table) :
  NoDup (queryEntries pk skPrefix t).
Proof.
  unfold queryEntries. rewrite merge_sort_Permutation.
  apply NoDup_ListNoDup, List.NoDup_filter, NoDup_ListNoDup, NoDup_map_to_list.
Qed.

Lemma queryEntries_sk_unique (pk skPrefix : string) (t : Table) (x y : Key * Item) :
  x ∈ queryEntries pk skPrefix t -> y ∈ queryEntries pk skPrefix t ->
  x.1.2 = y.1.2 -> x = y.
Proof.
  rewrite !elem_of_queryEntries. intros (Hx & Hpx & _) (Hy & Hpy & _) Hsk.
  destruct x as [[px sx] vx], y as [[py sy] vy]. simpl in *. subst. congruence.
Qed.

Lemma sorted_entries_numbers (entries : list (Key * Item)) :
  StronglySorted skLe entries ->
  NoDup entries ->
  (forall x y, x ∈ entries -> y ∈ entries -> x.1.2 = y.1.2 -> x = y) ->
  (forall e, e ∈ entries ->
     exists n, 0 <= n <= 9999 /\ e.1.2 = pageSK n /\ e.2 !! "pageNumber" = Some (AttrN n)) ->
  StronglySorted Z.lt ((fun e => pageNumberOr0 e.2) <$> entries).
Proof.
  induction 1 as [|x l Hsorted IH Hall]; intros Hnodup Huniq Hnum; simpl; constructor.
  - apply IH.
    + now inversion Hnodup.
    + intros a b Ha Hb. apply Huniq; now right.
    + intros e He. apply Hnum. now right.
  - rewrite Forall_fmap. rewrite Forall_forall in Hall |- *.
    intros y Hy. simpl.
    destruct (Hnum x) as (nx & Hnx & Hskx & Hpx); [now left|].
    destruct (Hnum y) as (ny & Hny & Hsky & Hpy); [now right|].
    unfold pageNumberOr0, pageNumberOf. rewrite Hpx, Hpy. simpl.
    assert (nx <= ny) as Hle.
    { apply pageSK_leb_inv; try assumption. rewrite <- Hskx, <- Hsky. now apply Hall. }
    assert (nx <> ny) as Hne.
    { intros ->. assert (x = y) as -> by (apply Huniq; [now left|now right|congruence]).
      inversion Hnodup; contradiction. }
    lia.
Qed.

(** Under well-formed page records a page query answers in strictly
    increasing page-number order, and each answer carries its number. *)
Lemma queryItems_page_order (pk : string) (t : Table) :
  pagesWf t ->
  StronglySorted Z.lt (pageNumberOr0 <$> queryItems pk "PAGE#" t)
  /\ Forall (fun p => pageNumberOf p = Some (pageNumberOr0 p)) (queryItems pk "PAGE#" t).
Proof.
  intros Hwf. rewrite queryItems_entries.
  assert (forall e, e ∈ queryEntries pk "PAGE#" t ->
            exists n, 0 <= n <= 9999 /\ e.1.2 = pageSK n
                      /\ e.2 !! "pageNumber" = Some (AttrN n)) as Hnum.
  { intros e He. apply elem_of_queryEntries in He as (He & _ & Hpre). eauto. }
  split.
  - rewrite <- list_fmap_compose.
    apply sorted_entries_numbers; auto using queryEntries_sorted, queryEntries_NoDup.
    intros x y. apply queryEntries_sk_unique.
  - rewrite Forall_fmap, Forall_forall. intros e He. simpl.
    destruct (Hnum e He) as (n & _ & _ & Hn).
    unfold pageNumberOr0, pageNumberOf. now rewrite Hn.
Qed.

(** C7, as the code has it.  When the query fetches at least [total] page
    records and no payload check throws, [aggregateResults] returns, puts
    under the tenant and document scoped key a manifest holding the
    document id, the tenant id, the clock reading taken after the query
    and [total]; its success and failure counts count the fetched pages
    whose payload is free of an error marker and those whose payload
    carries one, and together they count the fetched pages that have a
    payload, which is [total] when exactly [total] pages were fetched and
    each has one; it has one entry per fetched page with the page number,
    the parsed payload and the tag; and when every page record sits under
    the key of its own page number of at most four digits, the entries are
    in strictly increasing page-number order. *)
Theorem aggregateResults_manifest (w : World) (docId tenant : string) (total : Z) :
  total <= Z.of_nat (length (fetchedPages w docId)) ->
  Forall checks (fetchedPages w docId) ->
  let pages := fetchedPages w docId in
  let w' := after (aggregateResults docId tenant total) w in
  exists m : Manifest,
    outcome (aggregateResults docId tenant total) w = Ok tt
    /\ resultsBucket w' !! resultsKey docId tenant = Some m
    /\ uploads (trace w') = (resultsKey docId tenant, m) :: uploads (trace w)
    /\ fileId m = docId
    /\ tenantId m = tenant
    /\ processedAt m = toISOString (clockMs (S (time w)))
    /\ totalPages m = total
    /\ successCount m
       = Z.of_nat (length (List.filter (fun p => payload p && negb (errorOf p)) pages))
    /\ failedCount m = Z.of_nat (length (List.filter errorOf pages))
    /\ successCount m + failedCount m = Z.of_nat (length (List.filter payload pages))
    /\ (Forall (fun p => payload p = true) pages -> Z.of_nat (length pages) = total ->
        successCount m + failedCount m = total)
    /\ chunks m = List.map chunkOf pages
    /\ (pagesWf (table w) ->
        exists numbers : list Z,
          pageNumber <$> chunks m = Some <$> numbers /\ StronglySorted Z.lt numbers).
Proof.
  intros Hall Hchecks pages w'.
  destruct (aggregateResults_proceeds w docId tenant total Hall Hchecks)
    as (Hok & Hbucket & Huploads & _).
  fold w' in Hbucket, Huploads.
  eexists. split; [exact Hok|].
  split; [rewrite Hbucket; apply lookup_insert_eq|].
  split; [exact Huploads|].
  cbn [fileId tenantId processedAt totalPages successCount failedCount chunks manifestOf].
  fold pages.
  assert (Z.of_nat (length (List.filter (fun p => payload p && negb (errorOf p)) pages))
          + Z.of_nat (length (List.filter errorOf pages))
          = Z.of_nat (length (List.filter payload pages))) as Hsum.
  { rewrite <- Nat2Z.inj_add. f_equal. apply success_failed_count. }
  repeat (split; [reflexivity|]).
  split; [exact Hsum|].
  split; [|split; [reflexivity|]].
  - intros Hpayload Hlen. rewrite Hsum, filter_all by assumption. exact Hlen.
  - intros Hwf. exists (pageNumberOr0 <$> pages).
    destruct (queryItems_page_order ("DOC#" +:+ docId) (table w) Hwf) as [Hsorted Hnums].
    split; [|exact Hsorted].
    fold (fetchedPages w docId) in Hnums. fold pages in Hnums.
    clear -Hnums. induction Hnums as [|p l Hp _ IH]; simpl; [reflexivity|].
    f_equal; [exact Hp|exact IH].
Qed.

(** C10.  For page numbers [m < n] of at most four digits the keys of the
    two page records differ and their sort keys compare, as byte strings,
    the way the numbers do, so that a page query, which answers in
    sort-key order, answers in increasing page-number order; beyond four
    digits the agreement is lost: the key of page 10000 sorts before the
    key of page 9999. *)
Theorem documentPageKeys_order (docId : string) (m n : Z) :
  0 <= m -> m < n -> n <= 9999 ->
  documentPageKeys docId m <> documentPageKeys docId n
  /\ String.ltb (documentPageKeys docId m).2 (documentPageKeys docId n).2 = true
  /\ String.leb (documentPageKeys docId n).2 (documentPageKeys docId m).2 = false
  /\ (forall t : Table,
        pagesWf t ->
        StronglySorted Z.lt (pageNumberOr0 <$> queryItems ("DOC#" +:+ docId) "PAGE#" t))
  /\ String.ltb (documentPageKeys docId 10000).2 (documentPageKeys docId 9999).2 = true.
Proof.
  intros Hm Hlt Hn. rewrite !documentPageKeys_SK.
  pose proof (pageSK_lt m n Hm Hlt Hn) as Hkeys.
  split; [|split; [exact Hkeys|split; [now apply string_ltb_not_leb|split]]].
  - intros Heq. apply (f_equal snd) in Heq. rewrite !documentPageKeys_SK in Heq.
    rewrite Heq, string_ltb_irrefl in Hkeys. discriminate.
  - intros t Hwf. now apply queryItems_page_order.
  - vm_compute. reflexivity.
Qed.

(** ** What a computation leaves alone *)

Section Preserves.
Context {X : Type} (obs : World -> X).

Lemma preserves_ret {A} (a : A) : preserves obs (ret a).
Proof. intros w. reflexivity. Qed.

Lemma preserves_throw {A} (e : JsError) : preserves obs (@throw A e).
Proof. intros w. reflexivity. Qed.

Lemma preserves_liftResult {A} (r : Result A) : preserves obs (liftResult r).
Proof. intros w. reflexivity. Qed.

Lemma preserves_bind {A B} (m : M A) (k : A -> M B) :
  preserves obs m -> (forall a, preserves obs (k a)) -> preserves obs (bind m k).
Proof.
  intros Hm Hk w. specialize (Hm w). unfold after, bind in *.
  destruct (m w) as [[a|e] w1]; simpl in *; [|assumption].
  rewrite <- Hm. apply Hk.
Qed.

Lemma preserves_tryCatch {A} (body : M A) (handler : JsError -> M A) :
  preserves obs body -> (forall e, preserves obs (handler e)) ->
  preserves obs (tryCatch body handler).
Proof.
  intros Hm Hk w. specialize (Hm w). unfold after, tryCatch in *.
  destruct (body w) as [[a|e] w1]; simpl in *; [assumption|].
  rewrite <- Hm. apply Hk.
Qed.

Lemma preserves_forEach {A} (l : list A) (f : A -> M unit) :
  (forall x, preserves obs (f x)) -> preserves obs (forEach l f).
Proof.
  intros Hf. induction l as [|x l IH]; simpl.
  - apply preserves_ret.
  - apply preserves_bind; auto.
Qed.

End Preserves.

Lemma send_invoked (c : Command) : preserves invoked (send c).
Proof. intros w. unfold after, send. now destruct (exec c (table w)). Qed.

Lemma newDateISO_invoked : preserves invoked newDateISO.
Proof. intros w. reflexivity. Qed.

Lemma updateDocumentStatus_invoked docId updates :
  preserves invoked (updateDocumentStatus docId updates).
Proof. intros w. unfold after. now rewrite updateDocumentStatus_run. Qed.

Lemma uploadResults_invoked docId tenant m : preserves invoked (uploadResults docId tenant m).
Proof. intros w. reflexivity. Qed.

Lemma aggregateResults_invoked (docId tenant : string) (total : Z) (w : World) :
  invoked (after (aggregateResults docId tenant total) w)
  = (docId, tenant, total) :: invoked w.
Proof.
  unfold aggregateResults.
  assert (forall m : M unit, preserves invoked m ->
            invoked (after (logEvent (EvAggregate docId tenant total);; m) w)
            = (docId, tenant, total) :: invoked w) as Hlog.
  { intros m Hm. unfold after, bind, logEvent.
    exact (Hm (addEvent (EvAggregate docId tenant total) w)). }
  apply Hlog.
  apply preserves_tryCatch.
  - apply preserves_bind; [apply updateDocumentStatus_invoked|intros _].
    apply preserves_bind.
    { unfold getDocumentPages. apply preserves_bind; [apply send_invoked|].
      intros out. apply preserves_ret. }
    intros pages. destruct (Z.of_nat (length pages) <? total).
    + apply preserves_bind; [apply updateDocumentStatus_invoked|intros _; apply preserves_ret].
    + apply preserves_bind; [apply newDateISO_invoked|intros at_].
      apply preserves_bind; [apply preserves_liftResult|intros succeeded].
      apply preserves_bind; [apply preserves_liftResult|intros failedPages].
      apply preserves_bind; [apply preserves_liftResult|intros cs].
      apply preserves_bind; [apply uploadResults_invoked|intros _].
      apply preserves_bind; [apply newDateISO_invoked|intros completedAt].
      apply updateDocumentStatus_invoked.
  - intros e. apply preserves_bind; [apply updateDocumentStatus_invoked|intros _].
    apply preserves_throw.
Qed.

(** ** The completion watcher *)

Lemma eligible_total (image : Item) :
  eligible image = true ->
  exists n, image !! "totalPages" = Some (AttrN n)
            /\ image !! "processedPages" = Some (AttrN n) /\ 0 < n.
Proof.
  unfold eligible. rewrite !andb_true_iff. intros [[_ Hnum] _].
  destruct (image !! "processedPages") as [[|p|]|]; try discriminate.
  destruct (image !! "totalPages") as [[|t|]|]; try discriminate.
  apply andb_true_iff in Hnum as [Heq Hpos].
  apply Z.eqb_eq in Heq. apply Z.ltb_lt in Hpos. subst. eauto.
Qed.

Lemma eligible_zero (image : Item) :
  image !! "totalPages" = Some (AttrN 0) -> eligible image = false.
Proof.
  intros Hzero. destruct (eligible image) eqn:He; [|reflexivity].
  apply eligible_total in He as (n & Hn & _ & Hpos). rewrite Hzero in Hn.
  injection Hn as <-. lia.
Qed.

(** The scan filter of the poll path is the completion condition. *)
Lemma readyFilter_eligible (item : Item) : evalFilter readyFilter item = eligible item.
Proof.
  unfold evalFilter, readyFilter, eligible, evalCondition, forallb, gtValue.
  destruct (item !! "SK") as [sk|]; [|reflexivity].
  destruct (bool_decide_reflect (sk = AttrS "STATUS")) as [->|Hsk].
  2:{ rewrite bool_decide_eq_false_2 by congruence. reflexivity. }
  rewrite bool_decide_eq_true_2 by reflexivity. cbn [andb].
  destruct (item !! "overallStatus") as [st|].
  2:{ rewrite andb_false_r. reflexivity. }
  destruct (bool_decide_reflect (st = AttrS "processing")) as [->|Hst].
  2:{ rewrite (bool_decide_eq_false_2 (Some st = _)) by congruence.
      rewrite andb_false_r. reflexivity. }
  rewrite (bool_decide_eq_true_2 (Some _ = _)) by reflexivity. cbn [andb].
  rewrite !andb_true_r.
  destruct (item !! "processedPages") as [p|]; [|reflexivity].
  destruct (item !! "totalPages") as [t|]; [|now destruct p].
  destruct (bool_decide_reflect (p = t)) as [->|Hpt].
  - destruct t as [|t|]; try reflexivity. now rewrite Z.eqb_refl.
  - destruct p as [|p|], t as [|t|]; try reflexivity.
    cbn [andb]. destruct (Z.eqb_spec p t); [congruence|reflexivity].
Qed.

Lemma elem_of_scanItems (t : Table) (item : Item) :
  item ∈ scanItems readyFilter t
  <-> (exists k, t !! k = Some item) /\ eligible item = true.
Proof.
  unfold scanItems. rewrite elem_of_filter_bool, readyFilter_eligible.
  rewrite list_elem_of_fmap. split.
  - intros [([k v] & -> & Hin) He]. apply elem_of_map_to_list in Hin. eauto.
  - intros [[k Hk] He]. split; [|assumption].
    exists (k, item). split; [reflexivity|]. now apply elem_of_map_to_list.
Qed.

Lemma dotS_lookup (image : Item) (attr : string) :
  dotS attr image
  = match image !! attr with
    | None => Throw (TypeError "Cannot read properties of undefined (reading 'S')")
    | Some v => Ok (match v with AttrS s => Some s | _ => None end)
    end.
Proof. unfold dotS. now destruct (image !! attr) as [[]|]. Qed.

Lemma dotN_lookup (image : Item) (attr : string) :
  dotN attr image
  = match image !! attr with
    | None => Throw (TypeError "Cannot read properties of undefined (reading 'N')")
    | Some v => Ok (match v with AttrN n => Some n | _ => None end)
    end.
Proof. unfold dotN. now destruct (image !! attr) as [[]|]. Qed.

Lemma jsString_text (image : Item) (attr : string) (v : AttributeValue) :
  image !! attr = Some v ->
  jsString (match v with AttrS s => Some s | _ => None end) = imageText image attr.
Proof. intros Hv. unfold imageText. rewrite Hv. now destruct v. Qed.

Lemma status_text_decide (v : AttributeValue) (s : string) :
  bool_decide (match v with AttrS x => Some x | _ => None end = Some s)
  = bool_decide (Some v = Some (AttrS s)).
Proof.
  destruct v as [x| |]; try reflexivity.
  destruct (decide (x = s)) as [->|Hne].
  - now rewrite !bool_decide_eq_true_2.
  - rewrite !bool_decide_eq_false_2; [reflexivity| |]; congruence.
Qed.

Lemma handleRecord_invoked (record : StreamRecord) (w : World) :
  invoked (after (handleRecord record) w)
  = match triggered record with
    | Some call => call :: invoked w
    | None => invoked w
    end.
Proof.
  unfold handleRecord, triggered.
  destruct (eventName record); cbn [negb bool_decide decide_rel]; try reflexivity.
  destruct (NewImage record) as [image|]; [|reflexivity].
  destruct (OldImage record) as [old|]; [|reflexivity].
  unfold eligible, bind, liftResult, after.
  rewrite !dotS_lookup, !dotN_lookup.
  destruct (image !! "SK") as [sk|] eqn:Hsk.
  2:{ now destruct (image !! "fileId"), (image !! "tenantId"), (image !! "totalPages") as [[]|]. }
  rewrite status_text_decide.
  destruct (bool_decide (Some sk = Some (AttrS "STATUS"))); cbn [negb andb].
  2:{ now destruct (image !! "fileId"), (image !! "tenantId"), (image !! "totalPages") as [[]|]. }
  destruct (image !! "fileId") as [f|] eqn:Hf; [|reflexivity].
  destruct (image !! "tenantId") as [t|] eqn:Ht; [|reflexivity].
  destruct (image !! "totalPages") as [total|] eqn:Htotal; [|reflexivity].
  destruct (image !! "processedPages") as [processed|] eqn:Hprocessed.
  2:{ now destruct total. }
  destruct (image !! "overallStatus") as [st|] eqn:Hst.
  2:{ destruct total, processed; cbn; rewrite ?andb_false_r; reflexivity. }
  rewrite status_text_decide, (jsString_text image "fileId" f Hf),
    (jsString_text image "tenantId" t Ht).
  destruct processed as [|processed|], total as [|total|]; try reflexivity.
  destruct ((processed =? total) && (0 <? total)
            && bool_decide (Some st = Some (AttrS "processing"))); [|reflexivity].
  apply (aggregateResults_invoked _ _ _ w).
Qed.

Lemma triggered_spec (record : StreamRecord) (call : string * string * Z) :
  triggered record = Some call
  <-> eventName record = MODIFY
      /\ is_Some (OldImage record)
      /\ exists image,
           NewImage record = Some image
           /\ eligible image = true
           /\ is_Some (image !! "fileId")
           /\ is_Some (image !! "tenantId")
           /\ call = (imageText image "fileId", imageText image "tenantId",
                      fieldNumber image "totalPages").
Proof.
  unfold triggered, fieldNumber. split.
  - destruct (eventName record); try discriminate.
    destruct (NewImage record) as [image|]; [|discriminate].
    destruct (OldImage record) as [old|]; [|discriminate].
    destruct (image !! "fileId") as [f|] eqn:Hf; [|discriminate].
    destruct (image !! "tenantId") as [t|] eqn:Ht; [|discriminate].
    destruct (image !! "totalPages") as [[|total|]|] eqn:Htotal; try discriminate.
    destruct (eligible image) eqn:He; [|discriminate].
    intros [= <-]. split; [reflexivity|]. split; [eauto|].
    exists image. rewrite Hf, Ht, Htotal. eauto 10.
  - intros (-> & [old ->] & image & -> & He & [f Hf] & [t Ht] & ->).
    destruct (eligible_total image He) as (n & Hn & _).
    now rewrite Hf, Ht, Hn, He.
Qed.

Lemma poll_body_run (doc : Item) (w : World) :
  outcome (tryCatch
             (aggregateResults (fieldText doc "fileId") (fieldText doc "tenantId")
                (fieldNumber doc "totalPages"))
             (fun _ => ret tt)) w = Ok tt
  /\ invoked (after (tryCatch
                       (aggregateResults (fieldText doc "fileId") (fieldText doc "tenantId")
                          (fieldNumber doc "totalPages"))
                       (fun _ => ret tt)) w)
     = callOf doc :: invoked w.
Proof.
  pose proof (aggregateResults_invoked (fieldText doc "fileId") (fieldText doc "tenantId")
                (fieldNumber doc "totalPages") w) as Hinv.
  unfold outcome, after, tryCatch in *.
  destruct (aggregateResults _ _ _ w) as [[[]|e] w1]; simpl in *; auto.
Qed.

Lemma poll_loop_invoked (docs : list Item) :
  forall w : World,
    invoked (after (forEach docs (fun doc =>
               tryCatch
                 (aggregateResults (fieldText doc "fileId") (fieldText doc "tenantId")
                    (fieldNumber doc "totalPages"))
                 (fun _ => ret tt))) w)
    = (rev (callOf <$> docs) ++ invoked w)%list.
Proof.
  induction docs as [|doc docs IH]; intros w; [reflexivity|].
  destruct (poll_body_run doc w) as [Hok Hinv].
  cbn [forEach]. unfold after, bind, outcome in *.
  destruct (tryCatch _ _ w) as [[[]|e] w1]; [|discriminate].
  cbn [fst snd] in *. rewrite (IH w1), Hinv. cbn [fmap list_fmap rev].
  now rewrite <- app_assoc.
Qed.

Lemma checkForCompletedDocuments_invoked (w : World) :
  invoked (after checkForCompletedDocuments w)
  = (rev (callOf <$> scanItems readyFilter (table w)) ++ invoked w)%list.
Proof.
  unfold checkForCompletedDocuments, after, bind. rewrite getReadyForAggregation_run.
  pose proof (poll_loop_invoked (scanItems readyFilter (table w))
                (addEvent (EvSend (ScanCommand readyFilter)) w)) as Hloop.
  unfold after in Hloop.
  destruct (scanItems readyFilter (table w)) as [|doc docs]; [reflexivity|].
  exact Hloop.
Qed.

(** A batch the handler gets through without an exception triggers the
    aggregator for exactly its triggering records, in order. *)
Lemma handler_invoked (event : list StreamRecord) :
  forall w : World,
    outcome (handler event) w = Ok tt ->
    invoked (after (handler event) w) = (rev (omap triggered event) ++ invoked w)%list.
Proof.
  unfold handler. induction event as [|record event IH]; intros w Hok; [reflexivity|].
  cbn [forEach] in *. pose proof (handleRecord_invoked record w) as Hrecord.
  unfold outcome, after, bind in *.
  destruct (handleRecord record w) as [[[]|e] w1]; [|discriminate].
  cbn [fst snd] in *. rewrite (IH w1 Hok), Hrecord. cbn [omap list_omap].
  destruct (triggered record) as [call|]; [|reflexivity].
  cbn [rev]. now rewrite <- app_assoc.
Qed.

(** C2, as the code has it.  Push path: for a change-feed record its loop
    reaches, the handler invokes the aggregator with (docId, tenantId,
    total) exactly when the record is a MODIFY carrying both images whose
    new image is a STATUS record with processed count equal to total
    count, total positive and overall status processing, and which carries
    the document and tenant attributes; no record makes it invoke the
    aggregator more than once, and a batch handled without an exception
    triggers the aggregator for exactly its triggering records.  Poll
    path: the scan returns exactly the stored records
    that meet the same four conditions, and the poller invokes the
    aggregator once for each of them with its document id, tenant id and
    total. *)
Theorem completion_watcher (w : World) (record : StreamRecord)
    (docId tenant : string) (total : Z) :
  (invoked (after (handleRecord record) w) = (docId, tenant, total) :: invoked w
   <-> eventName record = MODIFY
       /\ is_Some (OldImage record)
       /\ exists image,
            NewImage record = Some image
            /\ eligible image = true
            /\ is_Some (image !! "fileId")
            /\ is_Some (image !! "tenantId")
            /\ (docId, tenant, total)
               = (imageText image "fileId", imageText image "tenantId",
                  fieldNumber image "totalPages"))
  /\ (invoked (after (handleRecord record) w) = invoked w
      \/ exists call, invoked (after (handleRecord record) w) = call :: invoked w)
  /\ (forall event : list StreamRecord,
        outcome (handler event) w = Ok tt ->
        invoked (after (handler event) w) = (rev (omap triggered event) ++ invoked w)%list)
  /\ (forall item : Item,
        item ∈ scanItems readyFilter (table w)
        <-> (exists k, table w !! k = Some item) /\ eligible item = true)
  /\ invoked (after checkForCompletedDocuments w)
     = (rev (callOf <$> scanItems readyFilter (table w)) ++ invoked w)%list.
Proof.
  rewrite handleRecord_invoked, <- triggered_spec.
  split; [|split; [|split; [|split]]].
  - destruct (triggered record) as [call|]; split.
    + now intros [= ->].
    + now intros [= ->].
    + intros Heq. apply (f_equal length) in Heq. simpl in Heq. lia.
    + discriminate.
  - destruct (triggered record); eauto.
  - intros event. apply handler_invoked.
  - intros item. apply elem_of_scanItems.
  - apply checkForCompletedDocuments_invoked.
Qed.

(** ** Texts that contain a text *)

Lemma substring_prefix (s1 : string) :
  forall s2, substring 0 (String.length s1) s2 = s1 -> exists post, s2 = s1 +:+ post.
Proof.
  induction s1 as [|a s1 IH]; intros s2 Hsub; [now exists s2|].
  destruct s2 as [|b s2]; [discriminate|]. cbn in Hsub.
  injection Hsub as -> Hsub. destruct (IH s2 Hsub) as [post ->]. now exists post.
Qed.

Lemma substring_split (m : nat) (s1 : string) :
  forall s2,
    substring m (String.length s1) s2 = s1 -> exists pre post, s2 = pre +:+ s1 +:+ post.
Proof.
  induction m as [|m IH]; intros s2 Hsub.
  - destruct (substring_prefix s1 s2 Hsub) as [post ->]. now exists EmptyString, post.
  - destruct s2 as [|b s2].
    + exists EmptyString, EmptyString. destruct s1; [reflexivity|discriminate].
    + cbn in Hsub. destruct (IH s2 Hsub) as (pre & post & ->).
      now exists (String b pre), post.
Qed.

Lemma substring_start (s1 post : string) :
  substring 0 (String.length s1) (s1 +:+ post) = s1.
Proof.
  induction s1 as [|b s1 IH]; simpl; [now destruct post|]. now rewrite IH.
Qed.

Lemma substring_middle (pre s1 post : string) :
  substring (String.length pre) (String.length s1) (pre +:+ s1 +:+ post) = s1.
Proof.
  induction pre as [|a pre IH]; [exact (substring_start s1 post)|exact IH].
Qed.

(** [s.includes(needle)] holds exactly of the texts that have [needle]
    somewhere in them. *)
Lemma includes_spec (needle s : string) :
  includes needle s = true <-> exists pre post, s = pre +:+ needle +:+ post.
Proof.
  unfold includes. split.
  - destruct (index 0 needle s) as [m|] eqn:Hindex; [|discriminate]. intros _.
    apply index_correct1 in Hindex. now apply substring_split in Hindex.
  - intros (pre & post & ->).
    destruct (index 0 needle (pre +:+ needle +:+ post)) as [m|] eqn:Hindex; [reflexivity|].
    destruct needle as [|a needle].
    + apply index_correct4 in Hindex. lia.
    + exfalso. apply (index_correct3 _ (String.length pre) _ _ Hindex); [discriminate|lia|].
      apply substring_middle.
Qed.

(** ** The analysis client *)

Lemma analyzeChunk_step (text : string) (retries : nat) (delay : Z) (w : World) :
  analyzeChunk text retries delay w
  = match attemptResult (genCalls w) text with
    | Ok j => (Ok j, called text w)
    | Throw e =>
        match retries with
        | S retries' =>
            if isRateLimit e
            then analyzeChunk text retries' (delay * 2) (addEvent (EvSleep delay) (called text w))
            else (Throw e, called text w)
        | O => (Throw e, called text w)
        end
    end.
Proof.
  destruct retries as [|retries']; simpl;
    unfold tryCatch, bind, callModel, liftResult, attemptResult, called, sleep, logEvent, throw;
    (destruct (generateContent (genCalls w) text) as [responseText|e];
     [destruct (jsonMatch responseText) as [jsonText|];
      [destruct (JSON_parse jsonText) as [j|e]|destruct (JSON_parse responseText) as [j|e]]|]);
    try reflexivity; destruct (isRateLimit e); reflexivity.
Qed.

Lemma analyzeChunk_storeView (text : string) (retries : nat) :
  forall (delay : Z), preserves storeView (analyzeChunk text retries delay).
Proof.
  induction retries as [|retries' IH]; intros delay w; unfold after;
    rewrite analyzeChunk_step; destruct (attemptResult (genCalls w) text) as [j|e];
    try reflexivity.
  destruct (isRateLimit e); [|reflexivity].
  exact (IH (delay * 2) (addEvent (EvSleep delay) (called text w))).
Qed.

Lemma analyzeChunk_calls (text : string) (retries : nat) :
  forall (delay : Z) (w : World),
    (genCalls w < genCalls (after (analyzeChunk text retries delay) w))%nat.
Proof.
  induction retries as [|retries' IH]; intros delay w; unfold after;
    rewrite analyzeChunk_step; destruct (attemptResult (genCalls w) text) as [j|e];
    simpl; try lia.
  destruct (isRateLimit e); simpl; [|lia].
  pose proof (IH (delay * 2) (addEvent (EvSleep delay) (called text w))) as Hlt.
  unfold after in Hlt. simpl in Hlt. lia.
Qed.

(** After [k] rate-limited attempts within the budget, followed by an
    attempt that ends otherwise or by the end of the budget, the outcome is
    that of attempt [k], [k + 1] calls were made and the delays slept are
    [delay], [2 * delay], ... *)
Lemma analyzeChunk_backoff (text : string) (k : nat) :
  forall (retries : nat) (delay : Z) (w : World),
    (k <= retries)%nat ->
    (forall i, (i < k)%nat -> rateLimited (genCalls w + i) text = true) ->
    k = retries \/ rateLimited (genCalls w + k) text = false ->
    outcome (analyzeChunk text retries delay) w = attemptResult (genCalls w + k) text
    /\ genCalls (after (analyzeChunk text retries delay) w) = (genCalls w + k + 1)%nat
    /\ sleepsOf (trace (after (analyzeChunk text retries delay) w))
       = (backoff delay k ++ sleepsOf (trace w))%list.
Proof.
  induction k as [|k IH]; intros retries delay w Hk Hlimited Hlast;
    unfold outcome, after; rewrite analyzeChunk_step.
  - rewrite Nat.add_0_r in *. unfold rateLimited in Hlast.
    destruct (attemptResult (genCalls w) text) as [j|e]; simpl.
    + repeat split; lia.
    + destruct retries as [|retries']; simpl; [repeat split; lia|].
      destruct Hlast as [Hlast|Hlast]; [discriminate|]. rewrite Hlast. simpl.
      repeat split; lia.
  - pose proof (Hlimited O ltac:(lia)) as Hfirst. rewrite Nat.add_0_r in Hfirst.
    unfold rateLimited in Hfirst.
    destruct (attemptResult (genCalls w) text) as [j|e]; [discriminate|].
    destruct retries as [|retries']; [lia|]. rewrite Hfirst.
    destruct (IH retries' (delay * 2) (addEvent (EvSleep delay) (called text w)))
      as (Hout & Hcalls & Hsleeps).
    + lia.
    + intros i Hi. cbn [genCalls addEvent called countCall].
      replace (S (genCalls w) + i)%nat with (genCalls w + S i)%nat by lia.
      apply Hlimited. lia.
    + cbn [genCalls addEvent called countCall].
      replace (S (genCalls w) + k)%nat with (genCalls w + S k)%nat by lia.
      destruct Hlast as [Hlast|Hlast]; [left; lia|now right].
    + unfold outcome, after in *.
      cbn [genCalls addEvent called countCall trace sleepsOf] in *.
      replace (S (genCalls w) + k)%nat with (genCalls w + S k)%nat in * by lia.
      rewrite Hout, Hcalls, Hsleeps. repeat split; try lia.
      cbn [backoff]. now rewrite <- app_assoc.
Qed.

(** ** The page worker *)

Lemma incrementProcessedPages_cases (docId : string) (w : World) :
  incrementProcessedPages docId w
  = match counterOf (statusItem (table w) docId) with
    | Some p =>
        (Ok JsUndefined,
         {| table := <[documentStatusKeys docId :=
                         <["updatedAt" := AttrS (stamp w)]>
                           (<["processedPages" := AttrN (p + 1)]>
                              (statusItem (table w) docId))]> (table w);
            resultsBucket := resultsBucket w;
            trace := EvSend (incrementCommand docId (stamp w)) :: trace w;
            time := S (time w);
            genCalls := genCalls w |})
    | None =>
        (Throw (ValidationException
                  "An operand in the update expression has an incorrect data type"),
         {| table := table w;
            resultsBucket := resultsBucket w;
            trace := EvSend (incrementCommand docId (stamp w)) :: trace w;
            time := S (time w);
            genCalls := genCalls w |})
    end.
Proof.
  destruct (counterOf (statusItem (table w) docId)) as [p|] eqn:Hp.
  - now apply incrementProcessedPages_run.
  - unfold incrementProcessedPages, bind, newDateISO, send, incrementCommand.
    simpl. unfold applyUpdate, statusItem, counterOf in *. simpl.
    destruct (default _ _ !! "processedPages") as [[| |]|]; simplify_eq/=; reflexivity.
Qed.

Lemma statusItem_insert_page (t : Table) (docId f : string) (n : Z) (item : Item) :
  statusItem (<[documentPageKeys f n := item]> t) docId = statusItem t docId.
Proof.
  unfold statusItem. rewrite lookup_insert_ne; [reflexivity|]. apply page_key_not_status.
Qed.

Lemma counterOf_incremented (item : Item) (at_ : string) (p : Z) :
  counterOf (<["updatedAt" := AttrS at_]> (<["processedPages" := AttrN (p + 1)]> item))
  = Some (p + 1).
Proof.
  unfold counterOf. rewrite lookup_insert_ne by discriminate. now rewrite lookup_insert_eq.
Qed.

Lemma pageItem_time docId tenant n a c (w1 w2 : World) :
  time w1 = time w2 -> pageItem docId tenant n a c w1 = pageItem docId tenant n a c w2.
Proof. intros Htime. unfold pageItem. now rewrite Htime. Qed.

Lemma processPage_spec (docId tenant : string) (i : nat) (chunk : string) (w : World) :
  let item := pageRecord docId tenant i chunk w in
  let w' := after (processPage docId tenant i chunk) w in
  (exists at_, sends (trace w')
               = incrementCommand docId at_ :: PutCommand item :: sends (trace w))
  /\ uploads (trace w') = uploads (trace w)
  /\ resultsBucket w' = resultsBucket w
  /\ table w' !! documentPageKeys docId (Z.of_nat i + 1) = Some item
  /\ (forall p, counterOf (statusItem (table w) docId) = Some p ->
        outcome (processPage docId tenant i chunk) w = Ok tt
        /\ counterOf (statusItem (table w') docId) = Some (p + 1)).
Proof.
  intros item w'. subst item w'.
  unfold pageRecord, pageText.
  pose proof (analyzeChunk_storeView chunk 3 2000 w) as Hview.
  unfold processPage, analyzeChunkDefault, outcome, after, storeView in *.
  unfold tryCatchFinally, tryCatch, bind, sleep, logEvent, ret.
  destruct (analyzeChunk chunk 3 2000 w) as [[analysis|e] w1]; cbn [fst snd] in *;
    injection Hview as Htable Hbucket Htime Hsends Huploads.
  - rewrite savePageAttributes_run, incrementProcessedPages_cases.
    cbn [table]. rewrite statusItem_insert_page, Htable.
    rewrite (pageItem_time _ _ _ _ _ w1 w Htime).
    destruct (counterOf (statusItem (table w) docId)) as [p|] eqn:Hp;
      cbn [fst snd table trace resultsBucket sends uploads addEvent];
      rewrite ?Hsends, ?Huploads, ?Hbucket.
    + split; [eexists; reflexivity|]. do 2 (split; [reflexivity|]). split.
      * rewrite lookup_insert_ne by (apply not_eq_sym, page_key_not_status).
        now rewrite lookup_insert_eq.
      * intros q [= <-]. split; [reflexivity|].
        rewrite statusItem_insert. apply counterOf_incremented.
    + split; [eexists; reflexivity|]. do 2 (split; [reflexivity|]). split.
      * now rewrite lookup_insert_eq.
      * discriminate.
  - unfold newDateISO. rewrite savePageAttributes_run, incrementProcessedPages_cases.
    cbn [table tick time]. rewrite statusItem_insert_page, Htable.
    rewrite (pageItem_time _ _ _ _ _ (tick w1) (tick w)) by (cbn; now rewrite Htime).
    unfold stamp at 1. rewrite Htime. fold (stamp w).
    destruct (counterOf (statusItem (table w) docId)) as [p|] eqn:Hp;
      cbn [fst snd table trace resultsBucket sends uploads addEvent tick];
      rewrite ?Hsends, ?Huploads, ?Hbucket.
    + split; [eexists; reflexivity|]. do 2 (split; [reflexivity|]). split.
      * rewrite lookup_insert_ne by (apply not_eq_sym, page_key_not_status).
        now rewrite lookup_insert_eq.
      * intros q [= <-]. split; [reflexivity|].
        rewrite statusItem_insert. apply counterOf_incremented.
    + split; [eexists; reflexivity|]. do 2 (split; [reflexivity|]). split.
      * now rewrite lookup_insert_eq.
      * discriminate.
Qed.

Lemma isIncrement_incrementCommand (docId at_ : string) :
  isIncrement docId (incrementCommand docId at_) = true.
Proof. unfold isIncrement, incrementCommand. now rewrite bool_decide_eq_true_2. Qed.

(** The page loop never throws while the counter is a number: it sends
    one page write and one increment per chunk and advances the counter
    by the number of chunks. *)
Lemma pageLoop_spec (docId tenant : string) (chunks : list string) :
  forall (i : nat) (w : World) (p : Z),
    counterOf (statusItem (table w) docId) = Some p ->
    let w' := after (pageLoop docId tenant i chunks) w in
    outcome (pageLoop docId tenant i chunks) w = Ok tt
    /\ sent isPut w' = (sent isPut w + length chunks)%nat
    /\ sent (isIncrement docId) w' = (sent (isIncrement docId) w + length chunks)%nat
    /\ counterOf (statusItem (table w') docId) = Some (p + Z.of_nat (length chunks)).
Proof.
  induction chunks as [|chunk chunks IH]; intros i w p Hp w'; subst w'.
  - unfold outcome, after, sent. cbn. rewrite !Nat.add_0_r, Z.add_0_r. auto.
  - destruct (processPage_spec docId tenant i chunk w)
      as ([at_ Hsends] & _ & _ & _ & Hcounter).
    destruct (Hcounter p Hp) as [Hok Hnext]. clear Hcounter.
    destruct (IH (S i) (after (processPage docId tenant i chunk) w) (p + 1) Hnext)
      as (Hloop & Hputs & Hincs & Hfinal).
    cbn [pageLoop]. unfold outcome, after, bind, sent in *.
    destruct (processPage docId tenant i chunk w) as [[[]|e] w1]; [|discriminate].
    cbn [fst snd] in *. rewrite Hloop, Hputs, Hincs, Hfinal, Hsends.
    cbn [List.filter isPut length]. rewrite isIncrement_incrementCommand.
    change (isPut (incrementCommand docId at_)) with false.
    cbn [length isIncrement]. repeat split; try lia.
    f_equal. lia.
Qed.

(** C5.  One iteration of the page loop, whether the analysis returns or
    throws, sends exactly two commands: the write of the page record of
    page [i + 1], then the increment of the processed-page counter.  The
    record holds the analysis when the analysis call returned and the
    failure marker, with its reason and the clock reading of the catch
    block, when it threw.  While the counter of the status record is a
    number the iteration does not throw, and neither does the loop over
    any list of chunks, which writes one page record and makes one
    increment per chunk. *)
Theorem page_iteration (w : World) (docId tenant : string) (i : nat) (chunk : string) :
  let item := pageRecord docId tenant i chunk w in
  let w' := after (processPage docId tenant i chunk) w in
  (exists at_, sends (trace w')
               = incrementCommand docId at_ :: PutCommand item :: sends (trace w))
  /\ keyOf item = Some (documentPageKeys docId (Z.of_nat i + 1))
  /\ item !! "pageNumber" = Some (AttrN (Z.of_nat i + 1))
  /\ (forall analysis,
        outcome (analyzeChunkDefault chunk) w = Ok analysis ->
        item !! "pageAnalysis" = Some (AttrS (JSON_stringify analysis)))
  /\ (forall e,
        outcome (analyzeChunkDefault chunk) w = Throw e ->
        item !! "pageAnalysis"
        = Some (AttrS (JSON_stringify
                         (JObj [("error", JStr "Analysis failed");
                                ("timestamp", JStr (stamp w))]))))
  /\ table w' !! documentPageKeys docId (Z.of_nat i + 1) = Some item
  /\ (forall p,
        counterOf (statusItem (table w) docId) = Some p ->
        outcome (processPage docId tenant i chunk) w = Ok tt
        /\ counterOf (statusItem (table w') docId) = Some (p + 1)
        /\ forall chunks,
             outcome (pageLoop docId tenant i chunks) w = Ok tt
             /\ sent isPut (after (pageLoop docId tenant i chunks) w)
                = (sent isPut w + length chunks)%nat
             /\ sent (isIncrement docId) (after (pageLoop docId tenant i chunks) w)
                = (sent (isIncrement docId) w + length chunks)%nat).
Proof.
  intros item w'.
  destruct (processPage_spec docId tenant i chunk w)
    as (Hsends & _ & _ & Htable & Hcounter).
  fold item in Hsends, Htable. fold w' in Hsends, Htable, Hcounter.
  assert (forall text,
            pageText chunk w = text -> item !! "pageAnalysis" = Some (AttrS text)) as Htext.
  { intros text <-. subst item. unfold pageRecord, pageItem. cbn [marshall fmap option_fmap option_map].
    rewrite !lookup_insert_ne by discriminate. now rewrite lookup_insert_eq. }
  split; [exact Hsends|]. split; [apply keyOf_marshall|]. split.
  { subst item. unfold pageRecord, pageItem. cbn [marshall].
    rewrite !lookup_insert_ne by discriminate. now rewrite lookup_insert_eq. }
  split; [|split; [|split; [exact Htable|]]].
  - intros analysis Hok. apply Htext. unfold pageText. now rewrite Hok.
  - intros e Hthrow. apply Htext. unfold pageText. now rewrite Hthrow.
  - intros p Hp. destruct (Hcounter p Hp) as [Hok Hnext].
    split; [exact Hok|]. split; [exact Hnext|].
    intros chunks. destruct (pageLoop_spec docId tenant chunks i w p Hp) as (? & ? & ? & _).
    auto.
Qed.

(** C9.  The rate-limit signal of [analyzeChunk] is a text: an error
    carries it exactly when its message contains 429.  When an attempt
    ends in an error, thrown by the call of the model or by the parsing of
    its answer, the call is retried exactly when the error carries the
    signal and retries are left: the retry sleeps [delay] first and runs
    with one retry fewer and twice the delay; any other error, and any
    error once no retry is left, is thrown at once, with no sleep and no
    further call.  After [k] attempts with the signal within the budget
    the delays slept are [delay], [2 * delay], ..., [k] of them.  With the
    budget of the call sites, three retries from 2000 ms, four such
    attempts in a row end in the error of the last after four calls and
    sleeps of 2000, 4000 and 8000 ms; the page loop then writes the
    failure marker for the page, makes its increment and goes on without
    throwing, sending no status transition. *)
Theorem analyzeChunk_retry (w : World) (text : string) (retries : nat) (delay : Z)
    (docId tenant : string) (i : nat) :
  (forall e,
     isRateLimit e = true
     <-> exists m pre post, message e = Some m /\ m = pre +:+ "429" +:+ post)
  /\ (forall responseText,
        generateContent (genCalls w) text = Ok responseText ->
        attemptResult (genCalls w) text
        = JSON_parse (default responseText (jsonMatch responseText)))
  /\ (forall e,
        generateContent (genCalls w) text = Throw e ->
        attemptResult (genCalls w) text = Throw e)
  /\ (forall e,
        attemptResult (genCalls w) text = Throw e ->
        (isRateLimit e = true /\ (0 < retries)%nat ->
         analyzeChunk text retries delay w
         = analyzeChunk text (retries - 1) (delay * 2)
             (addEvent (EvSleep delay) (called text w)))
        /\ (isRateLimit e = false \/ retries = O ->
            analyzeChunk text retries delay w = (Throw e, called text w))
        /\ ((genCalls w + 2 <= genCalls (after (analyzeChunk text retries delay) w))%nat
            <-> isRateLimit e = true /\ (0 < retries)%nat))
  /\ (forall k,
        (k <= retries)%nat ->
        (forall j, (j < k)%nat -> rateLimited (genCalls w + j) text = true) ->
        k = retries \/ rateLimited (genCalls w + k) text = false ->
        outcome (analyzeChunk text retries delay) w = attemptResult (genCalls w + k) text
        /\ genCalls (after (analyzeChunk text retries delay) w) = (genCalls w + k + 1)%nat
        /\ sleepsOf (trace (after (analyzeChunk text retries delay) w))
           = (backoff delay k ++ sleepsOf (trace w))%list)
  /\ ((forall j, (j <= 3)%nat -> rateLimited (genCalls w + j) text = true) ->
      (exists e, outcome (analyzeChunkDefault text) w = Throw e /\ isRateLimit e = true)
      /\ genCalls (after (analyzeChunkDefault text) w) = (genCalls w + 4)%nat
      /\ sleepsOf (trace (after (analyzeChunkDefault text) w))
         = (([8000; 4000; 2000] : list Z) ++ sleepsOf (trace w))%list
      /\ (exists at_,
            sends (trace (after (processPage docId tenant i text) w))
            = incrementCommand docId at_
              :: PutCommand
                   (pageItem docId tenant (Z.of_nat i + 1)
                      (Some (JSON_stringify (failureMarker (stamp w)))) None (tick w))
              :: sends (trace w))
      /\ (forall p,
            counterOf (statusItem (table w) docId) = Some p ->
            outcome (processPage docId tenant i text) w = Ok tt)).
Proof.
  split; [|split; [|split; [|split; [|split]]]].
  - intros e. unfold isRateLimit. destruct (message e) as [m|].
    + rewrite includes_spec. split.
      * intros (pre & post & ->). eauto.
      * intros (m' & pre & post & [= <-] & ->). eauto.
    + split; [discriminate|]. now intros (m & pre & post & [=] & _).
  - intros responseText Hanswer. unfold attemptResult. rewrite Hanswer.
    now destruct (jsonMatch responseText).
  - intros e Herror. unfold attemptResult. now rewrite Herror.
  - intros e He. split; [|split].
    + intros [Hlimit Hleft]. rewrite analyzeChunk_step, He.
      destruct retries as [|retries']; [lia|]. rewrite Hlimit.
      now replace (S retries' - 1)%nat with retries' by lia.
    + intros Hstop. rewrite analyzeChunk_step, He.
      destruct retries as [|retries']; [reflexivity|].
      destruct Hstop as [->|Hzero]; [reflexivity|discriminate].
    + unfold after. rewrite analyzeChunk_step, He.
      destruct retries as [|retries']; cbn [snd called countCall genCalls addEvent].
      * split; [lia|]. intros [_ Hleft]. lia.
      * destruct (isRateLimit e); cbn [snd called countCall genCalls addEvent].
        -- pose proof (analyzeChunk_calls text retries' (delay * 2)
                         (addEvent (EvSleep delay) (called text w))) as Hcalls.
           unfold after in Hcalls. cbn [genCalls addEvent called countCall] in Hcalls.
           split; [intros _; split; [reflexivity|lia]|intros _; lia].
        -- split; [lia|]. intros [Hfalse _]. discriminate.
  - intros k. apply analyzeChunk_backoff.
  - intros Hlimited.
    destruct (analyzeChunk_backoff text 3 3 2000 w) as (Hout & Hcalls & Hsleeps).
    { lia. }
    { intros j Hj. apply Hlimited. lia. }
    { now left. }
    pose proof (Hlimited 3%nat ltac:(lia)) as Hlast. unfold rateLimited in Hlast.
    fold (analyzeChunkDefault text) in Hout, Hcalls, Hsleeps.
    destruct (attemptResult (genCalls w + 3) text) as [j|e] eqn:Hattempt; [discriminate|].
    split; [eauto|]. split; [rewrite Hcalls; lia|]. split; [exact Hsleeps|].
    destruct (processPage_spec docId tenant i text w) as (Hsends & _ & _ & _ & Hcounter).
    unfold pageRecord, pageText in Hsends. rewrite Hout in Hsends.
    split; [exact Hsends|]. intros p Hp. now destruct (Hcounter p Hp).
Qed.

(** ** Failure before any page is enumerated *)

Lemma statusAttr_after_status (w : World) (docId tenant st attr : string) :
  attr <> "overallStatus" -> attr <> "updatedAt" -> attr <> "PK" -> attr <> "SK" ->
  statusAttr (after (updateStatus docId tenant st) w) docId attr = statusAttr w docId attr.
Proof.
  intros H1 H2 H3 H4. unfold after. rewrite updateStatus_run. unfold statusAttr, statusItem.
  cbn [snd table]. rewrite lookup_insert_eq. cbn.
  rewrite !lookup_insert_ne by congruence.
  destruct (table w !! documentStatusKeys docId); [reflexivity|].
  unfold keyItem. cbn. now rewrite !lookup_insert_ne by congruence.
Qed.

Lemma statusAttr_status (w : World) (docId tenant st : string) :
  statusAttr (after (updateStatus docId tenant st) w) docId "overallStatus"
  = Some (AttrS st).
Proof.
  unfold after. rewrite updateStatus_run. unfold statusAttr.
  cbn [snd table]. rewrite lookup_insert_eq. cbn. now rewrite lookup_insert_eq.
Qed.

(** When the download, or the parse of the downloaded buffer, throws, the
    worker sends the transition to processing and the transition to
    failed and nothing else: no page is written, the counter and the total
    are not touched, no error message is stored, and the error is
    swallowed. *)
Lemma processDocument_ingest_failure (w : World) (docId tenant s3Key bucket : string) :
  (exists e, downloadFile bucket s3Key = Throw e)
  \/ (exists buffer e, downloadFile bucket s3Key = Ok buffer /\ pdf buffer = Throw e) ->
  let w' := after (processDocument docId tenant s3Key bucket) w in
  outcome (processDocument docId tenant s3Key bucket) w = Ok tt
  /\ sends (trace w')
     = statusCommand docId (toISOString (clockMs (S (time w))))
         [("overallStatus", Some (AttrS "failed"))]
       :: statusCommand docId (stamp w) [("overallStatus", Some (AttrS "processing"))]
       :: sends (trace w)
  /\ statusAttr w' docId "overallStatus" = Some (AttrS "failed")
  /\ genCalls w' = genCalls w
  /\ (forall attr,
        attr <> "overallStatus" -> attr <> "updatedAt" -> attr <> "PK" -> attr <> "SK" ->
        statusAttr w' docId attr = statusAttr w docId attr).
Proof.
  intros Hfail w'. subst w'.
  unfold outcome, after, processDocument, s3Download.
  unfold tryCatch, bind, logEvent, liftResult.
  rewrite updateStatus_run. cbv beta iota.
  set (w1 := addEvent (EvDownload bucket s3Key) _).
  assert (forall attr, statusAttr w1 docId attr
                       = statusAttr (after (updateStatus docId tenant "processing") w)
                           docId attr) as Hw1.
  { intros attr. unfold after. now rewrite updateStatus_run. }
  assert (outcome (updateStatus docId tenant "failed") w1 = Ok tt
          /\ sends (trace (after (updateStatus docId tenant "failed") w1))
             = statusCommand docId (toISOString (clockMs (S (time w))))
                 [("overallStatus", Some (AttrS "failed"))]
               :: statusCommand docId (stamp w)
                    [("overallStatus", Some (AttrS "processing"))]
               :: sends (trace w)
          /\ statusAttr (after (updateStatus docId tenant "failed") w1) docId "overallStatus"
             = Some (AttrS "failed")
          /\ genCalls (after (updateStatus docId tenant "failed") w1) = genCalls w
          /\ (forall attr,
                attr <> "overallStatus" -> attr <> "updatedAt" -> attr <> "PK" ->
                attr <> "SK" ->
                statusAttr (after (updateStatus docId tenant "failed") w1) docId attr
                = statusAttr w docId attr)) as Hcatch.
  { split; [unfold outcome; now rewrite updateStatus_run|].
    split; [unfold after; now rewrite updateStatus_run|].
    split; [apply statusAttr_status|].
    split; [unfold after; now rewrite updateStatus_run|].
    intros attr H1 H2 H3 H4.
    rewrite statusAttr_after_status, Hw1 by assumption.
    now apply statusAttr_after_status. }
  unfold outcome, after in Hcatch.
  destruct Hfail as [[e He]|(buffer & e & Hd & Hp)].
  - rewrite He. exact Hcatch.
  - rewrite Hd, Hp. exact Hcatch.
Qed.

(** ** Creating a status record *)

(** C8, as the code has it.  [createDocumentStatus] puts a status record
    with overall status pending, the total the caller passes (0 at the
    upload call site), processed pages 0 and failed pages 0, and returns
    it.  The put carries no condition: it succeeds whether or not a record
    is stored for the document, and a second call for the same document
    replaces the stored record by a fresh one. *)
Theorem createDocumentStatus_put (w : World) (docId tenant : string) (total : Z) :
  let item := freshStatusItem docId tenant total w in
  let w' := after (createDocumentStatus docId tenant total) w in
  outcome (createDocumentStatus docId tenant total) w = Ok item
  /\ sends (trace w') = PutCommand item :: sends (trace w)
  /\ table w' !! documentStatusKeys docId = Some item
  /\ item !! "overallStatus" = Some (AttrS "pending")
  /\ item !! "totalPages" = Some (AttrN total)
  /\ item !! "processedPages" = Some (AttrN 0)
  /\ item !! "failedPages" = Some (AttrN 0)
  /\ (forall (tenant2 : string) (total2 : Z),
        outcome (createDocumentStatus docId tenant2 total2) w'
        = Ok (freshStatusItem docId tenant2 total2 w')
        /\ table (after (createDocumentStatus docId tenant2 total2) w')
             !! documentStatusKeys docId
           = Some (freshStatusItem docId tenant2 total2 w')).
Proof.
  intros item w'. subst item w'. unfold outcome, after.
  rewrite createDocumentStatus_run. cbn [fst snd trace table sends].
  split; [reflexivity|]. split; [reflexivity|].
  split; [apply lookup_insert_eq|].
  unfold freshStatusItem at 1 2 3 4. cbn [marshall].
  repeat (split; [rewrite !lookup_insert_ne by discriminate; now rewrite lookup_insert_eq|]).
  intros tenant2 total2. rewrite createDocumentStatus_run. cbn [fst snd table].
  split; [reflexivity|apply lookup_insert_eq].
Qed.

End Properties.

(** * The services taken together *)

Section Together.
Context `{Collaborators}.

(** ** Observations of the table *)

Section TableViews.
Context {X : Type} (f : Table -> X).

Lemma preserves_table {A} (m : M A) :
  (forall w, table (after m w) = table w) -> preserves (fun w => f (table w)) m.
Proof. intros Hm w. now rewrite Hm. Qed.

Lemma preserves_tryCatchFinally {A} (obs : World -> X) (body : M A)
    (handler : JsError -> M A) (fin : M unit) :
  preserves obs body -> (forall e, preserves obs (handler e)) -> preserves obs fin ->
  preserves obs (tryCatchFinally body handler fin).
Proof.
  intros Hbody Hhandler Hfin w.
  pose proof (preserves_tryCatch obs body handler Hbody Hhandler w) as Htry.
  specialize (Hfin (after (tryCatch body handler) w)).
  unfold after, tryCatchFinally in *.
  destruct (tryCatch body handler w) as [r w1]. cbn [snd] in *.
  destruct (fin w1) as [[[]|e] w2]; cbn [snd] in *; congruence.
Qed.

Lemma newDateISO_table : preserves (fun w => f (table w)) newDateISO.
Proof. intros w. reflexivity. Qed.

Lemma logEvent_table (e : Event) : preserves (fun w => f (table w)) (logEvent e).
Proof. intros w. reflexivity. Qed.

Lemma uploadResults_table docId tenant m :
  preserves (fun w => f (table w)) (uploadResults docId tenant m).
Proof. intros w. reflexivity. Qed.

Lemma getDocumentPages_table docId : preserves (fun w => f (table w)) (getDocumentPages docId).
Proof. intros w. unfold after. now rewrite getDocumentPages_run. Qed.

Lemma s3Download_table bucket key : preserves (fun w => f (table w)) (s3Download bucket key).
Proof. intros w. unfold after, s3Download, bind, logEvent, liftResult. now destruct (downloadFile bucket key). Qed.

Lemma analyzeChunk_table text retries delay :
  preserves (fun w => f (table w)) (analyzeChunk text retries delay).
Proof.
  intros w. pose proof (analyzeChunk_storeView text retries delay w) as Hview.
  unfold storeView in Hview. injection Hview as Htable _ _ _ _. now rewrite Htable.
Qed.

(** The writers of the status service, on an observation that a write
    under the status key of [docId] leaves alone. *)
Section StatusWrites.
Context (docId : string).
Hypothesis status_frame :
  forall (t : Table) (item : Item), f (<[documentStatusKeys docId := item]> t) = f t.

Lemma updateDocumentStatus_table updates :
  preserves (fun w => f (table w)) (updateDocumentStatus docId updates).
Proof. intros w. unfold after. rewrite updateDocumentStatus_run. apply status_frame. Qed.

Lemma updateStatus_table tenant st :
  preserves (fun w => f (table w)) (updateStatus docId tenant st).
Proof. apply updateDocumentStatus_table. Qed.

Lemma updateTotalPages_table tenant n :
  preserves (fun w => f (table w)) (updateTotalPages docId tenant n).
Proof. intros w. unfold after. rewrite updateTotalPages_run. apply status_frame. Qed.

Lemma createDocumentStatus_table tenant n :
  preserves (fun w => f (table w)) (createDocumentStatus docId tenant n).
Proof. intros w. unfold after. rewrite createDocumentStatus_run. apply status_frame. Qed.

Lemma incrementProcessedPages_table :
  preserves (fun w => f (table w)) (incrementProcessedPages docId).
Proof.
  intros w. destruct (table_after_increment w docId) as [-> | [item ->]];
    [reflexivity|apply status_frame].
Qed.

Lemma aggregateResults_table tenant total :
  preserves (fun w => f (table w)) (aggregateResults docId tenant total).
Proof.
  unfold aggregateResults.
  apply preserves_bind; [apply logEvent_table|intros _].
  apply preserves_tryCatch.
  - apply preserves_bind; [apply updateStatus_table|intros _].
    apply preserves_bind; [apply getDocumentPages_table|intros pages].
    destruct (Z.of_nat (length pages) <? total).
    + apply preserves_bind; [apply updateStatus_table|intros _; apply preserves_ret].
    + apply preserves_bind; [apply newDateISO_table|intros at_].
      apply preserves_bind; [apply preserves_liftResult|intros succeeded].
      apply preserves_bind; [apply preserves_liftResult|intros failedPages].
      apply preserves_bind; [apply preserves_liftResult|intros cs].
      apply preserves_bind; [apply uploadResults_table|intros _].
      apply preserves_bind; [apply newDateISO_table|intros completedAt].
      apply updateDocumentStatus_table.
  - intros e. apply preserves_bind; [apply updateDocumentStatus_table|intros _].
    apply preserves_throw.
Qed.

(** The worker also writes page records of [docId]. *)
Hypothesis page_frame :
  forall (t : Table) (n : Z) (item : Item), f (<[documentPageKeys docId n := item]> t) = f t.

Lemma savePageAttributes_table tenant n a c :
  preserves (fun w => f (table w)) (savePageAttributes docId tenant n a c).
Proof. intros w. unfold after. rewrite savePageAttributes_run. apply page_frame. Qed.

Lemma processPage_table tenant i chunk :
  preserves (fun w => f (table w)) (processPage docId tenant i chunk).
Proof.
  unfold processPage.
  apply preserves_bind; [|intros _; apply logEvent_table].
  apply preserves_tryCatchFinally.
  - apply preserves_bind; [apply analyzeChunk_table|intros analysis].
    apply preserves_bind; [apply savePageAttributes_table|intros _; apply preserves_ret].
  - intros e. apply preserves_bind; [apply newDateISO_table|intros at_].
    apply preserves_bind; [apply savePageAttributes_table|intros _; apply preserves_ret].
  - apply preserves_bind; [apply incrementProcessedPages_table|intros _; apply preserves_ret].
Qed.

Lemma pageLoop_table tenant chunks :
  forall i, preserves (fun w => f (table w)) (pageLoop docId tenant i chunks).
Proof.
  induction chunks as [|chunk chunks IH]; intros i; cbn [pageLoop].
  - apply preserves_ret.
  - apply preserves_bind; [apply processPage_table|intros _; apply IH].
Qed.

Lemma processDocument_table tenant s3Key bucket :
  preserves (fun w => f (table w)) (processDocument docId tenant s3Key bucket).
Proof.
  unfold processDocument. apply preserves_tryCatch.
  - apply preserves_bind; [apply updateStatus_table|intros _].
    apply preserves_bind; [apply s3Download_table|intros buffer].
    apply preserves_bind; [apply preserves_liftResult|intros data].
    apply preserves_bind; [apply updateTotalPages_table|intros _].
    apply pageLoop_table.
  - intros e. apply updateStatus_table.
Qed.

End StatusWrites.
End TableViews.

(** ** One document at a time *)

Lemma documentView_insert (b : string) (k : Key) (v : Item) (t : Table) :
  k.1 <> "DOC#" +:+ b -> documentView b (<[k := v]> t) = documentView b t.
Proof.
  intros Hk. unfold documentView. f_equal.
  - apply lookup_insert_ne. intros ->. now apply Hk.
  - rewrite !queryItems_entries. rewrite queryEntries_insert_other; [reflexivity|].
    unfold keyCondition. cbn [fst snd]. apply andb_false_intro1. now apply String.eqb_neq.
Qed.

Lemma documentView_status (a b : string) (t : Table) (item : Item) :
  a <> b -> documentView b (<[documentStatusKeys a := item]> t) = documentView b t.
Proof.
  intros Hab. apply documentView_insert. cbn. intros Heq. now apply append_inj_r in Heq.
Qed.

Lemma documentView_page (a b : string) (t : Table) (n : Z) (item : Item) :
  a <> b -> documentView b (<[documentPageKeys a n := item]> t) = documentView b t.
Proof.
  intros Hab. apply documentView_insert. cbn. intros Heq. now apply append_inj_r in Heq.
Qed.

Lemma perform_table {X} (f : Table -> X) (op : Operation) (w : World) :
  (forall t item, f (<[documentStatusKeys (subject op) := item]> t) = f t) ->
  (forall t n item, f (<[documentPageKeys (subject op) n := item]> t) = f t) ->
  f (table (perform op w)) = f (table w).
Proof.
  intros Hstatus Hpage.
  destruct op as [f' t n|[f'|f' t n a|f' t st|f' t n]|f' t k bk|f' t n];
    cbn [perform runCall subject] in *.
  - now apply (createDocumentStatus_table f).
  - now apply (incrementProcessedPages_table f).
  - now apply (savePageAttributes_table f).
  - now apply (updateStatus_table f).
  - now apply (updateTotalPages_table f).
  - now apply (processDocument_table f).
  - now apply (aggregateResults_table f).
Qed.

Lemma performAll_table {X} (f : Table -> X) (ops : list Operation) :
  Forall (fun op =>
            (forall t item, f (<[documentStatusKeys (subject op) := item]> t) = f t)
            /\ (forall t n item, f (<[documentPageKeys (subject op) n := item]> t) = f t)) ops ->
  forall w, f (table (performAll ops w)) = f (table w).
Proof.
  unfold performAll. induction 1 as [|op ops [Hstatus Hpage] _ IH]; intros w;
    cbn [fold_left]; [reflexivity|].
  rewrite IH. now apply perform_table.
Qed.

(** X1.  Whatever the services do for other documents (creating a status
    record, the calls of the page workers, a worker's run over a whole
    document, an aggregation), the status record of a document and the
    page records a query fetches for it stay as they were. *)
Theorem documents_isolated (docId : string) (ops : list Operation) (w : World) :
  Forall (fun op => subject op <> docId) ops ->
  table (performAll ops w) !! documentStatusKeys docId = table w !! documentStatusKeys docId
  /\ fetchedPages (performAll ops w) docId = fetchedPages w docId.
Proof.
  intros Hops.
  enough (documentView docId (table (performAll ops w)) = documentView docId (table w)) as Hview
    by (now injection Hview).
  apply performAll_table. eapply Forall_impl; [exact Hops|].
  intros op Hop. split; intros; [now apply documentView_status|now apply documentView_page].
Qed.

(** X2.  The edges of the counter.  On a status record without a
    processed-page counter, and on a document without a status record, the
    increment succeeds and leaves the counter at 1; without a record it
    creates one that holds the key, the counter and the update stamp and
    nothing else.  On a counter that is not a number the store rejects the
    update with a validation error and the table is left as it was. *)
Theorem incrementProcessedPages_edges (w : World) (docId : string) :
  (statusAttr w docId "processedPages" = None ->
   outcome (incrementProcessedPages docId) w = Ok JsUndefined
   /\ statusAttr (after (incrementProcessedPages docId) w) docId "processedPages"
      = Some (AttrN 1))
  /\ (table w !! documentStatusKeys docId = None ->
      table (after (incrementProcessedPages docId) w) !! documentStatusKeys docId
      = Some (marshall [ ("PK", Some (AttrS ("DOC#" +:+ docId)));
                         ("SK", Some (AttrS "STATUS"));
                         ("processedPages", Some (AttrN 1));
                         ("updatedAt", Some (AttrS (stamp w))) ]))
  /\ (forall v,
        statusAttr w docId "processedPages" = Some v -> (forall n, v <> AttrN n) ->
        (exists e, outcome (incrementProcessedPages docId) w = Throw e
                   /\ errName e = "ValidationException")
        /\ table (after (incrementProcessedPages docId) w) = table w).
Proof.
  unfold outcome, after. rewrite incrementProcessedPages_cases.
  unfold statusAttr, counterOf, statusItem.
  destruct (table w !! documentStatusKeys docId) as [item|] eqn:Hitem; cbn [default from_option mbind option_bind id].
  - split; [|split; [discriminate|]].
    + intros ->. cbn [fst snd table]. split; [reflexivity|].
      rewrite lookup_insert_eq. cbn. rewrite lookup_insert_ne by discriminate.
      now rewrite lookup_insert_eq.
    + intros v -> Hv. destruct v as [s|n|l]; [|now destruct (Hv n)|];
        cbn [fst snd table]; eauto.
  - assert (keyItem (documentStatusKeys docId) !! "processedPages" = None) as ->
      by reflexivity.
    split; [|split; [|discriminate]].
    + intros _. cbn [fst snd table]. split; [reflexivity|].
      rewrite lookup_insert_eq. cbn. rewrite lookup_insert_ne by discriminate.
      now rewrite lookup_insert_eq.
    + intros _. cbn [fst snd table]. rewrite lookup_insert_eq. f_equal.
Qed.

(** ** Status updates *)

Lemma updatedItem_other (updates : list (string * option AttributeValue)) (attr : string) :
  (forall v, (attr, Some v) ∉ updates) ->
  forall old at_, attr <> "updatedAt" -> updatedItem old at_ updates !! attr = old !! attr.
Proof.
  intros Hnot old at_ Hattr. unfold updatedItem.
  rewrite <- (lookup_insert_ne old "updatedAt" attr (AttrS at_)) by congruence.
  generalize (<["updatedAt" := AttrS at_]> old). clear old.
  induction updates as [|[k [v|]] rest IH]; intros base; cbn [updateExpressions fold_left].
  - reflexivity.
  - rewrite IH by (intros v' Hin; apply (Hnot v'); now right).
    apply lookup_insert_ne. intros ->. apply (Hnot v). now left.
  - apply IH. intros v' Hin. apply (Hnot v'). now right.
Qed.

Lemma updatedItem_written (updates : list (string * option AttributeValue))
    (attr : string) (v : AttributeValue) :
  NoDup updates.*1 -> (attr, Some v) ∈ updates ->
  forall old at_, updatedItem old at_ updates !! attr = Some v.
Proof.
  intros Hnodup Hin old at_. unfold updatedItem.
  generalize (<["updatedAt" := AttrS at_]> old). clear old.
  induction updates as [|[k o] rest IH]; intros base; [now apply elem_of_nil in Hin|].
  cbn [fmap list_fmap fst] in Hnodup. apply NoDup_cons in Hnodup as [Hk Hrest].
  apply elem_of_cons in Hin as [[= <- <-]|Hin].
  - cbn [updateExpressions fold_left].
    assert (forall v', (attr, Some v') ∉ rest) as Hnot.
    { intros v' Hv'. apply Hk. apply list_elem_of_fmap. now exists (attr, Some v'). }
    clear IH Hrest Hk.
    generalize (<[attr := v]> base) (lookup_insert_eq base attr v). clear base.
    induction rest as [|[k' [v'|]] rest IH]; intros base Hbase; cbn [updateExpressions fold_left].
    + exact Hbase.
    + apply IH; [intros x Hx; apply (Hnot x); now right|].
      rewrite lookup_insert_ne; [exact Hbase|]. intros ->. apply (Hnot v'). now left.
    + apply IH; [intros x Hx; apply (Hnot x); now right|exact Hbase].
  - destruct o as [v'|]; cbn [updateExpressions fold_left]; now apply IH.
Qed.

(** X3.  A status update given distinct attribute names (none of them the
    update stamp) always succeeds; it stores each value that is defined,
    stamps the record with the clock reading, leaves every other attribute
    of the record and every other record of the table as they were, and on
    a document without a record creates one that holds the key and these
    attributes only.  Entries whose value is undefined are skipped. *)
Theorem updateDocumentStatus_frame (w : World) (docId : string)
    (updates : list (string * option AttributeValue)) :
  NoDup updates.*1 -> "updatedAt" ∉ updates.*1 ->
  let w' := after (updateDocumentStatus docId updates) w in
  outcome (updateDocumentStatus docId updates) w = Ok tt
  /\ (exists item,
        table w' !! documentStatusKeys docId = Some item
        /\ item !! "updatedAt" = Some (AttrS (stamp w))
        /\ (forall attr v, (attr, Some v) ∈ updates -> item !! attr = Some v)
        /\ (forall attr,
              attr <> "updatedAt" -> (forall v, (attr, Some v) ∉ updates) ->
              item !! attr = statusItem (table w) docId !! attr)
        /\ (table w !! documentStatusKeys docId = None ->
            forall attr,
              attr <> "updatedAt" -> attr <> "PK" -> attr <> "SK" ->
              (forall v, (attr, Some v) ∉ updates) -> item !! attr = None))
  /\ (forall k, k <> documentStatusKeys docId -> table w' !! k = table w !! k)
  /\ resultsBucket w' = resultsBucket w.
Proof.
  intros Hnodup Hstamp w'. subst w'. unfold outcome, after.
  rewrite updateDocumentStatus_run. cbn [fst snd table resultsBucket].
  split; [reflexivity|]. split; [|split; [|reflexivity]].
  - eexists. split; [apply lookup_insert_eq|].
    assert (forall attr,
              attr <> "updatedAt" -> (forall v, (attr, Some v) ∉ updates) ->
              updatedItem (statusItem (table w) docId) (stamp w) updates !! attr
              = statusItem (table w) docId !! attr) as Hother
      by (intros attr Hattr Hnot; now apply updatedItem_other).
    split; [|split; [|split; [exact Hother|]]].
    + unfold updatedItem.
      assert (forall v, ("updatedAt", Some v) ∉ updates) as Hnot.
      { intros v Hv. apply Hstamp. apply list_elem_of_fmap. now exists ("updatedAt", Some v). }
      clear Hother Hnodup Hstamp.
      generalize (<["updatedAt" := AttrS (stamp w)]> (statusItem (table w) docId))
                 (lookup_insert_eq (statusItem (table w) docId) "updatedAt" (AttrS (stamp w))).
      induction updates as [|[k [v|]] rest IH]; intros base Hbase;
        cbn [updateExpressions fold_left].
      * exact Hbase.
      * apply IH; [intros x Hx; apply (Hnot x); now right|].
        rewrite lookup_insert_ne; [exact Hbase|]. intros ->. apply (Hnot v). now left.
      * apply IH; [intros x Hx; apply (Hnot x); now right|exact Hbase].
    + intros attr v Hin. now apply updatedItem_written.
    + intros Habsent attr H1 H2 H3 Hnot. rewrite Hother by assumption.
      unfold statusItem. rewrite Habsent. cbn [default from_option id]. unfold keyItem.
      now rewrite !lookup_insert_ne, lookup_empty by congruence.
  - intros k Hk. now apply lookup_insert_ne.
Qed.

(** ** Schedules of worker calls *)

Lemma statusItem_insert_other (t : Table) (f docId : string) (item : Item) :
  f <> docId -> statusItem (<[documentStatusKeys f := item]> t) docId = statusItem t docId.
Proof.
  intros Hne. unfold statusItem. rewrite lookup_insert_ne; [reflexivity|].
  intros Heq. now apply documentStatusKeys_inj in Heq.
Qed.

(** The status item after one call: untouched, or two attributes written
    over the item of the document the call is for. *)
Lemma runCall_statusItem (c : WorkerCall) (w : World) (docId : string) :
  statusItem (table (runCall c w)) docId
  = match c with
    | CallIncrement f =>
        if String.eqb f docId then
          match counterOf (statusItem (table w) docId) with
          | Some p => <["updatedAt" := AttrS (stamp w)]>
                        (<["processedPages" := AttrN (p + 1)]> (statusItem (table w) docId))
          | None => statusItem (table w) docId
          end
        else statusItem (table w) docId
    | CallSavePage _ _ _ _ => statusItem (table w) docId
    | CallUpdateStatus f _ st =>
        if String.eqb f docId then
          <["overallStatus" := AttrS st]>
            (<["updatedAt" := AttrS (stamp w)]> (statusItem (table w) docId))
        else statusItem (table w) docId
    | CallUpdateTotalPages f _ n =>
        if String.eqb f docId then
          <["updatedAt" := AttrS (stamp w)]>
            (<["totalPages" := AttrN n]> (statusItem (table w) docId))
        else statusItem (table w) docId
    end.
Proof.
  destruct c as [f|f t n a|f t st|f t n]; cbn [runCall]; unfold after.
  - rewrite incrementProcessedPages_cases.
    destruct (String.eqb_spec f docId) as [->|Hne].
    + destruct (counterOf _); cbn [snd table]; [apply statusItem_insert|reflexivity].
    + destruct (counterOf _); cbn [snd table]; [now apply statusItem_insert_other|reflexivity].
  - rewrite savePageAttributes_run. cbn [snd table]. apply statusItem_insert_page.
  - rewrite updateStatus_run. cbn [snd table].
    destruct (String.eqb_spec f docId) as [->|Hne];
      [apply statusItem_insert|now apply statusItem_insert_other].
  - rewrite updateTotalPages_run. cbn [snd table].
    destruct (String.eqb_spec f docId) as [->|Hne];
      [apply statusItem_insert|now apply statusItem_insert_other].
Qed.

Lemma runCall_total (c : WorkerCall) (w : World) (docId : string) :
  statusItem (table (runCall c w)) docId !! "totalPages"
  = totalAfter docId (statusItem (table w) docId !! "totalPages") c.
Proof.
  rewrite runCall_statusItem.
  destruct c as [f|f t n a|f t st|f t n]; cbn [totalAfter];
    try destruct (String.eqb f docId); try reflexivity.
  - destruct (counterOf _); [|reflexivity]. now rewrite !lookup_insert_ne by discriminate.
  - now rewrite !lookup_insert_ne by discriminate.
  - rewrite lookup_insert_ne by discriminate. apply lookup_insert_eq.
Qed.

Lemma runCall_status (c : WorkerCall) (w : World) (docId : string) :
  statusItem (table (runCall c w)) docId !! "overallStatus"
  = statusAfter docId (statusItem (table w) docId !! "overallStatus") c.
Proof.
  rewrite runCall_statusItem.
  destruct c as [f|f t n a|f t st|f t n]; cbn [statusAfter];
    try destruct (String.eqb f docId); try reflexivity.
  - destruct (counterOf _); [|reflexivity]. now rewrite !lookup_insert_ne by discriminate.
  - apply lookup_insert_eq.
  - now rewrite !lookup_insert_ne by discriminate.
Qed.

Lemma runCall_other (c : WorkerCall) (w : World) (docId attr : string) :
  attr ∉ ["processedPages"; "totalPages"; "overallStatus"; "updatedAt"] ->
  statusItem (table (runCall c w)) docId !! attr = statusItem (table w) docId !! attr.
Proof.
  intros Hattr. rewrite !not_elem_of_cons in Hattr. destruct Hattr as (H1 & H2 & H3 & H4 & _).
  rewrite runCall_statusItem.
  destruct c as [f|f t n a|f t st|f t n];
    try destruct (String.eqb f docId); try reflexivity.
  - destruct (counterOf _); [|reflexivity]. now rewrite !lookup_insert_ne by congruence.
  - now rewrite !lookup_insert_ne by congruence.
  - now rewrite !lookup_insert_ne by congruence.
Qed.

Lemma runCall_counter (c : WorkerCall) (w : World) (docId : string) (p : Z) :
  counterOf (statusItem (table w) docId) = Some p ->
  counterOf (statusItem (table (runCall c w)) docId)
  = Some (if isIncrementOf docId c then p + 1 else p).
Proof.
  intros Hp. rewrite runCall_statusItem.
  destruct c as [f|f t n a|f t st|f t n]; cbn [isIncrementOf];
    try destruct (String.eqb f docId); try assumption.
  - rewrite Hp. apply counterOf_incremented.
  - unfold counterOf in *. now rewrite !lookup_insert_ne by discriminate.
  - unfold counterOf in *. now rewrite !lookup_insert_ne by discriminate.
Qed.

Lemma runCall_stored (c : WorkerCall) (w : World) (docId : string) :
  is_Some (table w !! documentStatusKeys docId) ->
  is_Some (table (runCall c w) !! documentStatusKeys docId).
Proof.
  intros Hstored.
  destruct c as [f|f t n a|f t st|f t n]; cbn [runCall]; unfold after.
  - rewrite incrementProcessedPages_cases. destruct (counterOf _); cbn [snd table]; [|assumption].
    now apply lookup_insert_is_Some'; right.
  - rewrite savePageAttributes_run. cbn [snd table]. now apply lookup_insert_is_Some'; right.
  - rewrite updateStatus_run. cbn [snd table]. now apply lookup_insert_is_Some'; right.
  - rewrite updateTotalPages_run. cbn [snd table]. now apply lookup_insert_is_Some'; right.
Qed.

Lemma runSchedule_statusItem (calls : list WorkerCall) (docId : string) :
  forall w : World,
    let old := statusItem (table w) docId in
    let new := statusItem (table (runSchedule calls w)) docId in
    new !! "totalPages" = fold_left (totalAfter docId) calls (old !! "totalPages")
    /\ new !! "overallStatus" = fold_left (statusAfter docId) calls (old !! "overallStatus")
    /\ (forall attr,
          attr ∉ ["processedPages"; "totalPages"; "overallStatus"; "updatedAt"] ->
          new !! attr = old !! attr)
    /\ (forall p, counterOf old = Some p ->
                  counterOf new = Some (p + incrementsOf docId calls))
    /\ (is_Some (table w !! documentStatusKeys docId) ->
        is_Some (table (runSchedule calls w) !! documentStatusKeys docId)).
Proof.
  unfold runSchedule, incrementsOf.
  induction calls as [|c calls IH]; intros w; cbn [fold_left List.filter].
  - repeat split; auto. intros p ->. cbn. now rewrite Z.add_0_r.
  - destruct (IH (runCall c w)) as (Htotal & Hstatus & Hother & Hcounter & Hstored).
    cbv zeta. rewrite Htotal, Hstatus, runCall_total, runCall_status.
    split; [reflexivity|]. split; [reflexivity|]. split; [|split].
    + intros attr Hattr. rewrite Hother by assumption. now apply runCall_other.
    + intros p Hp. rewrite (Hcounter _ (runCall_counter c w docId p Hp)).
      destruct (isIncrementOf docId c); cbn [length]; f_equal; lia.
    + intros Hsome. now apply Hstored, runCall_stored.
Qed.

(** X4.  Over any interleaving of the workers' calls, the total of a
    document is the one last written for it (the stored one when none
    was), and so is its overall status; no call changes another attribute
    of the status record than these two, the counter and the update
    stamp. *)
Theorem schedule_last_writer (calls : list WorkerCall) (docId : string) (w : World) :
  let old := statusItem (table w) docId in
  let new := statusItem (table (runSchedule calls w)) docId in
  new !! "totalPages" = fold_left (totalAfter docId) calls (old !! "totalPages")
  /\ new !! "overallStatus" = fold_left (statusAfter docId) calls (old !! "overallStatus")
  /\ (forall attr,
        attr ∉ ["processedPages"; "totalPages"; "overallStatus"; "updatedAt"] ->
        new !! attr = old !! attr).
Proof.
  destruct (runSchedule_statusItem calls docId w) as (Htotal & Hstatus & Hother & _).
  auto.
Qed.

(** X5.  The completion condition under concurrency.  From a stored status
    record whose counter holds [p], after any interleaving of the workers'
    calls the record meets the condition of the watcher exactly when [p]
    plus the number of increments made for the document equals the total
    last written for it, that total is positive, and the status last
    written is processing. *)
Theorem completion_under_interleaving (calls : list WorkerCall) (docId : string) (w : World)
    (item : Item) (p : Z) :
  table w !! documentStatusKeys docId = Some item ->
  item !! "SK" = Some (AttrS "STATUS") ->
  item !! "processedPages" = Some (AttrN p) ->
  exists item',
    table (runSchedule calls w) !! documentStatusKeys docId = Some item'
    /\ eligible item'
       = match fold_left (totalAfter docId) calls (item !! "totalPages") with
         | Some (AttrN n) => (p + incrementsOf docId calls =? n) && (0 <? n)
         | _ => false
         end
         && bool_decide (fold_left (statusAfter docId) calls (item !! "overallStatus")
                         = Some (AttrS "processing")).
Proof.
  intros Hitem Hsk Hp.
  destruct (runSchedule_statusItem calls docId w) as (Htotal & Hstatus & Hother & Hcounter & Hstored).
  destruct Hstored as [item' Hitem']; [now rewrite Hitem|].
  exists item'. split; [exact Hitem'|].
  unfold statusItem in *. rewrite Hitem, Hitem' in *. cbn [default from_option id] in *.
  specialize (Hcounter p). unfold counterOf in Hcounter. rewrite Hp in Hcounter.
  specialize (Hcounter eq_refl).
  unfold eligible. rewrite Htotal, Hstatus.
  rewrite (Hother "SK") by (rewrite !not_elem_of_cons; repeat split; try discriminate; apply not_elem_of_nil).
  rewrite Hsk. rewrite (bool_decide_eq_true_2 (Some (AttrS "STATUS") = _)) by reflexivity.
  cbn [andb]. f_equal.
  destruct (item' !! "processedPages") as [[|q|]|]; try discriminate;
    injection Hcounter as Hq; destruct (fold_left _ _ _) as [[|n|]|]; try reflexivity.
  - now rewrite Hq.
  - rewrite <- Hq. now destruct (Z.eqb_spec 0 n) as [<-|].
Qed.

(** ** The cost of an analysis *)

Lemma rateLimited_prefix (text : string) (start : nat) (retries : nat) :
  exists k, (k <= retries)%nat
            /\ (forall i, (i < k)%nat -> rateLimited (start + i) text = true)
            /\ (k = retries \/ rateLimited (start + k) text = false).
Proof.
  induction retries as [|retries (k & Hk & Hall & Hlast)].
  - exists O. split; [lia|]. split; [intros i Hi; lia|now left].
  - destruct Hlast as [->|Hlast].
    + destruct (rateLimited (start + retries) text) eqn:Hr.
      * exists (S retries). split; [lia|]. split; [|now left].
        intros i Hi. destruct (decide (i = retries)) as [->|Hne]; [exact Hr|].
        apply Hall. lia.
      * exists retries. split; [lia|]. split; [exact Hall|now right].
    + exists k. split; [lia|]. split; [exact Hall|now right].
Qed.

Lemma sumZ_app (l1 l2 : list Z) : sumZ (l1 ++ l2) = sumZ l1 + sumZ l2.
Proof. unfold sumZ. induction l1 as [|x l1 IH]; cbn [app foldr]; lia. Qed.

Lemma sumZ_backoff (k : nat) : forall delay, sumZ (backoff delay k) = delay * (2 ^ Z.of_nat k - 1).
Proof.
  induction k as [|k IH]; intros delay; cbn [backoff].
  - cbn. lia.
  - rewrite sumZ_app, IH. cbn [sumZ foldr].
    rewrite Nat2Z.inj_succ, Z.pow_succ_r by lia. lia.
Qed.

(** X6.  The cost of one analysis, whatever the model answers.  A call of
    [analyzeChunk] with [retries] retries makes [k + 1] calls of the model
    for some [k <= retries], returns the outcome of the last one and sleeps
    [delay], [2 * delay], ... [k] times, in total [delay * (2^k - 1)] and so
    at most [delay * (2^retries - 1)].  With the budget of the call sites
    that is between one and four model calls and at most 14000 ms of
    sleep. *)
Theorem analyzeChunk_bounded (w : World) (text : string) :
  (forall (retries : nat) (delay : Z),
     let w' := after (analyzeChunk text retries delay) w in
     exists k,
       (k <= retries)%nat
       /\ outcome (analyzeChunk text retries delay) w = attemptResult (genCalls w + k) text
       /\ genCalls w' = (genCalls w + k + 1)%nat
       /\ sleepsOf (trace w') = (backoff delay k ++ sleepsOf (trace w))%list
       /\ sumZ (backoff delay k) = delay * (2 ^ Z.of_nat k - 1)
       /\ (0 <= delay -> sumZ (backoff delay k) <= delay * (2 ^ Z.of_nat retries - 1)))
  /\ (let w' := after (analyzeChunkDefault text) w in
      (genCalls w < genCalls w' <= genCalls w + 4)%nat
      /\ exists slept,
           sleepsOf (trace w') = (slept ++ sleepsOf (trace w))%list
           /\ 0 <= sumZ slept <= 14000).
Proof.
  assert (forall (retries : nat) (delay : Z),
     let w' := after (analyzeChunk text retries delay) w in
     exists k,
       (k <= retries)%nat
       /\ outcome (analyzeChunk text retries delay) w = attemptResult (genCalls w + k) text
       /\ genCalls w' = (genCalls w + k + 1)%nat
       /\ sleepsOf (trace w') = (backoff delay k ++ sleepsOf (trace w))%list
       /\ sumZ (backoff delay k) = delay * (2 ^ Z.of_nat k - 1)
       /\ (0 <= delay -> sumZ (backoff delay k) <= delay * (2 ^ Z.of_nat retries - 1)))
    as Hgeneral.
  { intros retries delay w'. subst w'.
    destruct (rateLimited_prefix text (genCalls w) retries) as (k & Hk & Hall & Hlast).
    destruct (analyzeChunk_backoff text k retries delay w Hk Hall Hlast)
      as (Hout & Hcalls & Hsleeps).
    exists k. repeat (split; [assumption|]). split; [apply sumZ_backoff|].
    intros Hdelay. rewrite sumZ_backoff.
    apply Z.mul_le_mono_nonneg_l; [assumption|].
    apply Z.sub_le_mono_r, Z.pow_le_mono_r; lia. }
  split; [exact Hgeneral|].
  destruct (Hgeneral 3%nat 2000) as (k & Hk & _ & Hcalls & Hsleeps & Hsum & Hbound).
  fold (analyzeChunkDefault text) in Hcalls, Hsleeps.
  cbv zeta. split; [rewrite Hcalls; lia|].
  exists (backoff 2000 k). split; [exact Hsleeps|].
  specialize (Hbound ltac:(lia)). change (2000 * (2 ^ Z.of_nat 3 - 1)) with 14000 in Hbound.
  split; [|exact Hbound]. rewrite Hsum.
  assert (0 < 2 ^ Z.of_nat k) by (apply Z.pow_pos_nonneg; lia). lia.
Qed.

(** ** The JSON object in a response *)

Lemma occurs_app (c : ascii) (s1 s2 : string) :
  occurs c (s1 +:+ s2) = occurs c s1 || occurs c s2.
Proof.
  induction s1 as [|a s1 IH]; simpl; [reflexivity|].
  now rewrite IH, orb_assoc.
Qed.

Lemma fromFirst_first (c : ascii) (pre rest : string) :
  occurs c pre = false -> fromFirst c (pre +:+ String c rest) = Some (String c rest).
Proof.
  induction pre as [|a pre IH]; simpl.
  - intros _. now rewrite Ascii.eqb_refl.
  - intros Hpre. apply orb_false_elim in Hpre as [Ha Hpre]. rewrite Ha. now apply IH.
Qed.

Lemma fromFirst_inv (c : ascii) (s t : string) :
  fromFirst c s = Some t ->
  exists pre rest, s = pre +:+ String c rest /\ t = String c rest /\ occurs c pre = false.
Proof.
  induction s as [|a s IH]; cbn; [discriminate|].
  destruct (Ascii.eqb_spec a c) as [->|Hne].
  - intros [= <-]. now exists EmptyString, s.
  - intros Ht. destruct (IH Ht) as (pre & rest & -> & -> & Hpre).
    exists (String a pre), rest. repeat split. cbn. rewrite Hpre.
    now apply Ascii.eqb_neq in Hne as ->.
Qed.

Lemma fromFirst_none (c : ascii) (s : string) : fromFirst c s = None <-> occurs c s = false.
Proof.
  induction s as [|a s IH]; cbn; [tauto|].
  destruct (Ascii.eqb a c); cbn; [split; discriminate|exact IH].
Qed.

Lemma lastIndexOf_last (c : ascii) (body post : string) :
  occurs c post = false ->
  lastIndexOf c (body +:+ String c post) = Some (String.length body).
Proof.
  intros Hpost.
  assert (lastIndexOf c post = None) as Hnone.
  { induction post as [|a post IH]; cbn in *; [reflexivity|].
    apply orb_false_elim in Hpost as [Ha Hpost]. now rewrite IH, Ha. }
  induction body as [|a body IH]; simpl.
  - now rewrite Hnone, Ascii.eqb_refl.
  - now rewrite IH.
Qed.

Lemma lastIndexOf_inv (c : ascii) (s : string) (i : nat) :
  lastIndexOf c s = Some i ->
  exists body post, s = body +:+ String c post /\ i = String.length body
                    /\ occurs c post = false.
Proof.
  revert i. induction s as [|a s IH]; intros i; cbn; [discriminate|].
  destruct (lastIndexOf c s) as [j|] eqn:Hj.
  - intros [= <-]. destruct (IH j eq_refl) as (body & post & -> & -> & Hpost).
    now exists (String a body), post.
  - destruct (Ascii.eqb_spec a c) as [->|Hne]; [|discriminate].
    intros [= <-]. exists EmptyString, s. repeat split.
    clear IH. induction s as [|b s IH]; cbn in *; [reflexivity|].
    destruct (lastIndexOf c s); [discriminate|].
    destruct (Ascii.eqb b c); [discriminate|]. now apply IH.
Qed.

Lemma lastIndexOf_none (c : ascii) (s : string) : lastIndexOf c s = None <-> occurs c s = false.
Proof.
  induction s as [|a s IH]; cbn; [tauto|].
  destruct (lastIndexOf c s).
  - split; [discriminate|]. intros Hs. apply orb_false_elim in Hs as [_ Hs].
    now apply IH in Hs.
  - destruct (Ascii.eqb a c); cbn; [split; discriminate|]. split; [|reflexivity].
    intros _. now apply IH.
Qed.

Lemma substring_through (c : ascii) (body post : string) :
  substring 0 (S (String.length body)) (body +:+ String c post) = body +:+ String c EmptyString.
Proof.
  induction body as [|a body IH]; simpl.
  - now destruct post.
  - now rewrite IH.
Qed.

Lemma fromFirst_suffix (c : ascii) (pre rest t : string) :
  fromFirst c (pre +:+ String c rest) = Some t -> exists u, t = u +:+ String c rest.
Proof.
  induction pre as [|a pre IH]; simpl.
  - rewrite Ascii.eqb_refl. intros [= <-]. now exists EmptyString.
  - destruct (Ascii.eqb a c).
    + intros [= <-]. now exists (String a pre).
    + apply IH.
Qed.

(** X7.  What the brace pattern extracts from a response.  The match is
    exactly the text from the first opening brace to the last closing
    brace after it, and there is no match exactly when no opening brace is
    followed by a closing brace. *)
Theorem jsonMatch_spec (responseText : string) :
  (forall m,
     jsonMatch responseText = Some m
     <-> exists pre body post,
           responseText = pre +:+ "{" +:+ body +:+ "}" +:+ post
           /\ m = "{" +:+ body +:+ "}"
           /\ occurs "{" pre = false
           /\ occurs "}" post = false)
  /\ (jsonMatch responseText = None
      <-> forall pre rest, responseText = pre +:+ "{" +:+ rest -> occurs "}" rest = false).
Proof.
  split.
  - intros m. unfold jsonMatch. split.
    + destruct (fromFirst "{" responseText) as [[|open rest]|] eqn:Hfirst; try discriminate.
      destruct (fromFirst_inv _ _ _ Hfirst) as (pre & rest' & -> & [= -> <-] & Hpre).
      destruct (lastIndexOf "}" rest) as [i|] eqn:Hlast; [|discriminate].
      destruct (lastIndexOf_inv _ _ _ Hlast) as (body & post & -> & -> & Hpost).
      intros [= <-]. exists pre, body, post. repeat split; try assumption.
      simpl. f_equal. apply substring_through.
    + intros (pre & body & post & -> & -> & Hpre & Hpost).
      change ("{" +:+ body +:+ "}" +:+ post) with (String "{" (body +:+ String "}" post)).
      rewrite fromFirst_first by assumption.
      rewrite lastIndexOf_last by assumption.
      simpl. do 2 f_equal. apply substring_through.
  - unfold jsonMatch. split.
    + intros Hnone pre rest ->.
      change ("{" +:+ rest) with (String "{" rest) in *.
      destruct (fromFirst "{" (pre +:+ String "{" rest)) as [t|] eqn:Hfirst.
      * destruct (fromFirst_suffix _ _ _ _ Hfirst) as [u ->].
        destruct u as [|a u]; simpl in Hnone.
        -- destruct (lastIndexOf "}" rest) eqn:Hl; [discriminate|]. now apply lastIndexOf_none.
        -- destruct (lastIndexOf "}" (u +:+ String "{" rest)) eqn:Hl; [discriminate|].
           apply lastIndexOf_none in Hl. rewrite occurs_app in Hl.
           apply orb_false_elim in Hl as [_ Hl]. cbn in Hl. exact Hl.
      * apply fromFirst_none in Hfirst. rewrite occurs_app in Hfirst.
        apply orb_false_elim in Hfirst as [_ Hfirst]. cbn in Hfirst. discriminate.
    + intros Hall.
      destruct (fromFirst "{" responseText) as [[|open rest]|] eqn:Hfirst; try reflexivity.
      destruct (fromFirst_inv _ _ _ Hfirst) as (pre & rest' & -> & [= -> <-] & Hpre).
      specialize (Hall pre rest eq_refl). apply lastIndexOf_none in Hall. now rewrite Hall.
Qed.

(** ** The completion helper of the data model *)

(** X8.  The helper of the data model and the condition of the watcher.  A
    status record that meets the watcher's condition satisfies
    [isProcessingComplete]; on a record whose two counts are numbers the
    watcher's condition is the helper's answer together with a positive
    total, so the two differ on numeric records only where the total is 0
    or less. *)
Theorem isProcessingComplete_eligible (status : Item) :
  (eligible status = true -> isProcessingComplete status = true)
  /\ (forall p n,
        status !! "processedPages" = Some (AttrN p) ->
        status !! "totalPages" = Some (AttrN n) ->
        eligible status = isProcessingComplete status && (0 <? n)).
Proof.
  unfold eligible, isProcessingComplete. split.
  - rewrite !andb_true_iff. intros [[Hsk Hnum] Hst].
    destruct (status !! "processedPages") as [[|p|]|] eqn:Hp; try discriminate.
    destruct (status !! "totalPages") as [[|n|]|] eqn:Hn; try discriminate.
    apply andb_true_iff in Hnum as [Heq _]. apply Z.eqb_eq in Heq as ->.
    repeat split; try assumption; now apply bool_decide_eq_true_2.
  - intros p n -> ->.
    rewrite (bool_decide_eq_true_2 (Some (AttrN p) <> None)) by discriminate.
    rewrite (bool_decide_eq_true_2 (Some (AttrN n) <> None)) by discriminate.
    rewrite !andb_true_r.
    destruct (bool_decide (status !! "SK" = Some (AttrS "STATUS"))); [|reflexivity].
    cbn [andb].
    destruct (Z.eqb_spec p n) as [->|Hne].
    + rewrite (bool_decide_eq_true_2 (Some (AttrN n) = Some (AttrN n))) by reflexivity.
      cbn [andb]. apply andb_comm.
    + rewrite (bool_decide_eq_false_2 (Some (AttrN p) = Some (AttrN n))) by congruence.
      reflexivity.
Qed.

(** ** Writing a page the query selects *)

Lemma filter_insert_Permutation (pk skPrefix : string) (t : Table) (k : Key) (v : Item) :
  keyCondition pk skPrefix (k, v) = true ->
  List.filter (keyCondition pk skPrefix) (map_to_list (<[k := v]> t))
  ≡ₚ (k, v) :: List.filter (keyCondition pk skPrefix) (map_to_list (delete k t)).
Proof.
  intros Hk.
  transitivity (List.filter (keyCondition pk skPrefix) ((k, v) :: map_to_list (delete k t))).
  - apply filter_Permutation_bool. rewrite <- (insert_delete_eq t k v).
    apply map_to_list_insert, lookup_delete_eq.
  - cbn [List.filter]. now rewrite Hk.
Qed.

Lemma filter_stored_Permutation (pk skPrefix : string) (t : Table) (k : Key) (old v : Item) :
  keyCondition pk skPrefix (k, v) = true -> t !! k = Some old ->
  List.filter (keyCondition pk skPrefix) (map_to_list t)
  ≡ₚ (k, old) :: List.filter (keyCondition pk skPrefix) (map_to_list (delete k t)).
Proof.
  intros Hk Hold.
  transitivity (List.filter (keyCondition pk skPrefix) ((k, old) :: map_to_list (delete k t))).
  - apply filter_Permutation_bool. rewrite <- (insert_delete_id t k old Hold) at 1.
    apply map_to_list_insert, lookup_delete_eq.
  - cbn [List.filter]. now replace (keyCondition pk skPrefix (k, old)) with true.
Qed.

(** A write under a selected key replaces the record stored there, or adds
    one. *)
Lemma queryItems_insert_length (pk skPrefix : string) (t : Table) (k : Key) (v : Item) :
  keyCondition pk skPrefix (k, v) = true ->
  length (queryItems pk skPrefix (<[k := v]> t))
  = if t !! k is Some _ then length (queryItems pk skPrefix t)
    else S (length (queryItems pk skPrefix t)).
Proof.
  intros Hk. unfold queryItems. rewrite !length_fmap.
  rewrite !(Permutation_length (merge_sort_Permutation _ _)).
  rewrite (Permutation_length (filter_insert_Permutation pk skPrefix t k v Hk)).
  destruct (t !! k) as [old|] eqn:Hold.
  - now rewrite (Permutation_length (filter_stored_Permutation pk skPrefix t k old v Hk Hold)).
  - now rewrite (delete_id t k Hold).
Qed.

(** A write under a selected key that sorts after every selected record
    comes last in the answer. *)
Lemma queryEntries_insert_last (pk skPrefix : string) (t : Table) (k : Key) (v : Item) :
  keyCondition pk skPrefix (k, v) = true ->
  (forall e, e ∈ queryEntries pk skPrefix t -> String.ltb e.1.2 k.2 = true) ->
  queryEntries pk skPrefix (<[k := v]> t) = (queryEntries pk skPrefix t ++ [(k, v)])%list.
Proof.
  intros Hk Hlast.
  assert (k.1 = pk /\ String.prefix skPrefix k.2 = true) as [Hpk Hpre].
  { unfold keyCondition in Hk. cbn [fst snd] in Hk.
    apply andb_true_iff in Hk as [Hpk Hpre]. now apply String.eqb_eq in Hpk. }
  assert (t !! k = None) as Hfresh.
  { destruct (t !! k) as [old|] eqn:Hold; [|reflexivity].
    assert ((k, old) ∈ queryEntries pk skPrefix t) as Hin by now apply elem_of_queryEntries.
    apply Hlast in Hin. cbn [fst snd] in Hin. now rewrite string_ltb_irrefl in Hin. }
  apply (StronglySorted_unique_strong skLe).
  - intros x y Hx Hy Hxy Hyx.
    assert (x.1.2 = y.1.2) as Hsk by (apply String.leb_antisym; assumption).
    apply elem_of_queryEntries in Hx as (Hx & Hpx & _).
    apply elem_of_app in Hy as [Hy|Hy].
    + pose proof (Hlast y Hy) as Hlt.
      apply elem_of_queryEntries in Hy as (Hy & Hpy & _).
      destruct x as [[px sx] vx], y as [[py sy] vy]. cbn [fst snd] in *. subst.
      rewrite lookup_insert_ne in Hx; [congruence|].
      intros Heq. rewrite Heq in Hlt. cbn [snd] in Hlt.
      now rewrite string_ltb_irrefl in Hlt.
    + apply list_elem_of_singleton in Hy as ->.
      destruct x as [[px sx] vx], k as [pk' sk']. cbn [fst snd] in *. subst.
      rewrite lookup_insert_eq in Hx. congruence.
  - apply queryEntries_sorted.
  - apply StronglySorted_app_2; [|apply queryEntries_sorted|repeat constructor].
    intros x y Hx Hy. apply list_elem_of_singleton in Hy as ->.
    unfold skLe. cbn [fst snd]. apply string_leb_ltb. left. now apply Hlast.
  - unfold queryEntries. rewrite !merge_sort_Permutation.
    rewrite (filter_insert_Permutation pk skPrefix t k v Hk), (delete_id t k Hfresh).
    apply Permutation_cons_append.
Qed.

(** ** The worker on a whole document *)

(** What one iteration of the page loop leaves in the table. *)
Lemma processPage_writes (docId tenant : string) (i : nat) (chunk : string) (w : World) :
  exists at_,
    table (after (processPage docId tenant i chunk) w)
    = match counterOf (statusItem (table w) docId) with
      | Some p =>
          <[documentStatusKeys docId :=
              <["updatedAt" := AttrS at_]>
                (<["processedPages" := AttrN (p + 1)]> (statusItem (table w) docId))]>
            (<[documentPageKeys docId (Z.of_nat i + 1) := pageRecord docId tenant i chunk w]>
               (table w))
      | None =>
          <[documentPageKeys docId (Z.of_nat i + 1) := pageRecord docId tenant i chunk w]>
            (table w)
      end.
Proof.
  unfold pageRecord, pageText.
  pose proof (analyzeChunk_storeView chunk 3 2000 w) as Hview.
  unfold processPage, analyzeChunkDefault, outcome, after, storeView in *.
  unfold tryCatchFinally, tryCatch, bind, sleep, logEvent, ret.
  destruct (analyzeChunk chunk 3 2000 w) as [[analysis|e] w1]; cbn [fst snd] in *;
    injection Hview as Htable Hbucket Htime Hsends Huploads.
  - eexists. rewrite savePageAttributes_run, incrementProcessedPages_cases.
    cbn [table]. rewrite statusItem_insert_page, Htable.
    rewrite (pageItem_time _ _ _ _ _ w1 w Htime).
    destruct (counterOf (statusItem (table w) docId)) as [p|] eqn:Hp;
      cbn [fst snd table addEvent]; reflexivity.
  - eexists. unfold newDateISO. rewrite savePageAttributes_run, incrementProcessedPages_cases.
    cbn [table tick time]. rewrite statusItem_insert_page, Htable.
    rewrite (pageItem_time _ _ _ _ _ (tick w1) (tick w)) by (cbn; now rewrite Htime).
    unfold stamp at 1. rewrite Htime. fold (stamp w).
    destruct (counterOf (statusItem (table w) docId)) as [p|] eqn:Hp;
      cbn [fst snd table addEvent tick]; reflexivity.
Qed.

Lemma pageRecord_number (docId tenant : string) (i : nat) (chunk : string) (w : World) :
  pageRecord docId tenant i chunk w !! "pageNumber" = Some (AttrN (Z.of_nat i + 1)).
Proof.
  unfold pageRecord, pageItem. cbn [marshall].
  rewrite !lookup_insert_ne by discriminate. now rewrite lookup_insert_eq.
Qed.

Lemma page_keyCondition (docId : string) (n : Z) (v : Item) :
  keyCondition ("DOC#" +:+ docId) "PAGE#" (documentPageKeys docId n, v) = true.
Proof.
  unfold keyCondition. cbn [fst snd]. rewrite documentPageKeys_SK, pageSK_prefix.
  unfold documentPageKeys. cbn [fst]. now rewrite String.eqb_refl.
Qed.

(** The status item and the page entries after the page loop. *)
Lemma pageLoop_effect (docId tenant : string) (chunks : list string) :
  forall (i : nat) (w : World) (p : Z),
    counterOf (statusItem (table w) docId) = Some p ->
    let w' := after (pageLoop docId tenant i chunks) w in
    (forall attr, attr <> "processedPages" -> attr <> "updatedAt" ->
                  statusItem (table w') docId !! attr = statusItem (table w) docId !! attr)
    /\ (is_Some (table w !! documentStatusKeys docId) ->
        is_Some (table w' !! documentStatusKeys docId))
    /\ (statusItem (table w) docId !! "processedPages" = Some (AttrN p) ->
        statusItem (table w') docId !! "processedPages"
        = Some (AttrN (p + Z.of_nat (length chunks))))
    /\ (Z.of_nat (i + length chunks) <= 9999 ->
        (forall e, e ∈ queryEntries ("DOC#" +:+ docId) "PAGE#" (table w) ->
                   exists k, 0 <= k <= Z.of_nat i /\ e.1.2 = pageSK k) ->
        fetchedPages w' docId
        = (fetchedPages w docId ++ loopRecords docId tenant i chunks w)%list).
Proof.
  induction chunks as [|chunk chunks IH]; intros i w p Hp w'; subst w'.
  - unfold after. cbn [pageLoop ret snd length loopRecords].
    rewrite Z.add_0_r, app_nil_r. auto.
  - destruct (processPage_spec docId tenant i chunk w) as (_ & _ & _ & _ & Hcounter).
    destruct (Hcounter p Hp) as [Hok Hnext]. clear Hcounter.
    destruct (processPage_writes docId tenant i chunk w) as [at_ Htable].
    rewrite Hp in Htable.
    destruct (IH (S i) (after (processPage docId tenant i chunk) w) (p + 1) Hnext)
      as (Hattr & Hstored & Hprocessed & Hpages).
    assert (after (pageLoop docId tenant i (chunk :: chunks)) w
            = after (pageLoop docId tenant (S i) chunks)
                (after (processPage docId tenant i chunk) w)) as ->.
    { cbn [pageLoop]. unfold outcome, after, bind in *.
      now destruct (processPage docId tenant i chunk w) as [[[]|e] w1]. }
    set (w1 := after (processPage docId tenant i chunk) w) in *.
    assert (statusItem (table w1) docId
            = <["updatedAt" := AttrS at_]>
                (<["processedPages" := AttrN (p + 1)]> (statusItem (table w) docId))) as Hitem
      by (rewrite Htable; apply statusItem_insert).
    split; [|split; [|split]].
    + intros attr H1 H2. rewrite Hattr, Hitem by assumption.
      now rewrite !lookup_insert_ne by congruence.
    + intros _. apply Hstored. rewrite Htable. rewrite lookup_insert_eq. eauto.
    + intros _. rewrite Hprocessed.
      * cbn [length]. do 2 f_equal. lia.
      * rewrite Hitem. rewrite lookup_insert_ne by discriminate. apply lookup_insert_eq.
    + cbn [length loopRecords]. intros Hrange Hbelow.
      assert (queryEntries ("DOC#" +:+ docId) "PAGE#" (table w1)
              = (queryEntries ("DOC#" +:+ docId) "PAGE#" (table w)
                 ++ [(documentPageKeys docId (Z.of_nat i + 1),
                      pageRecord docId tenant i chunk w)])%list) as Hentries.
      { rewrite Htable.
        rewrite queryEntries_insert_other by apply status_key_not_queried.
        apply queryEntries_insert_last; [apply page_keyCondition|].
        intros e He. destruct (Hbelow e He) as (k & Hk & ->).
        rewrite documentPageKeys_SK. apply pageSK_lt; lia. }
      rewrite Hpages.
      * unfold fetchedPages at 1. rewrite queryItems_entries, Hentries.
        rewrite fmap_app. cbn [fmap list_fmap snd]. fold w1.
        rewrite <- app_assoc. reflexivity.
      * lia.
      * intros e He. rewrite Hentries in He. apply elem_of_app in He as [He|He].
        -- destruct (Hbelow e He) as (k & Hk & Hsk). exists k. split; [lia|assumption].
        -- apply list_elem_of_singleton in He as ->. exists (Z.of_nat i + 1).
           split; [lia|]. apply documentPageKeys_SK.
Qed.

Lemma loopRecords_numbers (docId tenant : string) (chunks : list string) :
  forall (i : nat) (w : World),
    pageNumberOf <$> loopRecords docId tenant i chunks w
    = Some <$> countFrom (Z.of_nat i + 1) (length chunks).
Proof.
  induction chunks as [|chunk chunks IH]; intros i w; [reflexivity|].
  cbn [loopRecords length countFrom]. rewrite !fmap_cons, IH, Nat2Z.inj_succ, <- Z.add_1_r.
  unfold pageNumberOf at 1. now rewrite pageRecord_number.
Qed.

(** ** Reading back what was written *)

Lemma getPage_run (docId : string) (n : Z) (w : World) :
  outcome (getPage docId n) w = Ok (table w !! documentPageKeys docId n).
Proof. reflexivity. Qed.

Lemma getDocumentStatus_run (docId : string) (w : World) :
  outcome (getDocumentStatus docId) w = Ok (table w !! documentStatusKeys docId).
Proof. reflexivity. Qed.

(** X9.  [savePageAttributes] returns the page record it stores;
    [getPage] then returns that record and [getDocumentPages] lists it.
    Writing a page number that already has a record replaces the record,
    so the number of page records stays the same, and a new page number
    adds one.  The records of other page numbers and the status records
    are read back as before. *)
Theorem savePageAttributes_round_trip (w : World) (docId tenant : string) (n : Z)
    (a : option string) (c : option (list string)) :
  let item := pageItem docId tenant n a c w in
  let w' := after (savePageAttributes docId tenant n a c) w in
  outcome (savePageAttributes docId tenant n a c) w = Ok item
  /\ outcome (getPage docId n) w' = Ok (Some item)
  /\ (exists pages,
        outcome (getDocumentPages docId) w' = Ok pages
        /\ item ∈ pages
        /\ length pages
           = if table w !! documentPageKeys docId n is Some _
             then length (fetchedPages w docId)
             else S (length (fetchedPages w docId)))
  /\ (forall m, documentPageKeys docId m <> documentPageKeys docId n ->
                outcome (getPage docId m) w' = outcome (getPage docId m) w)
  /\ (forall f, outcome (getDocumentStatus f) w' = outcome (getDocumentStatus f) w).
Proof.
  intros item w'.
  assert (table w' = <[documentPageKeys docId n := item]> (table w)) as Htable
    by (subst w'; unfold after; now rewrite savePageAttributes_run).
  split; [unfold outcome; now rewrite savePageAttributes_run|].
  rewrite !getPage_run, Htable.
  split; [now rewrite lookup_insert_eq|]. split; [|split].
  - exists (fetchedPages w' docId).
    split; [unfold outcome; now rewrite getDocumentPages_run|].
    unfold fetchedPages. rewrite Htable. split.
    + rewrite queryItems_entries. apply list_elem_of_fmap.
      exists (documentPageKeys docId n, item). split; [reflexivity|].
      apply elem_of_queryEntries. cbn [fst snd]. rewrite lookup_insert_eq.
      split; [reflexivity|]. split; [reflexivity|].
      rewrite documentPageKeys_SK. apply pageSK_prefix.
    + apply queryItems_insert_length, page_keyCondition.
  - intros m Hm. rewrite !getPage_run, Htable. now rewrite lookup_insert_ne by congruence.
  - intros f. rewrite !getDocumentStatus_run, Htable.
    now rewrite lookup_insert_ne by apply page_key_not_status.
Qed.

(** ** What the worker spends *)

Lemma spends_free {A} (m : M A) :
  preserves (fun w => (genCalls w, sleepsOf (trace w))) m -> spends m 0 0.
Proof.
  intros Hm. split; [lia|]. intros w. specialize (Hm w). injection Hm as Hcalls Hsleeps.
  unfold slept. rewrite Hcalls, Hsleeps. lia.
Qed.

Lemma spends_weaken {A} (m : M A) (a a' : nat) (b b' : Z) :
  (a <= a')%nat -> b <= b' -> spends m a b -> spends m a' b'.
Proof.
  intros Ha Hb [Hpos Hm]. split; [lia|]. intros w. specialize (Hm w). lia.
Qed.

Lemma spends_bind {A B} (m : M A) (k : A -> M B) (a a' : nat) (b b' : Z) :
  0 <= b' -> spends m a b -> (forall x, spends (k x) a' b') ->
  spends (bind m k) (a + a') (b + b').
Proof.
  intros Hb' [Hb Hm] Hk. split; [lia|]. intros w. specialize (Hm w).
  unfold after, bind in *. destruct (m w) as [[x|e] w1]; cbn [snd] in *; [|lia].
  destruct (Hk x) as [_ Hkx]. specialize (Hkx w1). unfold after in Hkx. lia.
Qed.

Lemma spends_tryCatch {A} (body : M A) (handler : JsError -> M A) (a a' : nat) (b b' : Z) :
  0 <= b' -> spends body a b -> (forall e, spends (handler e) a' b') ->
  spends (tryCatch body handler) (a + a') (b + b').
Proof.
  intros Hb' [Hb Hm] Hk. split; [lia|]. intros w. specialize (Hm w).
  unfold after, tryCatch in *. destruct (body w) as [[x|e] w1]; cbn [snd] in *; [lia|].
  destruct (Hk e) as [_ Hke]. specialize (Hke w1). unfold after in Hke. lia.
Qed.

Lemma spends_tryCatchFinally {A} (body : M A) (handler : JsError -> M A) (fin : M unit)
    (a : nat) (b : Z) :
  spends (tryCatch body handler) a b -> spends fin 0 0 ->
  spends (tryCatchFinally body handler fin) a b.
Proof.
  intros [Hb Hm] [_ Hfin]. split; [lia|]. intros w. specialize (Hm w).
  unfold after, tryCatchFinally in *. destruct (tryCatch body handler w) as [r w1].
  specialize (Hfin w1). unfold after in Hfin. cbn [snd] in *.
  destruct (fin w1) as [[[]|e] w2]; cbn [snd] in *; lia.
Qed.

Lemma send_free (c : Command) : spends (send c) 0 0.
Proof. apply spends_free. intros w. unfold after, send. now destruct (exec c (table w)). Qed.

Lemma newDateISO_free : spends newDateISO 0 0.
Proof. apply spends_free. intros w. reflexivity. Qed.

Lemma updateDocumentStatus_free docId updates : spends (updateDocumentStatus docId updates) 0 0.
Proof. apply spends_free. intros w. unfold after. now rewrite updateDocumentStatus_run. Qed.

Lemma updateTotalPages_free docId tenant n : spends (updateTotalPages docId tenant n) 0 0.
Proof. apply spends_free. intros w. unfold after. now rewrite updateTotalPages_run. Qed.

Lemma savePageAttributes_free docId tenant n a c :
  spends (savePageAttributes docId tenant n a c) 0 0.
Proof. apply spends_free. intros w. unfold after. now rewrite savePageAttributes_run. Qed.

Lemma incrementProcessedPages_free docId : spends (incrementProcessedPages docId) 0 0.
Proof.
  apply spends_free. intros w. unfold after. rewrite incrementProcessedPages_cases.
  now destruct (counterOf _).
Qed.

Lemma sleep_spends (ms : Z) : 0 <= ms -> spends (sleep ms) 0 ms.
Proof.
  intros Hms. split; [assumption|]. intros w. unfold after, sleep, logEvent, slept.
  cbn [snd genCalls addEvent trace sleepsOf sumZ foldr]. fold (sumZ (sleepsOf (trace w))). lia.
Qed.

Lemma backoff_nonneg (k : nat) : forall delay, 0 <= delay -> 0 <= sumZ (backoff delay k).
Proof.
  intros delay Hdelay. rewrite sumZ_backoff.
  assert (0 < 2 ^ Z.of_nat k) by (apply Z.pow_pos_nonneg; lia). nia.
Qed.

Lemma analyzeChunk_spends (text : string) (retries : nat) (delay : Z) :
  0 <= delay ->
  spends (analyzeChunk text retries delay) (S retries) (delay * (2 ^ Z.of_nat retries - 1)).
Proof.
  intros Hdelay.
  assert (forall k, (k <= retries)%nat ->
            sumZ (backoff delay k) <= delay * (2 ^ Z.of_nat retries - 1)) as Hbound.
  { intros k Hk. rewrite sumZ_backoff. apply Z.mul_le_mono_nonneg_l; [assumption|].
    apply Z.sub_le_mono_r, Z.pow_le_mono_r; lia. }
  split.
  - rewrite <- (sumZ_backoff retries). now apply backoff_nonneg.
  - intros w.
    destruct (rateLimited_prefix text (genCalls w) retries) as (k & Hk & Hall & Hlast).
    destruct (analyzeChunk_backoff text k retries delay w Hk Hall Hlast)
      as (_ & Hcalls & Hsleeps).
    unfold slept. rewrite Hcalls, Hsleeps, sumZ_app.
    pose proof (backoff_nonneg k delay Hdelay). specialize (Hbound k Hk). lia.
Qed.

Lemma processPage_spends (docId tenant : string) (i : nat) (chunk : string) :
  spends (processPage docId tenant i chunk) 4 15000.
Proof.
  unfold processPage, analyzeChunkDefault.
  apply (spends_bind _ _ 4 0 14000 1000); [lia| |intros _; now apply sleep_spends].
  apply spends_tryCatchFinally.
  - apply (spends_tryCatch _ _ 4 0 14000 0); [lia| |].
    + apply (spends_bind _ _ 4 0 14000 0); [lia|now apply (analyzeChunk_spends chunk 3 2000)|].
      intros analysis.
      apply (spends_bind _ _ 0 0 0 0); [lia|apply savePageAttributes_free|].
      intros _. apply spends_free. apply preserves_ret.
    + intros e. apply (spends_bind _ _ 0 0 0 0); [lia|apply newDateISO_free|].
      intros at_. apply (spends_bind _ _ 0 0 0 0); [lia|apply savePageAttributes_free|].
      intros _. apply spends_free. apply preserves_ret.
  - apply (spends_bind _ _ 0 0 0 0); [lia|apply incrementProcessedPages_free|].
    intros _. apply spends_free. apply preserves_ret.
Qed.

Lemma pageLoop_spends (docId tenant : string) (chunks : list string) :
  forall i, spends (pageLoop docId tenant i chunks)
              (4 * length chunks) (15000 * Z.of_nat (length chunks)).
Proof.
  induction chunks as [|chunk chunks IH]; intros i; cbn [pageLoop].
  - apply spends_free. apply preserves_ret.
  - eapply spends_weaken;
      [| |apply (spends_bind _ _ 4 (4 * length chunks) 15000
                   (15000 * Z.of_nat (length chunks)));
          [lia|apply processPage_spends|intros _; apply IH]];
      cbn [length]; lia.
Qed.

(** X10.  What a run of the worker spends, whatever happens in it: at most
    four calls of the model and at most fifteen seconds of sleep for each
    chunk found in the document, and none of either when the download or
    the parse fails. *)
Theorem processDocument_cost (docId tenant s3Key bucket : string) (w : World) :
  let w' := after (processDocument docId tenant s3Key bucket) w in
  let chunks := chunkCount bucket s3Key in
  (genCalls w <= genCalls w' <= genCalls w + 4 * chunks)%nat
  /\ slept w <= slept w' <= slept w + 15000 * Z.of_nat chunks.
Proof.
  intros w' chunks. subst w' chunks. unfold chunkCount.
  destruct (updateDocumentStatus_free docId [("overallStatus", Some (AttrS "failed"))])
    as [_ Hfailed].
  unfold after, processDocument, s3Download, tryCatch, bind, logEvent, liftResult in *.
  rewrite updateStatus_run. cbv beta iota. unfold updateStatus.
  set (w1 := addEvent (EvDownload bucket s3Key) _).
  assert (genCalls w1 = genCalls w /\ slept w1 = slept w) as [Hcalls Hslept] by now split.
  destruct (downloadFile bucket s3Key) as [buffer|e].
  2:{ specialize (Hfailed w1). cbn [length] in *. lia. }
  destruct (pdf buffer) as [[n texts]|e].
  2:{ specialize (Hfailed w1). cbn [length] in *. lia. }
  destruct (updateTotalPages_free docId tenant n) as [_ Htotal]. specialize (Htotal w1).
  unfold after in Htotal. cbn [fst snd length] in *.
  destruct (updateTotalPages docId tenant n w1) as [[[]|e] w2]; cbn [fst snd] in *.
  - destruct (pageLoop_spends docId tenant texts O) as [_ Hloop]. specialize (Hloop w2).
    unfold after in Hloop.
    destruct (pageLoop docId tenant 0 texts w2) as [[[]|e] w3]; cbn [fst snd] in *; [lia|].
    specialize (Hfailed w3). lia.
  - specialize (Hfailed w2). lia.
Qed.

Lemma processDocument_loop (w : World) (docId tenant s3Key bucket buffer : string)
    (n : Z) (chunks : list string) (p : Z) :
  downloadFile bucket s3Key = Ok buffer -> pdf buffer = Ok (n, chunks) ->
  counterOf (statusItem (table w) docId) = Some p ->
  let start := loopStart docId tenant s3Key bucket n w in
  processDocument docId tenant s3Key bucket w = pageLoop docId tenant 0 chunks start
  /\ table start
     = <[documentStatusKeys docId :=
           <["updatedAt" := AttrS (toISOString (clockMs (S (time w))))]>
             (<["totalPages" := AttrN n]>
                (<["overallStatus" := AttrS "processing"]>
                   (<["updatedAt" := AttrS (stamp w)]> (statusItem (table w) docId))))]>
         (table w)
  /\ counterOf (statusItem (table start) docId) = Some p.
Proof.
  intros Hdownload Hpdf Hp start.
  assert (table start
     = <[documentStatusKeys docId :=
           <["updatedAt" := AttrS (toISOString (clockMs (S (time w))))]>
             (<["totalPages" := AttrN n]>
                (<["overallStatus" := AttrS "processing"]>
                   (<["updatedAt" := AttrS (stamp w)]> (statusItem (table w) docId))))]>
         (table w)) as Htable.
  { subst start. unfold loopStart, after. rewrite updateStatus_run. cbn [snd].
    rewrite updateTotalPages_run. unfold stamp. cbn [snd table time addEvent].
    rewrite statusItem_insert. apply insert_insert_eq. }
  assert (counterOf (statusItem (table start) docId) = Some p) as Hcounter.
  { rewrite Htable, statusItem_insert. unfold counterOf in *.
    now rewrite !lookup_insert_ne by discriminate. }
  split; [|split; assumption].
  pose proof (pageLoop_spec docId tenant chunks O start p Hcounter) as (Hok & _).
  subst start. unfold processDocument, s3Download, loopStart in *.
  unfold tryCatch, bind, logEvent, liftResult, outcome, after in *.
  rewrite updateStatus_run in *. cbv beta iota. rewrite Hdownload, Hpdf.
  cbn [fst snd] in *.
  destruct (updateTotalPages docId tenant n _) as [[[]|e] w2] eqn:Htotal.
  - cbn [fst snd] in *.
    destruct (pageLoop docId tenant 0 chunks w2) as [[[]|e] w3]; [reflexivity|discriminate].
  - rewrite updateTotalPages_run in Htotal. discriminate.
Qed.

Lemma processDocument_success (w : World) (docId tenant s3Key bucket buffer : string)
    (n : Z) (chunks : list string) (p : Z) :
  downloadFile bucket s3Key = Ok buffer -> pdf buffer = Ok (n, chunks) ->
  counterOf (statusItem (table w) docId) = Some p ->
  let w' := after (processDocument docId tenant s3Key bucket) w in
  let old := statusItem (table w) docId in
  outcome (processDocument docId tenant s3Key bucket) w = Ok tt
  /\ (exists item,
        table w' !! documentStatusKeys docId = Some item
        /\ item !! "overallStatus" = Some (AttrS "processing")
        /\ item !! "totalPages" = Some (AttrN n)
        /\ (old !! "processedPages" = Some (AttrN p) ->
            item !! "processedPages" = Some (AttrN (p + Z.of_nat (length chunks))))
        /\ (forall attr,
              attr ∉ ["processedPages"; "totalPages"; "overallStatus"; "updatedAt"] ->
              item !! attr = old !! attr))
  /\ (Z.of_nat (length chunks) <= 9999 -> fetchedPages w docId = [] ->
      fetchedPages w' docId
      = loopRecords docId tenant 0 chunks (loopStart docId tenant s3Key bucket n w)).
Proof.
  intros Hdownload Hpdf Hp w' old. subst w'.
  destruct (processDocument_loop w docId tenant s3Key bucket buffer n chunks p
              Hdownload Hpdf Hp) as (Hrun & Htable & Hcounter).
  set (start := loopStart docId tenant s3Key bucket n w) in *.
  destruct (pageLoop_spec docId tenant chunks O start p Hcounter) as (Hok & _).
  destruct (pageLoop_effect docId tenant chunks O start p Hcounter)
    as (Hattr & Hstored & Hprocessed & Hpages).
  unfold outcome, after in *. rewrite Hrun.
  split; [exact Hok|].
  assert (statusItem (table start) docId
          = <["updatedAt" := AttrS (toISOString (clockMs (S (time w))))]>
              (<["totalPages" := AttrN n]>
                 (<["overallStatus" := AttrS "processing"]>
                    (<["updatedAt" := AttrS (stamp w)]> old)))) as Hitem
    by (rewrite Htable; apply statusItem_insert).
  split.
  - destruct Hstored as [item Hstoreditem]; [rewrite Htable, lookup_insert_eq; eauto|].
    exists item. split; [exact Hstoreditem|].
    assert (statusItem (table (pageLoop docId tenant 0 chunks start).2) docId = item) as Hfinal
      by (unfold statusItem; now rewrite Hstoreditem).
    rewrite Hfinal in Hattr, Hprocessed. rewrite Hitem in Hattr, Hprocessed.
    split; [|split; [|split]].
    + rewrite Hattr by discriminate. rewrite !lookup_insert_ne by discriminate.
      apply lookup_insert_eq.
    + rewrite Hattr by discriminate. rewrite lookup_insert_ne by discriminate.
      apply lookup_insert_eq.
    + intros Hold. apply Hprocessed. now rewrite !lookup_insert_ne by discriminate.
    + intros attr Hnot. rewrite !not_elem_of_cons in Hnot.
      destruct Hnot as (H1 & H2 & H3 & H4 & _).
      rewrite Hattr by assumption. now rewrite !lookup_insert_ne by congruence.
  - intros Hrange Hnone.
    assert (fetchedPages start docId = []) as Hstart.
    { unfold fetchedPages. rewrite Htable, queryItems_insert_status. exact Hnone. }
    rewrite Hpages, Hstart; [reflexivity|lia|].
    intros e He. unfold fetchedPages in Hstart. rewrite queryItems_entries in Hstart.
    apply fmap_nil_inv in Hstart. rewrite Hstart in He. now apply elem_of_nil in He.
Qed.

(** X11.  What the worker hands over to the watcher.  When the download
    and the parse return [n] pages and the chunks [texts], a run of the
    worker on a status record whose counter holds [p] returns without an
    error and leaves the record at status processing, total [n] and
    counter [p + length texts].  The record it leaves meets the watcher's
    condition exactly when [p + length texts = n] and [n] is positive: not
    for a document with no pages, and not after a second run over a
    document whose counter has moved.  On its way the run goes through the
    record of its first write, the status update, which keeps the total
    and the counter it finds.  When these are equal and positive, as on a
    document that was processed or completed before, that record meets
    the condition: a scan at this point returns it and the poller calls
    the aggregator for it, and so does the stream handler on the change
    of this write when the record carries the ids of the document and the
    tenant; a second run is handed over at its start, not at its end. *)
Theorem processDocument_handoff (w : World) (docId tenant s3Key bucket buffer : string)
    (n : Z) (texts : list string) (old : Item) (p : Z) :
  downloadFile bucket s3Key = Ok buffer ->
  pdf buffer = Ok (n, texts) ->
  table w !! documentStatusKeys docId = Some old ->
  old !! "SK" = Some (AttrS "STATUS") ->
  old !! "processedPages" = Some (AttrN p) ->
  let w' := after (processDocument docId tenant s3Key bucket) w in
  let first := after (updateStatus docId tenant "processing") w in
  let image :=
    <["overallStatus" := AttrS "processing"]> (<["updatedAt" := AttrS (stamp w)]> old) in
  outcome (processDocument docId tenant s3Key bucket) w = Ok tt
  /\ (exists item,
        table w' !! documentStatusKeys docId = Some item
        /\ item !! "overallStatus" = Some (AttrS "processing")
        /\ item !! "totalPages" = Some (AttrN n)
        /\ item !! "processedPages" = Some (AttrN (p + Z.of_nat (length texts)))
        /\ eligible item = (p + Z.of_nat (length texts) =? n) && (0 <? n)
        /\ (n = 0 -> eligible item = false)
        /\ (0 < p -> n = Z.of_nat (length texts) -> eligible item = false))
  /\ processDocument docId tenant s3Key bucket w
     = pageLoop docId tenant 0 texts
         (after (updateTotalPages docId tenant n)
            (addEvent (EvDownload bucket s3Key) first))
  /\ table first = <[documentStatusKeys docId := image]> (table w)
  /\ (forall total,
        old !! "totalPages" = Some (AttrN total) ->
        eligible image = (p =? total) && (0 <? total)
        /\ (p = total -> 0 < total ->
            image ∈ scanItems readyFilter (table first)
            /\ callOf image ∈ invoked (after checkForCompletedDocuments first)
            /\ (is_Some (old !! "fileId") -> is_Some (old !! "tenantId") ->
                forall w0,
                  invoked (after (handleRecord {| eventName := MODIFY;
                                                  NewImage := Some image;
                                                  OldImage := Some old |}) w0)
                  = (imageText old "fileId", imageText old "tenantId", total)
                    :: invoked w0))).
Proof.
  intros Hdownload Hpdf Hold Hsk Hp w' first image.
  assert (statusItem (table w) docId = old) as Hitem
    by (unfold statusItem; now rewrite Hold).
  assert (counterOf (statusItem (table w) docId) = Some p) as Hcounter
    by (rewrite Hitem; unfold counterOf; now rewrite Hp).
  destruct (processDocument_success w docId tenant s3Key bucket buffer n texts p
              Hdownload Hpdf Hcounter)
    as (Hok & (item & Hstored & Hstatus & Htotal & Hprocessed & Hother) & _).
  rewrite Hitem in Hprocessed, Hother. specialize (Hprocessed Hp).
  split; [exact Hok|]. split.
  { exists item.
    assert (eligible item = (p + Z.of_nat (length texts) =? n) && (0 <? n)) as Heligible.
    { unfold eligible. rewrite Hstatus, Htotal, Hprocessed.
      rewrite (Hother "SK"), Hsk
        by (rewrite !not_elem_of_cons; repeat split; try discriminate; apply not_elem_of_nil).
      rewrite !bool_decide_eq_true_2 by reflexivity. cbn [andb]. apply andb_true_r. }
    repeat (split; [assumption|]). split.
    - intros ->. rewrite Heligible. apply andb_false_r.
    - intros Hpos ->. rewrite Heligible.
      destruct (Z.eqb_spec (p + Z.of_nat (length texts)) (Z.of_nat (length texts)));
        [lia|reflexivity]. }
  destruct (processDocument_loop w docId tenant s3Key bucket buffer n texts p
              Hdownload Hpdf Hcounter) as (Hrun & _ & _).
  split; [exact Hrun|].
  assert (table first = <[documentStatusKeys docId := image]> (table w)) as Hfirst.
  { subst first image. unfold after. rewrite updateStatus_run. cbn [snd table].
    now rewrite Hitem. }
  split; [exact Hfirst|].
  intros total Htotals.
  assert (eligible image = (p =? total) && (0 <? total)) as Heligible.
  { subst image. unfold eligible. rewrite lookup_insert_eq.
    rewrite !lookup_insert_ne by discriminate. rewrite Hsk, Hp, Htotals.
    rewrite !bool_decide_eq_true_2 by reflexivity. cbn [andb]. apply andb_true_r. }
  split; [exact Heligible|]. intros -> Hpos.
  assert (eligible image = true) as Hready.
  { rewrite Heligible, Z.eqb_refl. cbn [andb]. now apply Z.ltb_lt. }
  assert (image ∈ scanItems readyFilter (table first)) as Hscan.
  { apply elem_of_scanItems. split; [|exact Hready].
    exists (documentStatusKeys docId). rewrite Hfirst. apply lookup_insert_eq. }
  split; [exact Hscan|]. split.
  - rewrite checkForCompletedDocuments_invoked. apply elem_of_app. left.
    apply list_elem_of_In, in_rev. rewrite rev_involutive. apply list_elem_of_In.
    apply list_elem_of_fmap. eauto.
  - intros Hfile Htenant w0. rewrite handleRecord_invoked.
    assert (forall attr, attr <> "overallStatus" -> attr <> "updatedAt" ->
                         image !! attr = old !! attr) as Hkept
      by (intros attr H1 H2; subst image; now rewrite !lookup_insert_ne by congruence).
    assert (triggered {| eventName := MODIFY; NewImage := Some image; OldImage := Some old |}
            = Some (imageText old "fileId", imageText old "tenantId", total)) as ->;
      [|reflexivity].
    apply triggered_spec. split; [reflexivity|]. split; [eauto|].
    exists image. split; [reflexivity|]. split; [exact Hready|].
    rewrite !Hkept by discriminate. split; [exact Hfile|]. split; [exact Htenant|].
    unfold imageText, fieldNumber. now rewrite !Hkept, Htotals by discriminate.
Qed.

Lemma loopRecords_length (docId tenant : string) (texts : list string) :
  forall (i : nat) (w : World), length (loopRecords docId tenant i texts w) = length texts.
Proof.
  induction texts as [|text texts IH]; intros i w; cbn [loopRecords length]; [reflexivity|].
  now rewrite IH.
Qed.

Lemma freshStatusItem_counter (docId tenant : string) (total : Z) (w : World) :
  freshStatusItem docId tenant total w !! "processedPages" = Some (AttrN 0)
  /\ freshStatusItem docId tenant total w !! "SK" = Some (AttrS "STATUS")
  /\ freshStatusItem docId tenant total w !! "fileId" = Some (AttrS docId)
  /\ freshStatusItem docId tenant total w !! "tenantId" = Some (AttrS tenant).
Proof.
  unfold freshStatusItem. cbn [marshall documentStatusKeys fst snd].
  repeat split; rewrite !lookup_insert_ne by discriminate; apply lookup_insert_eq.
Qed.

Lemma chunkOf_numbers (pages : list Item) :
  pageNumber <$> List.map chunkOf pages = pageNumberOf <$> pages.
Proof. induction pages as [|p pages IH]; [reflexivity|]. cbn. now f_equal. Qed.

(** X12.  From the upload to the results.  For a document without page
    records whose download and parse return [n] chunks, [0 < n <= 9999]:
    after the upload has created the status record, the run of the worker
    returns, the status record meets the watcher's condition and names the
    call the watcher makes, the page query fetches exactly [n] records, and
    the aggregation called with [n] (when no payload check of a stored page
    throws) returns, leaves the status at completed with the key of the
    results, and stores a manifest with total [n] whose entries are the
    pages 1 to [n] in this order. *)
Theorem document_pipeline (w : World) (docId tenant s3Key bucket buffer : string)
    (texts : list string) :
  downloadFile bucket s3Key = Ok buffer ->
  pdf buffer = Ok (Z.of_nat (length texts), texts) ->
  texts <> [] ->
  Z.of_nat (length texts) <= 9999 ->
  fetchedPages w docId = [] ->
  Forall checks
    (fetchedPages (after (processDocument docId tenant s3Key bucket)
                     (after (createDocumentStatus docId tenant 0) w)) docId) ->
  let n := Z.of_nat (length texts) in
  let w1 := after (createDocumentStatus docId tenant 0) w in
  let w2 := after (processDocument docId tenant s3Key bucket) w1 in
  let w3 := after (aggregateResults docId tenant n) w2 in
  outcome (processDocument docId tenant s3Key bucket) w1 = Ok tt
  /\ (exists item,
        table w2 !! documentStatusKeys docId = Some item
        /\ eligible item = true
        /\ callOf item = (docId, tenant, n))
  /\ length (fetchedPages w2 docId) = length texts
  /\ outcome (aggregateResults docId tenant n) w2 = Ok tt
  /\ statusAttr w3 docId "overallStatus" = Some (AttrS "completed")
  /\ statusAttr w3 docId "resultS3Key" = Some (AttrS (resultsKey docId tenant))
  /\ exists m,
       resultsBucket w3 !! resultsKey docId tenant = Some m
       /\ totalPages m = n
       /\ pageNumber <$> chunks m = Some <$> countFrom 1 (length texts).
Proof.
  intros Hdownload Hpdf Hsome Hrange Hnone Hchecks n w1 w2 w3.
  assert (table w1 = <[documentStatusKeys docId := freshStatusItem docId tenant 0 w]> (table w))
    as Htable1 by (subst w1; unfold after; now rewrite createDocumentStatus_run).
  destruct (freshStatusItem_counter docId tenant 0 w) as (Hp & Hsk & Hfile & Htenant).
  assert (statusItem (table w1) docId = freshStatusItem docId tenant 0 w) as Hitem1
    by (rewrite Htable1; apply statusItem_insert).
  destruct (processDocument_success w1 docId tenant s3Key bucket buffer n texts 0
              Hdownload Hpdf)
    as (Hok & (item & Hstored & Hstatus & Htotal & Hprocessed & Hother) & Hpages).
  { rewrite Hitem1. unfold counterOf. now rewrite Hp. }
  rewrite Hitem1 in Hprocessed, Hother. specialize (Hprocessed Hp).
  fold w2 in Hstored, Hpages.
  assert (fetchedPages w2 docId
          = loopRecords docId tenant 0 texts (loopStart docId tenant s3Key bucket n w1))
    as Hfetched.
  { apply Hpages; [exact Hrange|].
    unfold fetchedPages. rewrite Htable1, queryItems_insert_status. exact Hnone. }
  assert (0 < n) as Hpos by (subst n; destruct texts; [congruence|cbn [length]; lia]).
  split; [exact Hok|]. split.
  { exists item. split; [exact Hstored|]. split.
    - unfold eligible. rewrite Hstatus, Htotal, Hprocessed.
      rewrite (Hother "SK"), Hsk
        by (rewrite !not_elem_of_cons; repeat split; try discriminate; apply not_elem_of_nil).
      rewrite !bool_decide_eq_true_2 by reflexivity. cbn [andb].
      rewrite Z.add_0_l, Z.eqb_refl. cbn [andb]. rewrite andb_true_r. now apply Z.ltb_lt.
    - unfold callOf, fieldText, fieldNumber. rewrite Htotal.
      rewrite (Hother "fileId"), Hfile
        by (rewrite !not_elem_of_cons; repeat split; try discriminate; apply not_elem_of_nil).
      now rewrite (Hother "tenantId"), Htenant
        by (rewrite !not_elem_of_cons; repeat split; try discriminate; apply not_elem_of_nil). }
  assert (length (fetchedPages w2 docId) = length texts) as Hlen
    by (rewrite Hfetched; apply loopRecords_length).
  split; [exact Hlen|].
  destruct (aggregateResults_proceeds w2 docId tenant n)
    as (Hdone & Hbucket & _ & Hcompleted & Hkey).
  { rewrite Hlen. subst n. lia. }
  { exact Hchecks. }
  fold w3 in Hbucket, Hcompleted, Hkey.
  split; [exact Hdone|]. split; [exact Hcompleted|]. split; [exact Hkey|].
  eexists. split; [rewrite Hbucket; apply lookup_insert_eq|]. split; [reflexivity|].
  cbn [chunks manifestOf]. rewrite Hfetched, chunkOf_numbers.
  apply (loopRecords_numbers docId tenant texts 0).
Qed.

(** ** The aggregator on a page it cannot read *)

Lemma hasError_isSuccess_throw (p : Item) (e : JsError) :
  hasError p = Throw e -> isSuccess p = Throw e.
Proof.
  unfold hasError, isSuccess.
  destruct (pageAnalysisOf p) as [s|]; [|discriminate].
  destruct (truthyString s); [|discriminate].
  destruct (JSON_parse s) as [v|e']; [|now intros [= ->]].
  destruct (dotError v) as [err|e']; [discriminate|now intros [= ->]].
Qed.

Lemma filterM_throw {A} (f : A -> Result bool) (good : list A) (x : A) (rest : list A)
    (e : JsError) :
  Forall (fun y => exists b, f y = Ok b) good -> f x = Throw e ->
  filterM f (good ++ x :: rest) = Throw e.
Proof.
  intros Hgood Hx. induction Hgood as [|y good [b Hy] _ IH]; cbn [app filterM].
  - now rewrite Hx.
  - now rewrite Hy, IH.
Qed.

Lemma fetchedPages_status (w : World) (docId f : string) (item : Item) :
  queryItems ("DOC#" +:+ docId) "PAGE#" (<[documentStatusKeys f := item]> (table w))
  = fetchedPages w docId.
Proof. apply queryItems_insert_status. Qed.

(** X13.  The aggregator on a page it cannot read.  When enough pages are
    fetched and the payload check of one of them throws (the payload does
    not parse, or parses to null), [aggregateResults] throws the error of
    the first such page; it leaves the status at failed with the error
    message prefixed by Aggregation failed, uploads nothing and stores no
    results key. *)
Theorem aggregateResults_failure (w : World) (docId tenant : string) (total : Z)
    (good : list Item) (p : Item) (rest : list Item) (e : JsError) :
  total <= Z.of_nat (length (fetchedPages w docId)) ->
  fetchedPages w docId = (good ++ p :: rest)%list ->
  Forall checks good ->
  hasError p = Throw e ->
  let w' := after (aggregateResults docId tenant total) w in
  outcome (aggregateResults docId tenant total) w = Throw e
  /\ statusAttr w' docId "overallStatus" = Some (AttrS "failed")
  /\ statusAttr w' docId "errorMessage"
     = Some (AttrS ("Aggregation failed: " +:+ jsString (message e)))
  /\ statusAttr w' docId "resultS3Key" = statusAttr w docId "resultS3Key"
  /\ resultsBucket w' = resultsBucket w
  /\ uploads (trace w') = uploads (trace w).
Proof.
  intros Hall Hpages Hgood Hp w'. subst w'.
  unfold outcome, after, aggregateResults, bind, tryCatch, logEvent.
  rewrite updateStatus_run. rewrite getDocumentPages_run.
  cbn [table addEvent]. rewrite queryItems_insert_status.
  fold (fetchedPages w docId).
  destruct (Z.ltb_spec (Z.of_nat (length (fetchedPages w docId))) total) as [Hlt|_];
    [lia|].
  unfold newDateISO, liftResult. rewrite Hpages.
  rewrite (filterM_throw isSuccess good p rest e).
  2:{ eapply Forall_impl; [exact Hgood|]. intros q Hq. rewrite checks_isSuccess by assumption. eauto. }
  2:{ now apply hasError_isSuccess_throw. }
  rewrite updateDocumentStatus_run. unfold throw, statusAttr.
  cbn [fst snd table resultsBucket trace uploads tick addEvent].
  split; [reflexivity|].
  rewrite !lookup_insert_eq. cbn [mbind option_bind].
  unfold updatedItem. cbn [updateExpressions fold_left].
  split; [rewrite lookup_insert_ne by discriminate; apply lookup_insert_eq|].
  split; [apply lookup_insert_eq|].
  split; [|split; reflexivity].
  rewrite !lookup_insert_ne by discriminate.
  rewrite statusItem_insert. rewrite !lookup_insert_ne by discriminate.
  unfold statusItem. destruct (table w !! documentStatusKeys docId); reflexivity.
Qed.

(** ** The aggregator called again *)

Lemma aggregateResults_pages (docId f tenant : string) (total : Z) (w : World) :
  fetchedPages (after (aggregateResults f tenant total) w) docId = fetchedPages w docId.
Proof.
  apply (aggregateResults_table (queryItems ("DOC#" +:+ docId) "PAGE#")).
  intros t item. apply queryItems_insert_status.
Qed.

Lemma aggregateResults_time (w : World) (docId tenant : string) (total : Z) :
  total <= Z.of_nat (length (fetchedPages w docId)) ->
  Forall checks (fetchedPages w docId) ->
  time (after (aggregateResults docId tenant total) w) = (time w + 5)%nat.
Proof.
  intros Hall Hchecks.
  unfold outcome, after, aggregateResults, bind, tryCatch, logEvent.
  rewrite updateStatus_run. rewrite getDocumentPages_run.
  cbn [table addEvent]. rewrite queryItems_insert_status.
  fold (fetchedPages w docId).
  destruct (Z.ltb_spec (Z.of_nat (length (fetchedPages w docId))) total) as [Hlt|_];
    [lia|].
  unfold newDateISO, liftResult.
  rewrite (filterM_ok isSuccess (fun p => payload p && negb (errorOf p))).
  2:{ eapply Forall_impl; [exact Hchecks|]. intros p Hp. now apply checks_isSuccess. }
  rewrite (filterM_ok hasError errorOf).
  2:{ eapply Forall_impl; [exact Hchecks|]. intros p Hp. now apply checks_hasError. }
  rewrite (mapM_ok toChunk chunkOf).
  2:{ eapply Forall_impl; [exact Hchecks|]. intros p Hp. now apply checks_toChunk. }
  unfold uploadResults, bind, newDateISO.
  rewrite updateDocumentStatus_run. cbn. lia.
Qed.

(** X14.  A second trigger for a document already aggregated.  The first
    aggregation leaves the status at completed; called again with the same
    arguments the aggregator runs again without an error, uploads a second
    manifest under the same key, which differs from the first in its
    timestamp only, and leaves the status at completed. *)
Theorem aggregateResults_again (w : World) (docId tenant : string) (total : Z) :
  total <= Z.of_nat (length (fetchedPages w docId)) ->
  Forall checks (fetchedPages w docId) ->
  let pages := fetchedPages w docId in
  let w1 := after (aggregateResults docId tenant total) w in
  let w2 := after (aggregateResults docId tenant total) w1 in
  let m1 := manifestOf docId tenant total (toISOString (clockMs (time w + 1)%nat)) pages in
  let m2 := manifestOf docId tenant total (toISOString (clockMs (time w + 6)%nat)) pages in
  statusAttr w1 docId "overallStatus" = Some (AttrS "completed")
  /\ outcome (aggregateResults docId tenant total) w1 = Ok tt
  /\ uploads (trace w2)
     = (resultsKey docId tenant, m2) :: (resultsKey docId tenant, m1) :: uploads (trace w)
  /\ resultsBucket w2 = <[resultsKey docId tenant := m2]> (resultsBucket w)
  /\ statusAttr w2 docId "overallStatus" = Some (AttrS "completed")
  /\ chunks m2 = chunks m1
  /\ successCount m2 = successCount m1
  /\ failedCount m2 = failedCount m1.
Proof.
  intros Hall Hchecks pages w1 w2 m1 m2.
  destruct (aggregateResults_proceeds w docId tenant total Hall Hchecks)
    as (_ & Hbucket1 & Huploads1 & Hstatus1 & _).
  pose proof (aggregateResults_pages docId docId tenant total w) as Hpages.
  pose proof (aggregateResults_time w docId tenant total Hall Hchecks) as Htime.
  fold w1 in Hbucket1, Huploads1, Hstatus1, Hpages, Htime.
  destruct (aggregateResults_proceeds w1 docId tenant total) as (Hok & Hbucket2 & Huploads2 & Hstatus2 & _).
  { now rewrite Hpages. }
  { now rewrite Hpages. }
  fold w2 in Hbucket2, Huploads2, Hstatus2.
  rewrite Hpages, Htime in Hbucket2, Huploads2.
  replace (S (time w + 5)) with (time w + 6)%nat in * by lia.
  replace (S (time w)) with (time w + 1)%nat in * by lia.
  fold pages in Hbucket1, Huploads1, Hbucket2, Huploads2.
  fold m1 in Hbucket1, Huploads1. fold m2 in Hbucket2, Huploads2.
  split; [exact Hstatus1|]. split; [exact Hok|].
  split; [now rewrite Huploads2, Huploads1|].
  split; [rewrite Hbucket2, Hbucket1; apply insert_insert_eq|].
  split; [exact Hstatus2|]. repeat split.
Qed.

(** ** A deferred aggregation is retried *)

Lemma elem_of_rev {A} (x : A) (l : list A) : x ∈ rev l <-> x ∈ l.
Proof. rewrite !list_elem_of_In. symmetry. apply in_rev. Qed.

Lemma eligible_processing (item : Item) (at1 at2 : string) :
  eligible item = true ->
  eligible (<["overallStatus" := AttrS "processing"]>
              (<["updatedAt" := AttrS at2]>
                 (<["overallStatus" := AttrS "aggregating"]>
                    (<["updatedAt" := AttrS at1]> item)))) = true.
Proof.
  unfold eligible. rewrite !andb_true_iff. intros [[Hsk Hnum] _].
  rewrite lookup_insert_eq.
  rewrite !(lookup_insert_ne _ _ "SK"), !(lookup_insert_ne _ _ "processedPages"),
    !(lookup_insert_ne _ _ "totalPages") by discriminate.
  repeat split; try assumption; now apply bool_decide_eq_true_2.
Qed.

Lemma callOf_processing (item : Item) (at1 at2 : string) :
  callOf (<["overallStatus" := AttrS "processing"]>
            (<["updatedAt" := AttrS at2]>
               (<["overallStatus" := AttrS "aggregating"]>
                  (<["updatedAt" := AttrS at1]> item)))) = callOf item.
Proof.
  unfold callOf, fieldText, fieldNumber.
  now rewrite !(lookup_insert_ne _ _ "fileId"), !(lookup_insert_ne _ _ "tenantId"),
    !(lookup_insert_ne _ _ "totalPages") by discriminate.
Qed.

(** X15.  A deferred aggregation is retried.  When the aggregator is called
    for a stored record that meets the watcher's condition while fewer
    pages than the total are fetched, the record it leaves still meets the
    condition with the same document, tenant and total, the scan of the
    poller returns it, and the next poll calls the aggregator for it
    again. *)
Theorem deferred_aggregation_retried (w : World) (docId tenant : string) (total : Z)
    (item : Item) :
  table w !! documentStatusKeys docId = Some item ->
  eligible item = true ->
  Z.of_nat (length (fetchedPages w docId)) < total ->
  let w' := after (aggregateResults docId tenant total) w in
  exists item',
    table w' !! documentStatusKeys docId = Some item'
    /\ eligible item' = true
    /\ callOf item' = callOf item
    /\ item' ∈ scanItems readyFilter (table w')
    /\ exists before later,
         invoked (after checkForCompletedDocuments w')
         = (later ++ callOf item :: before ++ invoked w')%list.
Proof.
  intros Hitem Heligible Hfew w'.
  assert (table w'
          = <[documentStatusKeys docId :=
                <["overallStatus" := AttrS "processing"]>
                  (<["updatedAt" := AttrS (toISOString (clockMs (S (time w))))]>
                     (<["overallStatus" := AttrS "aggregating"]>
                        (<["updatedAt" := AttrS (stamp w)]> item)))]> (table w)) as Htable.
  { subst w'. unfold after, aggregateResults, bind, tryCatch, logEvent.
    rewrite updateStatus_run. rewrite getDocumentPages_run.
    cbn [table addEvent]. rewrite queryItems_insert_status.
    fold (fetchedPages w docId).
    destruct (Z.ltb_spec (Z.of_nat (length (fetchedPages w docId))) total) as [_|Hge];
      [|lia].
    rewrite updateStatus_run. unfold ret, stamp. cbn [snd table time addEvent].
    rewrite statusItem_insert. unfold statusItem at 1. rewrite Hitem.
    cbn [default from_option id]. now rewrite insert_insert_eq. }
  eexists. split; [rewrite Htable; apply lookup_insert_eq|].
  split; [now apply eligible_processing|].
  split; [apply callOf_processing|].
  assert (<["overallStatus" := AttrS "processing"]>
            (<["updatedAt" := AttrS (toISOString (clockMs (S (time w))))]>
               (<["overallStatus" := AttrS "aggregating"]>
                  (<["updatedAt" := AttrS (stamp w)]> item)))
          ∈ scanItems readyFilter (table w')) as Hscan.
  { apply elem_of_scanItems. split; [|now apply eligible_processing].
    exists (documentStatusKeys docId). rewrite Htable. apply lookup_insert_eq. }
  split; [exact Hscan|].
  rewrite checkForCompletedDocuments_invoked.
  assert (callOf item ∈ rev (callOf <$> scanItems readyFilter (table w'))) as Hin.
  { rewrite <- (callOf_processing item (stamp w) (toISOString (clockMs (S (time w))))).
    apply elem_of_rev, list_elem_of_fmap. eauto. }
  apply list_elem_of_split in Hin as (later & before & ->).
  exists before, later. now rewrite <- app_assoc.
Qed.

(** ** The poller *)

Lemma poll_loop_returns (docs : list Item) :
  forall w : World,
    outcome (forEach docs (fun doc =>
               tryCatch
                 (aggregateResults (fieldText doc "fileId") (fieldText doc "tenantId")
                    (fieldNumber doc "totalPages"))
                 (fun _ => ret tt))) w = Ok tt.
Proof.
  induction docs as [|doc docs IH]; intros w; [reflexivity|].
  destruct (poll_body_run doc w) as [Hok _].
  cbn [forEach]. unfold outcome, bind in *.
  destruct (tryCatch _ _ w) as [[[]|e] w1]; [|discriminate]. apply IH.
Qed.

(** X16.  No error of the aggregator escapes a poll: a poll returns
    normally in every world, and it has called the aggregator for every
    record its scan returned, also for those that come after a document
    whose aggregation threw. *)
Theorem checkForCompletedDocuments_returns (w : World) :
  outcome checkForCompletedDocuments w = Ok tt
  /\ forall item,
       item ∈ scanItems readyFilter (table w) ->
       callOf item ∈ invoked (after checkForCompletedDocuments w).
Proof.
  split.
  - unfold checkForCompletedDocuments, outcome, bind. rewrite getReadyForAggregation_run.
    destruct (scanItems readyFilter (table w)) as [|doc docs]; [reflexivity|].
    apply (poll_loop_returns (doc :: docs)).
  - intros item Hitem. rewrite checkForCompletedDocuments_invoked.
    apply elem_of_app. left. apply elem_of_rev, list_elem_of_fmap. eauto.
Qed.

(** ** A status record the upload did not create *)

(** X17.  A status record the upload did not create.  A status transition
    for a document without a status record creates a record that holds the
    key, the status and the stamp but no document id.  On a MODIFY record
    carrying such an image the stream handler throws a TypeError, when it
    reads the document id, and handles none of the records that follow in
    the batch. *)
Theorem handler_upserted_status (w0 w : World) (docId tenant st : string) (old : Item)
    (rest : list StreamRecord) :
  table w0 !! documentStatusKeys docId = None ->
  let image := statusItem (table (after (updateStatus docId tenant st) w0)) docId in
  let record := {| eventName := MODIFY; NewImage := Some image; OldImage := Some old |} in
  table (after (updateStatus docId tenant st) w0) !! documentStatusKeys docId = Some image
  /\ image !! "SK" = Some (AttrS "STATUS")
  /\ image !! "fileId" = None
  /\ outcome (handler (record :: rest)) w
     = Throw (TypeError "Cannot read properties of undefined (reading 'S')")
  /\ after (handler (record :: rest)) w = w.
Proof.
  intros Habsent image record.
  assert (image = <["overallStatus" := AttrS st]>
                    (<["updatedAt" := AttrS (stamp w0)]>
                       (keyItem (documentStatusKeys docId)))) as Himage.
  { subst image. unfold after. rewrite updateStatus_run. cbn [snd table].
    rewrite statusItem_insert. unfold statusItem. now rewrite Habsent. }
  assert (image !! "SK" = Some (AttrS "STATUS")) as Hsk by (rewrite Himage; reflexivity).
  assert (image !! "fileId" = None) as Hfile by (rewrite Himage; reflexivity).
  split.
  { unfold after. rewrite updateStatus_run. cbn [snd table]. rewrite lookup_insert_eq.
    f_equal. rewrite Himage. unfold statusItem. now rewrite Habsent. }
  split; [exact Hsk|]. split; [exact Hfile|].
  assert (handleRecord record w
          = (Throw (TypeError "Cannot read properties of undefined (reading 'S')"), w)) as Hrun.
  { unfold handleRecord, record. cbn [eventName NewImage OldImage].
    rewrite bool_decide_eq_true_2 by reflexivity. cbn [negb].
    unfold bind at 1. unfold liftResult at 1. unfold dotS at 1. rewrite Hsk.
    rewrite bool_decide_eq_true_2 by reflexivity. cbn [negb].
    unfold bind, liftResult, dotS. now rewrite Hfile. }
  unfold outcome, after, handler. cbn [forEach]. unfold bind. rewrite Hrun.
  split; reflexivity.
Qed.

(** ** The keys of the results *)

Lemma occurrences_app (c : ascii) (s1 s2 : string) :
  occurrences c (s1 +:+ s2) = (occurrences c s1 + occurrences c s2)%nat.
Proof.
  induction s1 as [|a s1 IH]; simpl; [reflexivity|].
  destruct (Ascii.eqb a c); simpl; now rewrite IH.
Qed.

Lemma occurs_occurrences (c : ascii) (s : string) :
  occurs c s = false -> occurrences c s = O.
Proof.
  induction s as [|a s IH]; simpl; [reflexivity|].
  destruct (Ascii.eqb a c); simpl; [discriminate|exact IH].
Qed.

(** A string splits in one way only at a separator followed by a given
    number of separators. *)
Lemma split_unique (c : ascii) (t1 : string) :
  forall t2 s1 s2 : string,
    t1 +:+ String c s1 = t2 +:+ String c s2 ->
    occurrences c s1 = occurrences c s2 ->
    t1 = t2 /\ s1 = s2.
Proof.
  induction t1 as [|a t1 IH]; intros [|b t2] s1 s2; simpl; intros [= Heq] Hcount.
  - now subst.
  - subst. rewrite occurrences_app in Hcount. simpl in Hcount.
    rewrite Ascii.eqb_refl in Hcount. lia.
  - subst. rewrite occurrences_app in Hcount. simpl in Hcount.
    rewrite Ascii.eqb_refl in Hcount. lia.
  - subst. destruct (IH t2 s1 s2) as [-> ->]; auto.
Qed.

Lemma resultsKey_inj (d1 t1 d2 t2 : string) :
  occurs "/" d1 = false -> occurs "/" d2 = false ->
  resultsKey d1 t1 = resultsKey d2 t2 -> d1 = d2 /\ t1 = t2.
Proof.
  unfold resultsKey. intros H1 H2 Heq.
  apply occurs_occurrences in H1, H2.
  change (t1 +:+ String "/" (d1 +:+ String "/" "results.json")
          = t2 +:+ String "/" (d2 +:+ String "/" "results.json")) in Heq.
  apply split_unique in Heq as [-> Heq].
  - apply split_unique in Heq as [-> _]; [auto|reflexivity].
  - rewrite !occurrences_app, H1, H2. reflexivity.
Qed.

Lemma aggregateResults_bucket (docId tenant : string) (total : Z) (key : string) :
  key <> resultsKey docId tenant ->
  preserves (fun w => resultsBucket w !! key) (aggregateResults docId tenant total).
Proof.
  intros Hkey.
  assert (forall updates, preserves (fun w => resultsBucket w !! key)
                            (updateDocumentStatus docId updates)) as Hupdate
    by (intros updates w; unfold after; now rewrite updateDocumentStatus_run).
  unfold aggregateResults.
  apply preserves_bind; [intros w; reflexivity|intros _].
  apply preserves_tryCatch.
  - apply preserves_bind; [apply Hupdate|intros _].
    apply preserves_bind;
      [intros w; unfold after; now rewrite getDocumentPages_run|intros pages].
    destruct (Z.of_nat (length pages) <? total).
    + apply preserves_bind; [apply Hupdate|intros _; apply preserves_ret].
    + apply preserves_bind; [intros w; reflexivity|intros at_].
      apply preserves_bind; [apply preserves_liftResult|intros succeeded].
      apply preserves_bind; [apply preserves_liftResult|intros failedPages].
      apply preserves_bind; [apply preserves_liftResult|intros cs].
      apply preserves_bind; [|intros _].
      { intros w. unfold after, uploadResults, bind, newDateISO.
        cbn [snd resultsBucket setResults]. apply lookup_insert_ne.
        intros Heq. apply Hkey. now rewrite <- Heq. }
      apply preserves_bind; [intros w; reflexivity|intros completedAt].
      apply Hupdate.
  - intros e. apply preserves_bind; [apply Hupdate|intros _; apply preserves_throw].
Qed.

(** X18.  The keys of the results.  For document ids without a slash, two
    different pairs of document and tenant have different results keys,
    and the aggregation of one document, whatever its outcome, leaves the
    object stored under the results key of the other as it was. *)
Theorem results_not_overwritten (w : World) (d1 t1 d2 t2 : string) (total : Z) :
  occurs "/" d1 = false -> occurs "/" d2 = false ->
  (d1, t1) <> (d2, t2) ->
  resultsKey d1 t1 <> resultsKey d2 t2
  /\ resultsBucket (after (aggregateResults d1 t1 total) w) !! resultsKey d2 t2
     = resultsBucket w !! resultsKey d2 t2.
Proof.
  intros H1 H2 Hne.
  assert (resultsKey d1 t1 <> resultsKey d2 t2) as Hkeys.
  { intros Heq. apply resultsKey_inj in Heq as [-> ->]; auto. }
  split; [exact Hkeys|].
  now apply (aggregateResults_bucket d1 t1 total (resultsKey d2 t2)), not_eq_sym.
Qed.

(** ** After the aggregation *)

Lemma filterM_cases {A} (f : A -> Result bool) (l : list A) :
  (exists l', filterM f l = Ok l') \/ (exists e, filterM f l = Throw e).
Proof. destruct (filterM f l); eauto. Qed.

(** X19.  After the aggregation.  Once at least [total] pages are fetched,
    an aggregation leaves the status at completed when it returns and at
    failed when it throws; either way the record no longer meets the
    watcher's condition and the scan of the poller does not return it. *)
Theorem aggregation_is_terminal (w : World) (docId tenant : string) (total : Z) :
  total <= Z.of_nat (length (fetchedPages w docId)) ->
  let w' := after (aggregateResults docId tenant total) w in
  exists item,
    table w' !! documentStatusKeys docId = Some item
    /\ item !! "overallStatus"
       = Some (AttrS (match outcome (aggregateResults docId tenant total) w with
                      | Ok _ => "completed"
                      | Throw _ => "failed"
                      end))
    /\ eligible item = false
    /\ item ∉ scanItems readyFilter (table w').
Proof.
  intros Hall w'.
  assert (forall item st,
            st <> "processing" -> item !! "overallStatus" = Some (AttrS st) ->
            eligible item = false) as Hterminal.
  { intros item st Hst Hitem. unfold eligible. rewrite Hitem.
    rewrite (bool_decide_eq_false_2 (Some (AttrS st) = _)) by congruence.
    apply andb_false_r. }
  enough (exists item,
            table w' !! documentStatusKeys docId = Some item
            /\ item !! "overallStatus"
               = Some (AttrS (match outcome (aggregateResults docId tenant total) w with
                              | Ok _ => "completed"
                              | Throw _ => "failed"
                              end))) as (item & Hitem & Hstatus).
  { exists item. split; [exact Hitem|]. split; [exact Hstatus|].
    assert (eligible item = false) as Hno.
    { eapply Hterminal; [|exact Hstatus]. now destruct (outcome _ w). }
    split; [exact Hno|]. rewrite elem_of_scanItems. intros [_ Hyes]. congruence. }
  subst w'. unfold outcome, after, aggregateResults, bind, tryCatch, logEvent.
  rewrite updateStatus_run. rewrite getDocumentPages_run.
  cbn [table addEvent]. rewrite queryItems_insert_status.
  fold (fetchedPages w docId).
  destruct (Z.ltb_spec (Z.of_nat (length (fetchedPages w docId))) total) as [Hlt|_];
    [lia|].
  unfold newDateISO, liftResult, uploadResults, bind, newDateISO, throw.
  destruct (filterM isSuccess (fetchedPages w docId)) as [succeeded|e];
    [destruct (filterM hasError (fetchedPages w docId)) as [failedPages|e];
     [destruct (mapM toChunk (fetchedPages w docId)) as [cs|e]|]|];
    rewrite updateDocumentStatus_run; cbn [fst snd table];
    eexists; (split; [apply lookup_insert_eq|]);
    unfold updatedItem; cbn [updateExpressions fold_left];
    rewrite ?lookup_insert_ne by discriminate; apply lookup_insert_eq.
Qed.

(** ** File metadata *)

(** The item [saveFileMetadata] writes in world [w]. *)
Lemma saveFileMetadata_run (metadata : Files.FileInfo) (w : World) :
  exists item,
    Files.saveFileMetadata metadata w
    = (Ok item,
       {| table := <[Files.fileMetadataKeys (Files.fileId metadata) := item]> (table w);
          resultsBucket := resultsBucket w;
          trace := EvSend (PutCommand item) :: trace w;
          time := S (time w);
          genCalls := genCalls w |})
    /\ item !! "fileId" = Some (AttrS (Files.fileId metadata))
    /\ item !! "fileName" = Some (AttrS (Files.fileName metadata))
    /\ item !! "status" = Some (AttrS (Files.status metadata))
    /\ item !! "GSI1PK" = Some (AttrS ("TENANT#" +:+ Files.tenantId metadata))
    /\ item !! "GSI1SK" = Some (AttrS ("FILE#" +:+ Files.uploadedAt metadata))
    /\ item !! "ttl" = Some (AttrN (clockMs (time w) / 1000 + 90 * 24 * 60 * 60))
    /\ item !! "errorMessage" = None.
Proof.
  eexists. split.
  - unfold Files.saveFileMetadata, generateTTL, bind, dateNow, send, ret.
    cbn [time tick table addEvent setTable trace resultsBucket genCalls exec fst snd].
    rewrite keyOf_marshall. reflexivity.
  - cbn [marshall Files.fileMetadataGSI1Keys fst snd].
    destruct (Files.userId metadata); cbn [fmap option_fmap option_map];
      repeat split; rewrite ?lookup_insert_ne by discriminate;
        solve [apply lookup_insert_eq | apply lookup_empty].
Qed.

Lemma getFileMetadata_run (fileId : string) (w : World) :
  outcome (Files.getFileMetadata fileId) w = Ok (table w !! Files.fileMetadataKeys fileId).
Proof. reflexivity. Qed.

Lemma updateFileStatus_run (fileId st : string) (msg : option string) (w : World) :
  let old := default (keyItem (Files.fileMetadataKeys fileId))
               (table w !! Files.fileMetadataKeys fileId) in
  let stamped := <["updatedAt" := AttrS (stamp w)]> (<["status" := AttrS st]> old) in
  Files.updateFileStatus fileId st msg w
  = (Ok tt,
     setTable (<[Files.fileMetadataKeys fileId :=
                   match msg with
                   | Some text =>
                       if truthyString text then <["errorMessage" := AttrS text]> stamped
                       else stamped
                   | None => stamped
                   end]> (table w))
       (addEvent (EvSend (UpdateCommand (Files.fileMetadataKeys fileId)
                            ([ SetValue "status" (AttrS st);
                               SetValue "updatedAt" (AttrS (stamp w)) ]
                             ++ match msg with
                                | Some text =>
                                    if truthyString text
                                    then [SetValue "errorMessage" (AttrS text)] else []
                                | None => []
                                end)%list)) (tick w))).
Proof.
  unfold Files.updateFileStatus, bind, newDateISO, send, ret, stamp.
  cbn [time tick table addEvent setTable trace resultsBucket genCalls exec fst snd].
  unfold applyUpdate.
  destruct msg as [text|]; [destruct (truthyString text)|]; reflexivity.
Qed.

(** X20.  File metadata saved is the item read back by [getFileMetadata]:
    it carries the file's attributes and the tenant partition of the
    index.  [updateFileStatus] then changes the status and the update stamp,
    sets the error message when one is given that is not empty and leaves
    it alone otherwise, and keeps every other attribute; and after
    [deleteFileMetadata] the record is gone. *)
Theorem saveFileMetadata_round_trip (w : World) (metadata : Files.FileInfo) :
  let fileId := Files.fileId metadata in
  let w' := after (Files.saveFileMetadata metadata) w in
  exists item,
    outcome (Files.saveFileMetadata metadata) w = Ok item
    /\ outcome (Files.getFileMetadata fileId) w' = Ok (Some item)
    /\ item !! "fileName" = Some (AttrS (Files.fileName metadata))
    /\ item !! "status" = Some (AttrS (Files.status metadata))
    /\ item !! "GSI1PK" = Some (AttrS ("TENANT#" +:+ Files.tenantId metadata))
    /\ (forall (st : string) (msg : option string),
          exists updated,
            outcome (Files.getFileMetadata fileId) (after (Files.updateFileStatus fileId st msg) w')
            = Ok (Some updated)
            /\ updated !! "status" = Some (AttrS st)
            /\ updated !! "updatedAt" = Some (AttrS (stamp w'))
            /\ updated !! "errorMessage"
               = match msg with
                 | Some text => if truthyString text then Some (AttrS text) else None
                 | None => None
                 end
            /\ forall attr,
                 attr ∉ ["status"; "updatedAt"; "errorMessage"] ->
                 updated !! attr = item !! attr)
    /\ outcome (Files.getFileMetadata fileId) (after (Files.deleteFileMetadata fileId) w')
       = Ok None.
Proof.
  intros fileId w'. subst fileId w'.
  destruct (saveFileMetadata_run metadata w)
    as (item & Hrun & _ & Hname & Hstatus & Hgsi & _ & _ & Hmsg).
  exists item. unfold outcome, after. rewrite Hrun. cbn [fst snd].
  split; [reflexivity|].
  fold (outcome (Files.getFileMetadata (Files.fileId metadata))
          {| table := <[Files.fileMetadataKeys (Files.fileId metadata) := item]> (table w);
             resultsBucket := resultsBucket w;
             trace := EvSend (PutCommand item) :: trace w;
             time := S (time w);
             genCalls := genCalls w |}).
  rewrite getFileMetadata_run. cbn [table]. rewrite lookup_insert_eq.
  repeat (split; [assumption || reflexivity|]). split.
  - intros st msg. rewrite updateFileStatus_run. cbn [snd].
    eexists. split.
    { match goal with |- (Files.getFileMetadata ?f ?w0).1 = _ =>
        change ((Files.getFileMetadata f w0).1) with (outcome (Files.getFileMetadata f) w0) end.
      rewrite getFileMetadata_run. unfold setTable. cbn [table].
      rewrite lookup_insert_eq. reflexivity. }
    cbn [table]. rewrite lookup_insert_eq. cbn [default from_option id].
    destruct msg as [text|]; [destruct (truthyString text)|];
      (split; [rewrite ?lookup_insert_ne by discriminate; apply lookup_insert_eq|]);
      (split; [rewrite ?lookup_insert_ne by discriminate; apply lookup_insert_eq|]);
      (split; [rewrite ?lookup_insert_ne by discriminate;
               solve [apply lookup_insert_eq | exact Hmsg]|]);
      intros attr Hattr; rewrite !not_elem_of_cons in Hattr;
      destruct Hattr as (H1 & H2 & H3 & _);
      now rewrite !lookup_insert_ne by congruence.
  - unfold Files.deleteFileMetadata, setTable. cbn [snd].
    match goal with |- (Files.getFileMetadata ?f ?w0).1 = _ =>
      change ((Files.getFileMetadata f w0).1) with (outcome (Files.getFileMetadata f) w0) end.
    rewrite getFileMetadata_run. cbn [table]. now rewrite lookup_delete_eq.
Qed.

(** ** One table for two services *)

Lemma file_key_not_status (fileId docId : string) :
  Files.fileMetadataKeys fileId <> documentStatusKeys docId.
Proof. unfold Files.fileMetadataKeys, documentStatusKeys. intros [= _]. Qed.

Lemma file_key_not_page (fileId docId : string) (n : Z) :
  Files.fileMetadataKeys fileId <> documentPageKeys docId n.
Proof. unfold Files.fileMetadataKeys, documentPageKeys. intros [= _]. Qed.

Lemma file_key_partition (fileId docId : string) :
  (Files.fileMetadataKeys fileId).1 <> "DOC#" +:+ docId.
Proof. cbn. discriminate. Qed.

Lemma documentView_delete (b : string) (k : Key) (t : Table) :
  k.1 <> "DOC#" +:+ b -> documentView b (delete k t) = documentView b t.
Proof.
  intros Hk. destruct (t !! k) as [old|] eqn:Hold.
  - rewrite <- (insert_delete_id t k old Hold) at 2. symmetry. now apply documentView_insert.
  - now rewrite (delete_id t k Hold).
Qed.

(** X21.  The file records and the document records share one table and
    never touch each other: no operation of the document services changes
    what [getFileMetadata] returns, and saving, updating or deleting file
    metadata leaves the status record and the page records of every
    document as they were. *)
Theorem files_and_documents_apart (w : World) (fileId docId : string) :
  (forall ops : list Operation,
     outcome (Files.getFileMetadata fileId) (performAll ops w)
     = outcome (Files.getFileMetadata fileId) w)
  /\ (forall metadata,
        documentView docId (table (after (Files.saveFileMetadata metadata) w))
        = documentView docId (table w))
  /\ (forall st msg,
        documentView docId (table (after (Files.updateFileStatus fileId st msg) w))
        = documentView docId (table w))
  /\ documentView docId (table (after (Files.deleteFileMetadata fileId) w))
     = documentView docId (table w).
Proof.
  split; [|split; [|split]].
  - intros ops. rewrite !getFileMetadata_run. f_equal.
    apply (performAll_table (fun t => t !! Files.fileMetadataKeys fileId)).
    apply Forall_forall. intros op _. split; intros.
    + apply lookup_insert_ne, not_eq_sym, file_key_not_status.
    + apply lookup_insert_ne, not_eq_sym, file_key_not_page.
  - intros metadata. destruct (saveFileMetadata_run metadata w) as (item & Hrun & _).
    unfold after. rewrite Hrun. cbn [snd table].
    apply documentView_insert, file_key_partition.
  - intros st msg. unfold after. rewrite updateFileStatus_run. cbn [snd table setTable].
    apply documentView_insert, file_key_partition.
  - unfold after, Files.deleteFileMetadata, setTable. cbn [snd table].
    apply documentView_delete, file_key_partition.
Qed.

(** ** The jobs controller *)

Section JobsController.
Context (getSignedUrl : string -> string -> Z -> Result string).
Context (resultsBucketName : string) (noSuchKey : JsError).

Lemma getDocumentStatus_step (docId : string) (w : World) :
  getDocumentStatus docId w
  = (Ok (table w !! documentStatusKeys docId),
     addEvent (EvSend (GetCommand (documentStatusKeys docId))) w).
Proof. destruct w; reflexivity. Qed.

Lemma getFileMetadata_step (fileId : string) (w : World) :
  Files.getFileMetadata fileId w
  = (Ok (table w !! Files.fileMetadataKeys fileId),
     addEvent (EvSend (GetCommand (Files.fileMetadataKeys fileId))) w).
Proof. destruct w; reflexivity. Qed.

Lemma resultsKey_truthy (docId tenant : string) :
  truthyString (resultsKey docId tenant) = true.
Proof. unfold resultsKey. now destruct tenant. Qed.

(** X22.  Until a results key is stored for a document, the results
    endpoint throws NotFound, whether or not the document has a status
    record; the status endpoint throws NotFound for a document without a
    status record and otherwise reports the stored status and counts, with
    a null result and no download link. *)
Theorem jobs_before_results (w : World) (docId : string) :
  statusAttr w docId "resultS3Key" = None ->
  outcome (Jobs.getJobResults resultsBucketName noSuchKey docId) w
  = Throw (NotFoundException ("Results not found for file ID: " +:+ docId))
  /\ match table w !! documentStatusKeys docId with
     | None =>
         outcome (Jobs.getJobStatus getSignedUrl resultsBucketName docId) w
         = Throw (NotFoundException ("Job not found for file ID: " +:+ docId))
     | Some stored =>
         exists response,
           outcome (Jobs.getJobStatus getSignedUrl resultsBucketName docId) w = Ok response
           /\ Jobs.status response = stored !! "overallStatus"
           /\ Jobs.processed (Jobs.progress response) = stored !! "processedPages"
           /\ Jobs.total (Jobs.progress response) = stored !! "totalPages"
           /\ Jobs.result response = None
           /\ Jobs.downloadUrl response = None
     end.
Proof.
  unfold statusAttr, outcome, Jobs.getJobResults, Jobs.getJobStatus, bind.
  rewrite getDocumentStatus_step.
  destruct (table w !! documentStatusKeys docId) as [stored|]; cbn [mbind option_bind].
  - intros ->. cbn [truthyAttr]. split; [reflexivity|].
    rewrite getFileMetadata_step. rewrite andb_false_r. cbn [fst ret].
    eexists. split; [reflexivity|]. repeat split.
  - intros _. split; reflexivity.
Qed.

(** X23.  After a successful aggregation the results endpoint returns the
    manifest the aggregator uploaded, and the status endpoint reports
    completed, the key of the results and a download link signed for that
    key in the results bucket. *)
Theorem jobs_after_aggregation (w : World) (docId tenant : string) (total : Z) (url : string) :
  total <= Z.of_nat (length (fetchedPages w docId)) ->
  Forall checks (fetchedPages w docId) ->
  getSignedUrl resultsBucketName (resultsKey docId tenant) 3600 = Ok url ->
  let w' := after (aggregateResults docId tenant total) w in
  let m := manifestOf docId tenant total (toISOString (clockMs (S (time w))))
             (fetchedPages w docId) in
  resultsBucket w' !! resultsKey docId tenant = Some m
  /\ outcome (Jobs.getJobResults resultsBucketName noSuchKey docId) w' = Ok m
  /\ exists response,
       outcome (Jobs.getJobStatus getSignedUrl resultsBucketName docId) w' = Ok response
       /\ Jobs.status response = Some (AttrS "completed")
       /\ Jobs.result response = Some (AttrS (resultsKey docId tenant))
       /\ Jobs.downloadUrl response = Some url.
Proof.
  intros Hall Hchecks Hurl w' m.
  destruct (aggregateResults_proceeds w docId tenant total Hall Hchecks)
    as (_ & Hbucket & _ & Hcompleted & Hkey).
  fold w' in Hbucket, Hcompleted, Hkey. fold m in Hbucket.
  assert (resultsBucket w' !! resultsKey docId tenant = Some m) as Hstored
    by (rewrite Hbucket; apply lookup_insert_eq).
  split; [exact Hstored|].
  unfold statusAttr in Hcompleted, Hkey.
  unfold outcome, Jobs.getJobResults, Jobs.getJobStatus, bind.
  rewrite getDocumentStatus_step.
  destruct (table w' !! documentStatusKeys docId) as [stored|]; [|discriminate].
  cbn [mbind option_bind] in Hcompleted, Hkey.
  assert (fieldText stored "resultS3Key" = resultsKey docId tenant) as Htext
    by (unfold fieldText; now rewrite Hkey).
  rewrite Hkey, Hcompleted, Htext. cbn [truthyAttr]. rewrite resultsKey_truthy. split.
  - unfold Jobs.downloadResults, tryCatch, bind, logEvent.
    cbn [resultsBucket addEvent]. now rewrite Hstored.
  - rewrite getFileMetadata_step. rewrite bool_decide_eq_true_2 by reflexivity.
    cbn [andb]. unfold Jobs.getPresignedUrl, tryCatch, liftResult. rewrite Hurl.
    cbn [fst ret]. eexists. split; [reflexivity|]. repeat split.
Qed.

End JobsController.

(** ** The data objects of the events *)

Lemma getField_app (k : string) (l1 l2 : list (string * Json)) :
  Kinesis.getField k (l1 ++ l2)
  = match Kinesis.getField k l1 with
    | Some v => Some v
    | None => Kinesis.getField k l2
    end.
Proof.
  unfold Kinesis.getField. induction l1 as [|[k' v'] l1 IH]; [reflexivity|].
  cbn [app List.find fst]. destruct (String.eqb k k'); [reflexivity|exact IH].
Qed.

Lemma getField_cons (k k' : string) (v' : Json) (l : list (string * Json)) :
  Kinesis.getField k ((k', v') :: l)
  = if String.eqb k k' then Some v' else Kinesis.getField k l.
Proof. unfold Kinesis.getField. cbn [List.find fst]. now destruct (String.eqb k k'). Qed.

Lemma hasField_getField (k : string) (l : list (string * Json)) :
  Kinesis.hasField k l = false <-> Kinesis.getField k l = None.
Proof.
  induction l as [|[k' v'] l IH]; [easy|].
  rewrite getField_cons. cbn [Kinesis.hasField existsb fst].
  fold (Kinesis.hasField k l). destruct (String.eqb k k'); cbn [orb]; [easy|exact IH].
Qed.

Lemma hasField_keys (k : string) (l : list (string * Json)) :
  Kinesis.hasField k l = false <-> k ∉ l.*1.
Proof.
  induction l as [|[k' v'] l IH]; [split; [intros _; apply not_elem_of_nil|easy]|].
  cbn [Kinesis.hasField existsb fst]. fold (Kinesis.hasField k l).
  rewrite fmap_cons, not_elem_of_cons. cbn [fst].
  destruct (String.eqb_spec k k') as [->|Hne]; cbn [orb].
  - split; [discriminate|]. intros [Hne _]. now destruct Hne.
  - rewrite IH. tauto.
Qed.

Lemma replaceField_keys (k : string) (v : Json) (l : list (string * Json)) :
  (Kinesis.replaceField k v l).*1 = l.*1.
Proof.
  induction l as [|[k' v'] l IH]; [reflexivity|]. cbn [Kinesis.replaceField].
  destruct (String.eqb_spec k k') as [->|_]; [reflexivity|].
  rewrite !fmap_cons. now rewrite IH.
Qed.

Lemma getField_replaceField (k k' : string) (v : Json) (l : list (string * Json)) :
  Kinesis.hasField k' l = true ->
  Kinesis.getField k (Kinesis.replaceField k' v l)
  = if String.eqb k k' then Some v else Kinesis.getField k l.
Proof.
  induction l as [|[k'' v''] l IH]; [discriminate|].
  cbn [Kinesis.hasField existsb fst Kinesis.replaceField]. fold (Kinesis.hasField k' l).
  destruct (String.eqb_spec k' k'') as [<-|Hne]; cbn [orb].
  - intros _. rewrite !getField_cons. now destruct (String.eqb k k').
  - intros Hhas. rewrite !getField_cons, IH by exact Hhas.
    destruct (String.eqb_spec k k'') as [->|_]; [|reflexivity].
    destruct (String.eqb_spec k'' k') as [->|_]; [now destruct Hne|reflexivity].
Qed.

Lemma getField_insertField (k k' : string) (v : Json) (l : list (string * Json)) :
  Kinesis.hasField k' l = false ->
  Kinesis.getField k (Kinesis.insertField k' v l)
  = if String.eqb k k' then Some v else Kinesis.getField k l.
Proof.
  induction l as [|[k'' v''] l IH]; intros Hhas.
  - cbn [Kinesis.insertField]. now rewrite getField_cons.
  - cbn [Kinesis.hasField existsb fst] in Hhas. fold (Kinesis.hasField k' l) in Hhas.
    apply orb_false_iff in Hhas as [Hne Hhas]. cbn [Kinesis.insertField].
    destruct (Kinesis.before k' k''); rewrite !getField_cons; [reflexivity|].
    rewrite IH by exact Hhas.
    destruct (String.eqb_spec k k'') as [->|_]; [|reflexivity].
    rewrite String.eqb_sym. now rewrite Hne.
Qed.

(** A property read after an assignment. *)
Lemma getField_setField (k k' : string) (v : Json) (l : list (string * Json)) :
  Kinesis.getField k (Kinesis.setField k' v l)
  = if String.eqb k k' then Some v else Kinesis.getField k l.
Proof.
  unfold Kinesis.setField. destruct (Kinesis.hasField k' l) eqn:Hhas.
  - now apply getField_replaceField.
  - now apply getField_insertField.
Qed.

Lemma getField_assignments (k : string) (entries : list (string * Json)) :
  forall base,
    Kinesis.getField k
      (fold_left (fun acc kv => Kinesis.setField kv.1 kv.2 acc) entries base)
    = match Kinesis.getField k (rev entries) with
      | Some v => Some v
      | None => Kinesis.getField k base
      end.
Proof.
  induction entries as [|[k' v'] entries IH]; intros base; [reflexivity|].
  cbn [fold_left rev fst snd]. rewrite IH, getField_app, getField_setField, getField_cons.
  destruct (Kinesis.getField k (rev entries)); [reflexivity|].
  now destruct (String.eqb k k').
Qed.

(** ** The order of the names *)

Lemma elem_of_insertField (x k : string) (v : Json) (l : list (string * Json)) :
  x ∈ (Kinesis.insertField k v l).*1 <-> x = k \/ x ∈ l.*1.
Proof.
  induction l as [|[k' v'] l IH].
  - cbn. rewrite list_elem_of_singleton, elem_of_nil. tauto.
  - cbn [Kinesis.insertField]. destruct (Kinesis.before k k').
    + rewrite !fmap_cons, !elem_of_cons. cbn [fst]. tauto.
    + rewrite !fmap_cons, !elem_of_cons, IH. cbn [fst]. tauto.
Qed.

Lemma before_later (k k' x : string) :
  Kinesis.before k k' = true -> Kinesis.before x k' = false -> Kinesis.before x k = false.
Proof.
  unfold Kinesis.before.
  destruct (Kinesis.arrayIndex k) as [i|]; [|discriminate].
  destruct (Kinesis.arrayIndex x) as [m|]; [|reflexivity].
  destruct (Kinesis.arrayIndex k') as [j|]; [|discriminate].
  rewrite !N.ltb_lt, !N.ltb_ge. lia.
Qed.

Lemma before_asym (k k' : string) :
  Kinesis.before k k' = true -> Kinesis.before k' k = false.
Proof.
  unfold Kinesis.before.
  destruct (Kinesis.arrayIndex k) as [i|]; [|discriminate].
  destruct (Kinesis.arrayIndex k') as [j|]; [|reflexivity].
  rewrite N.ltb_lt, N.ltb_ge. lia.
Qed.

Lemma objectOrder_insertField (k : string) (v : Json) (l : list (string * Json)) :
  k ∉ l.*1 -> objectOrder l.*1 -> objectOrder (Kinesis.insertField k v l).*1.
Proof.
  unfold objectOrder. induction l as [|[k' v'] l IH]; intros Hnot Hsorted.
  - cbn. repeat constructor.
  - rewrite fmap_cons in Hnot, Hsorted. cbn [fst] in *.
    apply not_elem_of_cons in Hnot as [Hne Hnot].
    apply StronglySorted_inv in Hsorted as [Hsorted Hall].
    cbn [Kinesis.insertField]. destruct (Kinesis.before k k') eqn:Hbefore.
    + rewrite !fmap_cons. cbn [fst]. constructor; [constructor; assumption|].
      constructor.
      * split; [exact Hne|]. now apply before_asym.
      * rewrite Forall_forall in Hall |- *. intros x Hx. split.
        -- intros ->. contradiction.
        -- apply (before_later k k' x Hbefore). now apply Hall.
    + rewrite fmap_cons. cbn [fst]. constructor; [now apply IH|].
      rewrite Forall_forall in Hall |- *. intros x Hx.
      apply elem_of_insertField in Hx as [->|Hx]; [|now apply Hall].
      split; [congruence|exact Hbefore].
Qed.

Lemma objectOrder_setField (k : string) (v : Json) (l : list (string * Json)) :
  objectOrder l.*1 -> objectOrder (Kinesis.setField k v l).*1.
Proof.
  intros Hsorted. unfold Kinesis.setField. destruct (Kinesis.hasField k l) eqn:Hhas.
  - now rewrite replaceField_keys.
  - apply objectOrder_insertField; [now apply hasField_keys|exact Hsorted].
Qed.

Lemma objectOrder_assignments (entries : list (string * Json)) :
  forall base,
    objectOrder base.*1 ->
    objectOrder (fold_left (fun acc kv => Kinesis.setField kv.1 kv.2 acc) entries base).*1.
Proof.
  induction entries as [|[k v] entries IH]; intros base Hbase; [exact Hbase|].
  cbn [fold_left fst snd]. apply IH. now apply objectOrder_setField.
Qed.

Lemma objectOrder_NoDup (names : list string) : objectOrder names -> NoDup names.
Proof.
  unfold objectOrder. induction 1 as [|a l _ IH Hall]; constructor; [|exact IH].
  intros Hin. rewrite Forall_forall in Hall. now destruct (Hall a Hin).
Qed.

Lemma getField_None (k : string) (l : list (string * Json)) :
  Kinesis.getField k l = None <-> k ∉ l.*1.
Proof. rewrite <- hasField_getField. apply hasField_keys. Qed.

Lemma getField_rev (k : string) (l : list (string * Json)) :
  NoDup l.*1 -> Kinesis.getField k (rev l) = Kinesis.getField k l.
Proof.
  induction l as [|[k' v'] l IH]; intros Hnodup; [reflexivity|].
  rewrite fmap_cons in Hnodup. cbn [fst] in Hnodup.
  apply NoDup_cons in Hnodup as [Hnot Hnodup].
  cbn [rev]. rewrite getField_app, IH, !getField_cons by exact Hnodup.
  destruct (String.eqb_spec k k') as [->|_].
  - apply getField_None in Hnot. now rewrite Hnot.
  - cbn [Kinesis.getField List.find fmap option_fmap option_map].
    now destruct (Kinesis.getField k l).
Qed.

(** ** Array indices first *)

Lemma insertField_name (k : string) (v : Json) (l : list (string * Json)) :
  Kinesis.arrayIndex k = None -> Kinesis.insertField k v l = (l ++ [(k, v)])%list.
Proof.
  intros Hname. induction l as [|[k' v'] l IH]; [reflexivity|].
  cbn [Kinesis.insertField]. unfold Kinesis.before at 1. rewrite Hname.
  cbn [app]. now rewrite IH.
Qed.

Lemma insertField_index (k : string) (v : Json) (indices rest : list (string * Json)) :
  is_Some (Kinesis.arrayIndex k) ->
  Forall (fun name => Kinesis.arrayIndex name = None) rest.*1 ->
  Kinesis.insertField k v (indices ++ rest)
  = (Kinesis.insertField k v indices ++ rest)%list.
Proof.
  intros [i Hi] Hrest. induction indices as [|[k' v'] indices IH].
  - destruct rest as [|[k' v'] rest]; [reflexivity|].
    cbn [app Kinesis.insertField]. unfold Kinesis.before. rewrite Hi.
    rewrite fmap_cons in Hrest. apply Forall_cons in Hrest as [Hname _].
    cbn [fst] in Hname. now rewrite Hname.
  - cbn [app Kinesis.insertField]. destruct (Kinesis.before k k'); [reflexivity|].
    now rewrite IH.
Qed.

Lemma insertField_indices (k : string) (v : Json) (indices : list (string * Json)) :
  is_Some (Kinesis.arrayIndex k) ->
  Forall (fun name => is_Some (Kinesis.arrayIndex name)) indices.*1 ->
  Forall (fun name => is_Some (Kinesis.arrayIndex name)) (Kinesis.insertField k v indices).*1.
Proof.
  intros Hk Hall. apply Forall_forall. intros x Hx.
  apply elem_of_insertField in Hx as [->|Hx]; [exact Hk|].
  rewrite Forall_forall in Hall. now apply Hall.
Qed.

(** The names an object literal starts with stay together, after the
    array indices and before the names created later. *)
Lemma setField_shape (k : string) (v : Json) (literal : list string)
    (l : list (string * Json)) :
  Forall (fun name => Kinesis.arrayIndex name = None) literal ->
  (exists indices names,
     l.*1 = (indices ++ literal ++ names)%list
     /\ Forall (fun name => is_Some (Kinesis.arrayIndex name)) indices
     /\ Forall (fun name => Kinesis.arrayIndex name = None) names) ->
  exists indices names,
    (Kinesis.setField k v l).*1 = (indices ++ literal ++ names)%list
    /\ Forall (fun name => is_Some (Kinesis.arrayIndex name)) indices
    /\ Forall (fun name => Kinesis.arrayIndex name = None) names.
Proof.
  intros Hliteral (indices & names & Hkeys & Hindices & Hnames).
  unfold Kinesis.setField. destruct (Kinesis.hasField k l).
  { rewrite replaceField_keys. eauto. }
  destruct (Kinesis.arrayIndex k) as [i|] eqn:Hk.
  - apply fmap_app_inv in Hkeys as (li & lr & Hli & Hlr & ->).
    rewrite insertField_index; [|eauto|rewrite <- Hlr; apply Forall_app; now split].
    exists (Kinesis.insertField k v li).*1, names.
    rewrite fmap_app, <- Hlr. split; [reflexivity|]. split; [|exact Hnames].
    apply insertField_indices; [eauto|now rewrite <- Hli].
  - rewrite insertField_name by exact Hk. exists indices, (names ++ [k])%list.
    rewrite fmap_app, Hkeys. split; [cbn [fmap list_fmap fst]; now rewrite <- !app_assoc|].
    split; [exact Hindices|]. apply Forall_app. split; [exact Hnames|].
    now constructor.
Qed.

Lemma assignments_shape (literal : list string) (entries : list (string * Json)) :
  Forall (fun name => Kinesis.arrayIndex name = None) literal ->
  forall base,
    (exists indices names,
       base.*1 = (indices ++ literal ++ names)%list
       /\ Forall (fun name => is_Some (Kinesis.arrayIndex name)) indices
       /\ Forall (fun name => Kinesis.arrayIndex name = None) names) ->
    exists indices names,
      (fold_left (fun acc kv => Kinesis.setField kv.1 kv.2 acc) entries base).*1
      = (indices ++ literal ++ names)%list
      /\ Forall (fun name => is_Some (Kinesis.arrayIndex name)) indices
      /\ Forall (fun name => Kinesis.arrayIndex name = None) names.
Proof.
  intros Hliteral. induction entries as [|[k v] entries IH]; intros base Hbase; [exact Hbase|].
  cbn [fold_left fst snd]. apply IH. now apply setField_shape.
Qed.

Lemma arrayIndex_name (k : string) (n : N) :
  Kinesis.arrayIndex k = Some n -> k = pretty n.
Proof.
  unfold Kinesis.arrayIndex. destruct (Kinesis.digitsValue 0 k) as [m|]; [|discriminate].
  destruct (String.eqb_spec (pretty m) k) as [<-|]; cbn [andb]; [|discriminate].
  destruct (m <=? 4294967294)%N; [|discriminate]. now intros [= ->].
Qed.

Lemma indices_ascending (indices : list string) :
  objectOrder indices ->
  Forall (fun name => is_Some (Kinesis.arrayIndex name)) indices ->
  StronglySorted (fun a b => Kinesis.before a b = true) indices.
Proof.
  unfold objectOrder. induction 1 as [|a l Hsorted IH Hall]; intros Hindex; [constructor|].
  apply Forall_cons in Hindex as [[i Hi] Hindex]. constructor; [now apply IH|].
  rewrite Forall_forall in Hall, Hindex |- *. intros b Hb.
  destruct (Hall b Hb) as [Hne Hnot]. destruct (Hindex b Hb) as [j Hj].
  unfold Kinesis.before in *. rewrite Hi, Hj in *. apply N.ltb_ge in Hnot. apply N.ltb_lt.
  assert (i <> j) as Hdiffer; [|lia]. intros ->. apply Hne.
  now rewrite (arrayIndex_name a j Hi), (arrayIndex_name b j Hj).
Qed.

(** What [{ ...base, ...extra }] holds, and in which order: the properties
    of [extra], the last assignment to a name counting, over those of
    [base]; every name once; the array indices first, in ascending order,
    then the names of the literal, then the names created by [extra]. *)
Lemma spread_spec (base extra : list (string * Json)) :
  objectOrder base.*1 ->
  Forall (fun name => Kinesis.arrayIndex name = None) base.*1 ->
  let fields := Kinesis.spread base extra in
  (forall k,
     Kinesis.getField k fields
     = match Kinesis.getField k (rev extra) with
       | Some v => Some v
       | None => Kinesis.getField k base
       end)
  /\ NoDup fields.*1
  /\ exists indices names,
       fields.*1 = (indices ++ base.*1 ++ names)%list
       /\ Forall (fun name => is_Some (Kinesis.arrayIndex name)) indices
       /\ StronglySorted (fun a b => Kinesis.before a b = true) indices
       /\ Forall (fun name => Kinesis.arrayIndex name = None) names.
Proof.
  intros Hbase Hliteral fields. subst fields. unfold Kinesis.spread.
  assert (objectOrder (Kinesis.objectOf extra).*1) as Hextra
    by (apply objectOrder_assignments; constructor).
  pose proof (objectOrder_assignments (Kinesis.objectOf extra) base Hbase) as Hordered.
  split; [|split].
  - intros k. rewrite getField_assignments, getField_rev by now apply objectOrder_NoDup.
    unfold Kinesis.objectOf. rewrite getField_assignments.
    now destruct (Kinesis.getField k (rev extra)).
  - now apply objectOrder_NoDup.
  - destruct (assignments_shape base.*1 (Kinesis.objectOf extra) Hliteral base)
      as (indices & names & Hkeys & Hindices & Hnames).
    { exists [], []. rewrite app_nil_r. repeat split; constructor. }
    exists indices, names. split; [exact Hkeys|]. split; [exact Hindices|].
    split; [|exact Hnames]. apply indices_ascending; [|exact Hindices].
    rewrite Hkeys in Hordered. unfold objectOrder in *.
    now apply StronglySorted_app_1_l in Hordered.
Qed.

(** ** Batches of events *)

Section Batches.
Context (putRecords : nat -> list Kinesis.Entry -> Result Kinesis.PutRecordsOutput).

Lemma mapK_entries (records : list Kinesis.PublishRecord) :
  forall s : Kinesis.Stream,
    exists entries,
      Kinesis.mapK (fun record =>
                      Kinesis.bind Kinesis.newDateISO (fun timestamp =>
                        Kinesis.ret {| Kinesis.PartitionKey := Kinesis.partitionKey record;
                                       Kinesis.Data :=
                                         JSON_stringify (Kinesis.envelope record timestamp) |}))
        records s
      = (Ok entries, {| Kinesis.requests := Kinesis.requests s;
                        Kinesis.readings := (length records + Kinesis.readings s)%nat |})
      /\ Kinesis.PartitionKey <$> entries = Kinesis.partitionKey <$> records.
Proof.
  induction records as [|record records IH]; intros s.
  - exists []. destruct s. split; reflexivity.
  - cbn [Kinesis.mapK]. unfold Kinesis.bind at 1 2. unfold Kinesis.newDateISO at 1.
    unfold Kinesis.ret at 1. unfold Kinesis.bind at 1.
    destruct (IH {| Kinesis.requests := Kinesis.requests s;
                    Kinesis.readings := S (Kinesis.readings s) |})
      as (entries & -> & Hkeys).
    eexists. unfold Kinesis.ret. cbn [Kinesis.requests Kinesis.readings length].
    split; [f_equal; f_equal; lia|].
    rewrite !fmap_cons. now rewrite Hkeys.
Qed.

(** What one call of [publishBatch] sends. *)
Lemma publishBatch_run (records : list Kinesis.PublishRecord) (s : Kinesis.Stream) :
  (0 < length records <= 500)%nat ->
  exists entries,
    Kinesis.PartitionKey <$> entries = Kinesis.partitionKey <$> records
    /\ let s' := {| Kinesis.requests := entries :: Kinesis.requests s;
                    Kinesis.readings := (length records + Kinesis.readings s)%nat |} in
       Kinesis.publishBatch putRecords records s
       = match putRecords (length (Kinesis.requests s)) entries with
         | Ok response =>
             (Ok {| Kinesis.successCount :=
                      Z.of_nat (length records) - default 0 (Kinesis.FailedRecordCount response);
                    Kinesis.failedCount := default 0 (Kinesis.FailedRecordCount response);
                    Kinesis.failedRecords :=
                      Kinesis.failedOf records (Kinesis.Records response) |}, s')
         | Throw error =>
             (Throw (JsErrorOf ("Kinesis batch publish failed: " +:+ jsString (message error))),
              s')
         end.
Proof.
  intros Hlen. unfold Kinesis.publishBatch.
  destruct (Nat.eqb_spec (length records) 0) as [|_]; [lia|].
  destruct (Nat.ltb_spec 500 (length records)) as [|_]; [lia|].
  destruct (mapK_entries records s) as (entries & Hmap & Hkeys).
  exists entries. split; [exact Hkeys|].
  unfold Kinesis.bind at 1. rewrite Hmap.
  unfold Kinesis.tryCatch, Kinesis.bind, Kinesis.sendPutRecords, Kinesis.ret, Kinesis.throw.
  cbn [Kinesis.requests Kinesis.readings].
  now destruct (putRecords (length (Kinesis.requests s)) entries).
Qed.

(** X24.  The guards of [publishBatch].  An empty batch returns zero counts
    without a request or a reading of the clock; a batch of more than 500
    records is refused before anything is sent; a batch in between is sent
    as one request with one entry per record, in order and under the
    record's partition key, and the counts returned add up to the number
    of records, or the client's error is thrown wrapped. *)
Theorem publishBatch_guards (records : list Kinesis.PublishRecord) (s : Kinesis.Stream) :
  (records = [] ->
   Kinesis.publishBatch putRecords records s
   = (Ok {| Kinesis.successCount := 0; Kinesis.failedCount := 0;
            Kinesis.failedRecords := [] |}, s))
  /\ ((500 < length records)%nat ->
      Kinesis.publishBatch putRecords records s
      = (Throw (JsErrorOf "Batch size cannot exceed 500 records"), s))
  /\ ((0 < length records <= 500)%nat ->
      exists entries,
        Kinesis.requests (Kinesis.publishBatch putRecords records s).2
        = entries :: Kinesis.requests s
        /\ Kinesis.PartitionKey <$> entries = Kinesis.partitionKey <$> records
        /\ match putRecords (length (Kinesis.requests s)) entries with
           | Ok response =>
               exists result,
                 (Kinesis.publishBatch putRecords records s).1 = Ok result
                 /\ Kinesis.successCount result + Kinesis.failedCount result
                    = Z.of_nat (length records)
                 /\ Kinesis.failedCount result
                    = default 0 (Kinesis.FailedRecordCount response)
           | Throw error =>
               (Kinesis.publishBatch putRecords records s).1
               = Throw (JsErrorOf ("Kinesis batch publish failed: "
                                   +:+ jsString (message error)))
           end).
Proof.
  split; [|split].
  - intros ->. reflexivity.
  - intros Hlen. unfold Kinesis.publishBatch.
    destruct (Nat.eqb_spec (length records) 0) as [|_]; [lia|].
    destruct (Nat.ltb_spec 500 (length records)) as [_|]; [reflexivity|lia].
  - intros Hlen. destruct (publishBatch_run records s Hlen) as (entries & Hkeys & Hrun).
    exists entries. rewrite Hrun.
    destruct (putRecords (length (Kinesis.requests s)) entries) as [response|error];
      cbn [fst snd Kinesis.requests].
    + split; [reflexivity|]. split; [exact Hkeys|].
      eexists. split; [reflexivity|]. cbn [Kinesis.successCount Kinesis.failedCount].
      split; [lia|reflexivity].
    + split; [reflexivity|]. split; [exact Hkeys|reflexivity].
Qed.

(** ** The entries of a batch *)

Lemma entriesFrom_cons (n : nat) (record : Kinesis.PublishRecord)
    (records : list Kinesis.PublishRecord) :
  entriesFrom n (record :: records) = entryAt n record :: entriesFrom (S n) records.
Proof.
  unfold entriesFrom. rewrite imap_cons, Nat.add_0_r. f_equal.
  apply imap_ext. intros j r _. cbn. f_equal. lia.
Qed.

Lemma entriesFrom_lookup (n j : nat) (records : list Kinesis.PublishRecord) :
  entriesFrom n records !! j = entryAt (n + j) <$> records !! j.
Proof. unfold entriesFrom. now rewrite list_lookup_imap. Qed.

Lemma entriesFrom_length (n : nat) (records : list Kinesis.PublishRecord) :
  length (entriesFrom n records) = length records.
Proof. unfold entriesFrom. apply length_imap. Qed.

Lemma entriesFrom_slice (n i : nat) (records : list Kinesis.PublishRecord) :
  entriesFrom (n + i) (Kinesis.slice i (i + 500) records)
  = take 500 (drop i (entriesFrom n records)).
Proof.
  unfold Kinesis.slice. replace (i + 500 - i)%nat with 500%nat by lia.
  apply list_eq. intros j. rewrite entriesFrom_lookup.
  destruct (Nat.lt_ge_cases j 500) as [Hj|Hj].
  - rewrite !lookup_take_lt, !lookup_drop, entriesFrom_lookup by exact Hj.
    now replace (n + i + j)%nat with (n + (i + j))%nat by lia.
  - now rewrite !lookup_take_ge by exact Hj.
Qed.

Lemma mapK_run (records : list Kinesis.PublishRecord) :
  forall s : Kinesis.Stream,
    Kinesis.mapK (fun record =>
                    Kinesis.bind Kinesis.newDateISO (fun timestamp =>
                      Kinesis.ret {| Kinesis.PartitionKey := Kinesis.partitionKey record;
                                     Kinesis.Data :=
                                       JSON_stringify (Kinesis.envelope record timestamp) |}))
      records s
    = (Ok (entriesFrom (Kinesis.readings s) records),
       {| Kinesis.requests := Kinesis.requests s;
          Kinesis.readings := (length records + Kinesis.readings s)%nat |}).
Proof.
  induction records as [|record records IH]; intros s.
  - destruct s. reflexivity.
  - cbn [Kinesis.mapK]. unfold Kinesis.bind at 1 2. unfold Kinesis.newDateISO at 1.
    unfold Kinesis.ret at 1. unfold Kinesis.bind at 1. rewrite IH.
    unfold Kinesis.ret. cbn [Kinesis.requests Kinesis.readings length].
    rewrite entriesFrom_cons. unfold entryAt. f_equal. f_equal. lia.
Qed.

(** What one call of [publishBatch] sends. *)
Lemma publishBatch_sends (records : list Kinesis.PublishRecord) (s : Kinesis.Stream) :
  (0 < length records <= 500)%nat ->
  let entries := entriesFrom (Kinesis.readings s) records in
  let s' := {| Kinesis.requests := entries :: Kinesis.requests s;
               Kinesis.readings := (length records + Kinesis.readings s)%nat |} in
  Kinesis.publishBatch putRecords records s
  = match putRecords (length (Kinesis.requests s)) entries with
    | Ok response =>
        (Ok {| Kinesis.successCount :=
                 Z.of_nat (length records) - default 0 (Kinesis.FailedRecordCount response);
               Kinesis.failedCount := default 0 (Kinesis.FailedRecordCount response);
               Kinesis.failedRecords :=
                 Kinesis.failedOf records (Kinesis.Records response) |}, s')
    | Throw error =>
        (Throw (JsErrorOf ("Kinesis batch publish failed: " +:+ jsString (message error))),
         s')
    end.
Proof.
  intros Hlen entries s'. subst entries s'. unfold Kinesis.publishBatch.
  destruct (Nat.eqb_spec (length records) 0) as [|_]; [lia|].
  destruct (Nat.ltb_spec 500 (length records)) as [|_]; [lia|].
  unfold Kinesis.bind at 1. rewrite mapK_run.
  unfold Kinesis.tryCatch, Kinesis.bind, Kinesis.sendPutRecords, Kinesis.ret, Kinesis.throw.
  cbn [Kinesis.requests Kinesis.readings].
  now destruct (putRecords (length (Kinesis.requests s)) _).
Qed.

(** ** Batches of 500 *)

Lemma batchCount_bounds (n : nat) : (n <= 500 * batchCount n < n + 500)%nat.
Proof.
  unfold batchCount. pose proof (Nat.div_mod_eq (n + 499) 500) as Hdiv.
  pose proof (Nat.mod_upper_bound (n + 499) 500 ltac:(lia)). lia.
Qed.

Lemma batchAt_0 {A} (l : list A) : batchAt l 0 = take 500 l.
Proof. unfold batchAt. now rewrite Nat.mul_0_r. Qed.

Lemma batchAt_S {A} (l : list A) (k : nat) : batchAt l (S k) = batchAt (drop 500 l) k.
Proof.
  unfold batchAt. rewrite drop_drop. do 2 f_equal. lia.
Qed.

Lemma batchAt_length {A} (l : list A) (k : nat) :
  (500 * k < length l)%nat -> (0 < length (batchAt l k) <= 500)%nat.
Proof.
  intros Hk. unfold batchAt. rewrite length_take, length_drop. lia.
Qed.

Lemma batches_concat {A} (c : nat) :
  forall l : list A, (length l <= 500 * c)%nat -> concat (batchAt l <$> seq 0 c) = l.
Proof.
  induction c as [|c IH]; intros l Hlen.
  - destruct l; [reflexivity|cbn in Hlen; lia].
  - cbn [seq]. rewrite fmap_cons, <- fmap_S_seq, <- list_fmap_compose. cbn [concat].
    rewrite batchAt_0.
    rewrite (list_fmap_ext (batchAt l ∘ S) (batchAt (drop 500 l)))
      by (intros; cbn; apply batchAt_S).
    rewrite IH by (rewrite length_drop; lia). apply take_drop.
Qed.

Lemma slice_length {A} (i : nat) (l : list A) :
  (i < length l)%nat -> (0 < length (Kinesis.slice i (i + 500) l) <= 500)%nat.
Proof.
  intros Hi. unfold Kinesis.slice. rewrite length_take, length_drop. lia.
Qed.

Lemma batches_snoc {A} (l : list A) (k : nat) (earlier : list (list A)) :
  (batchAt l k :: rev (batchAt l <$> seq 0 k) ++ earlier)%list
  = (rev (batchAt l <$> seq 0 (S k)) ++ earlier)%list.
Proof. now rewrite seq_S, fmap_app, rev_app_distr. Qed.

(** The loop from its [k]-th iteration on, entered after the batches
    before it were sent: it sends the batches in order, one request each,
    until a request fails or no record is left. *)
Lemma batchLoop_sends (records : list Kinesis.PublishRecord) (r0 : nat)
    (earlier : list (list Kinesis.Entry)) :
  let entries := entriesFrom r0 records in
  forall (fuel k : nat) (s : Kinesis.Stream),
    (length records - 500 * k <= 500 * fuel)%nat ->
    (500 * k < length records + 500)%nat ->
    Kinesis.requests s = (rev (batchAt entries <$> seq 0 k) ++ earlier)%list ->
    Kinesis.readings s = (r0 + Nat.min (500 * k) (length records))%nat ->
    let run := Kinesis.batchLoop putRecords fuel records (500 * k) s in
    exists sent,
      (k <= sent)%nat /\ (500 * sent < length records + 500)%nat
      /\ Kinesis.requests run.2 = (rev (batchAt entries <$> seq 0 sent) ++ earlier)%list
      /\ (forall j, (k <= j)%nat -> (j + 1 < sent)%nat ->
            exists response,
              putRecords (length earlier + j) (batchAt entries j) = Ok response)
      /\ match run.1 with
         | Ok _ =>
             (length records <= 500 * sent)%nat
             /\ Kinesis.readings run.2 = (r0 + length records)%nat
             /\ (forall j, (k <= j < sent)%nat ->
                   exists response,
                     putRecords (length earlier + j) (batchAt entries j) = Ok response)
         | Throw e =>
             exists error,
               (k < sent)%nat
               /\ putRecords (length earlier + (sent - 1)) (batchAt entries (sent - 1))
                  = Throw error
               /\ e = JsErrorOf ("Kinesis batch publish failed: "
                                 +:+ jsString (message error))
         end.
Proof.
  intros entries. induction fuel as [|fuel IH]; intros k s Hfuel Hk Hrequests Hreadings run;
    subst run; cbn [Kinesis.batchLoop];
    destruct (Nat.ltb_spec (500 * k) (length records)) as [Hi|Hi]; [lia| | |].
  1, 3: (exists k; unfold Kinesis.ret; cbn [fst snd]; split; [lia|]; split; [exact Hk|];
         split; [exact Hrequests|]; split; [intros; lia|];
         split; [exact Hi|]; split; [rewrite Hreadings; lia|intros; lia]).
  pose proof (slice_length (500 * k) records Hi) as Hslice.
  assert (entriesFrom (Kinesis.readings s) (Kinesis.slice (500 * k) (500 * k + 500) records)
          = batchAt entries k) as Hbatch.
  { rewrite Hreadings, Nat.min_l by lia. apply entriesFrom_slice. }
  assert (length (Kinesis.requests s) = (length earlier + k)%nat) as Hsent.
  { rewrite Hrequests, length_app, length_rev, length_fmap, length_seq. lia. }
  pose proof (publishBatch_sends _ s Hslice) as Hrun. cbv zeta in Hrun.
  rewrite Hbatch, Hsent in Hrun. unfold Kinesis.bind. rewrite Hrun.
  destruct (putRecords (length earlier + k) (batchAt entries k)) as [response|error]
    eqn:Hresponse.
  - pose proof (IH (S k)
                  {| Kinesis.requests := batchAt entries k :: Kinesis.requests s;
                     Kinesis.readings :=
                       (length (Kinesis.slice (500 * k) (500 * k + 500) records)
                        + Kinesis.readings s)%nat |}) as Hnext.
    cbv zeta in Hnext. replace (500 * S k)%nat with (500 * k + 500)%nat in Hnext by lia.
    destruct Hnext as (sent & Hle & Hbound & Hreq & Hbefore & Hend).
    + lia.
    + lia.
    + cbn [Kinesis.requests]. rewrite Hrequests. apply batches_snoc.
    + cbn [Kinesis.readings]. rewrite Hreadings. unfold Kinesis.slice.
      rewrite length_take, length_drop. lia.
    + exists sent. split; [lia|]. split; [exact Hbound|]. split; [exact Hreq|].
      assert (forall j, (k <= j)%nat -> (S k <= j)%nat \/ j = k) as Hcases by (intros; lia).
      split.
      * intros j Hj Hlast. destruct (Hcases j Hj) as [Hnext| ->]; [now apply Hbefore|eauto].
      * destruct (Kinesis.batchLoop putRecords fuel records (500 * k + 500) _) as [[[]|e] s'];
          cbn [fst snd] in *.
        -- destruct Hend as (Hall & Hclock & Haccepted).
           split; [exact Hall|]. split; [exact Hclock|].
           intros j [Hj Hlast]. destruct (Hcases j Hj) as [Hnext| ->]; [|eauto].
           apply Haccepted. lia.
        -- destruct Hend as (error & Hlt & Herror & ->). exists error.
           split; [lia|]. split; [exact Herror|reflexivity].
  - exists (S k). cbn [fst snd Kinesis.requests].
    split; [lia|]. split; [lia|]. split; [rewrite Hrequests; apply batches_snoc|].
    split; [intros; lia|]. exists error. split; [lia|].
    replace (S k - 1)%nat with k by lia. split; [exact Hresponse|reflexivity].
Qed.

Lemma literal_order (fileId tenantId : string) (n : Z) :
  let literal := [ ("fileId", JStr fileId); ("tenantId", JStr tenantId);
                   ("pageNumber", JNum n) ] in
  objectOrder literal.*1
  /\ Forall (fun name => Kinesis.arrayIndex name = None) literal.*1.
Proof.
  split.
  - unfold objectOrder. cbn. repeat constructor; discriminate.
  - cbn. repeat constructor.
Qed.

(** X25.  The events of the chunks of a document.  [publishChunkBatch]
    builds one event for each chunk, in the order of the chunks: the
    [j]-th entry has the partition key of the tenant and the document and
    carries the JSON text of the envelope of type chunk.ready, stamped
    with the [j]-th reading of the clock made by the call, around the data
    object of the chunk.  That object holds the properties of the chunk's
    own data over the document id, the tenant id and the page number, so
    that a property of the chunk named like one of the three replaces it;
    it has every name once, its array indices first, in ascending order,
    then the three names, then the other names of the chunk.  The entries
    are sent in batches of 500, the last one shorter and none empty, one
    request for each batch, in order, so that the batches put end to end
    are the entries.  The loop stops at the first request the client
    refuses: the batches before it have been accepted, the later ones are
    never sent, and the error thrown is the client's, wrapped;
    [publishChunkBatch] throws no other error.  When the client accepts
    every request all batches are sent and the call returns. *)
Theorem publishChunkBatch_batches (fileId tenantId : string)
    (chunks : list Kinesis.ChunkInput) (s : Kinesis.Stream) :
  let entries :=
    entriesFrom (Kinesis.readings s) (Kinesis.chunkRecord fileId tenantId <$> chunks) in
  let run := Kinesis.publishChunkBatch putRecords fileId tenantId chunks s in
  (forall j chunk,
     chunks !! j = Some chunk ->
     entries !! j
     = Some {| Kinesis.PartitionKey := tenantId +:+ "#" +:+ fileId;
               Kinesis.Data :=
                 JSON_stringify
                   (JObj [ ("eventType", JStr "chunk.ready");
                           ("data",
                            JObj (Kinesis.spread
                                    [ ("fileId", JStr fileId);
                                      ("tenantId", JStr tenantId);
                                      ("pageNumber", JNum (Kinesis.pageNumber chunk)) ]
                                    (Kinesis.chunkData chunk)));
                           ("timestamp",
                            JStr (toISOString (clockMs (Kinesis.readings s + j))));
                           ("metadata", JObj [("source", JStr "document-orchestrator")]) ])
            |})
  /\ length entries = length chunks
  /\ (forall chunk,
        let literal := [ ("fileId", JStr fileId); ("tenantId", JStr tenantId);
                         ("pageNumber", JNum (Kinesis.pageNumber chunk)) ] in
        let fields := Kinesis.spread literal (Kinesis.chunkData chunk) in
        (forall name,
           Kinesis.getField name fields
           = match Kinesis.getField name (rev (Kinesis.chunkData chunk)) with
             | Some v => Some v
             | None => Kinesis.getField name literal
             end)
        /\ NoDup fields.*1
        /\ exists indices names,
             fields.*1 = (indices ++ ["fileId"; "tenantId"; "pageNumber"] ++ names)%list
             /\ Forall (fun name => is_Some (Kinesis.arrayIndex name)) indices
             /\ StronglySorted (fun a b => Kinesis.before a b = true) indices
             /\ Forall (fun name => Kinesis.arrayIndex name = None) names)
  /\ concat (batchAt entries <$> seq 0 (batchCount (length chunks))) = entries
  /\ (forall k, (k < batchCount (length chunks))%nat ->
        (0 < length (batchAt entries k) <= 500)%nat)
  /\ (length chunks <= 500 * batchCount (length chunks) < length chunks + 500)%nat
  /\ exists sent,
       (sent <= batchCount (length chunks))%nat
       /\ Kinesis.requests run.2
          = (rev (batchAt entries <$> seq 0 sent) ++ Kinesis.requests s)%list
       /\ (forall k, (k + 1 < sent)%nat ->
             exists response,
               putRecords (length (Kinesis.requests s) + k) (batchAt entries k)
               = Ok response)
       /\ match run.1 with
          | Ok _ =>
              sent = batchCount (length chunks)
              /\ Kinesis.readings run.2 = (Kinesis.readings s + length chunks)%nat
              /\ (forall k, (k < sent)%nat ->
                    exists response,
                      putRecords (length (Kinesis.requests s) + k) (batchAt entries k)
                      = Ok response)
          | Throw e =>
              exists error,
                (0 < sent)%nat
                /\ putRecords (length (Kinesis.requests s) + (sent - 1))
                     (batchAt entries (sent - 1))
                   = Throw error
                /\ e = JsErrorOf ("Kinesis batch publish failed: "
                                  +:+ jsString (message error))
          end
       /\ ((forall n batch, exists response, putRecords n batch = Ok response) ->
           run.1 = Ok tt).
Proof.
  intros entries run.
  assert (length entries = length chunks) as Hlength
    by (subst entries; now rewrite entriesFrom_length, length_fmap).
  pose proof (batchCount_bounds (length chunks)) as Hcount.
  split; [|split; [exact Hlength|split; [|split; [|split; [|split; [exact Hcount|]]]]]].
  - intros j chunk Hchunk. subst entries.
    now rewrite entriesFrom_lookup, list_lookup_fmap, Hchunk.
  - intros chunk literal fields.
    destruct (literal_order fileId tenantId (Kinesis.pageNumber chunk)) as [Hordered Hnames].
    exact (spread_spec literal (Kinesis.chunkData chunk) Hordered Hnames).
  - apply batches_concat. lia.
  - intros k Hk. apply batchAt_length. lia.
  - subst run. unfold Kinesis.publishChunkBatch.
    change (List.map (Kinesis.chunkRecord fileId tenantId) chunks)
      with (Kinesis.chunkRecord fileId tenantId <$> chunks).
    set (records := Kinesis.chunkRecord fileId tenantId <$> chunks) in *.
    assert (length records = length chunks) as Hrecords by (subst records; apply length_fmap).
    destruct (batchLoop_sends records (Kinesis.readings s) (Kinesis.requests s)
                (length records) O s)
      as (sent & _ & Hbound & Hrequests & Hbefore & Hend);
      [lia|lia|reflexivity|cbn; lia|].
    change (500 * 0)%nat with O in Hrequests, Hend.
    fold entries in Hrequests, Hbefore, Hend. rewrite Hrecords in *.
    exists sent. split; [lia|]. split; [exact Hrequests|].
    split; [intros k Hk; apply Hbefore; lia|].
    destruct (Kinesis.batchLoop putRecords (length chunks) records 0 s) as [[[]|e] s'];
      cbn [fst snd] in *.
    + destruct Hend as (Hall & Hclock & Haccepted).
      split; [|reflexivity]. split; [lia|]. split; [lia|].
      intros k Hk. apply Haccepted. lia.
    + destruct Hend as (error & Hsent & Herror & ->).
      split; [eauto|]. intros Hclient.
      destruct (Hclient (length (Kinesis.requests s) + (sent - 1))%nat
                  (batchAt entries (sent - 1))) as [response Hresponse].
      congruence.
Qed.

End Batches.

End Together.

(** * The properties on the sample runtime *)

#[local] Existing Instance Sample.collaborators.

Lemma checksb_Forall (l : list Item) : forallb Sample.checksb l = true -> Forall checks l.
Proof.
  rewrite forallb_forall, Forall_forall. intros Hall p Hp.
  specialize (Hall p ltac:(now apply list_elem_of_In)). unfold Sample.checksb, checks in *.
  destruct (hasError p); [eauto|discriminate].
Qed.

Lemma incrementProcessedPages_atomic_add_witness :
  statusAttr Sample.created "doc-1" "processedPages" = Some (AttrN 0)
  /\ statusAttr (runSchedule (repeat (CallIncrement "doc-1") 5) Sample.created)
       "doc-1" "processedPages" = Some (AttrN 5).
Proof.
  assert (statusAttr Sample.created "doc-1" "processedPages" = Some (AttrN 0)) as Hp
    by (vm_compute; reflexivity).
  split; [exact Hp|].
  destruct (incrementProcessedPages_atomic_add Sample.created "doc-1" 0 Hp) as (_ & _ & HK & _).
  exact (HK 5%nat).
Defined.

(** C1 as stated fails on the return value: the counter goes from 0 to 1
    and the caller is handed undefined, not 1. *)
Lemma incrementProcessedPages_returns_undefined :
  statusAttr Sample.created "doc-1" "processedPages" = Some (AttrN 0)
  /\ statusAttr (after (incrementProcessedPages "doc-1") Sample.created) "doc-1" "processedPages"
     = Some (AttrN 1)
  /\ outcome (incrementProcessedPages "doc-1") Sample.created <> Ok (JsNumber 1).
Proof.
  split; [vm_compute; reflexivity|]. split; [vm_compute; reflexivity|].
  vm_compute. discriminate.
Qed.

(** C2 as stated fails on the push path: an INSERT record whose image
    meets the four conditions does not make the handler invoke the
    aggregator, although the same image in a MODIFY record does; and a
    record that makes the handler throw keeps it from reaching the
    records behind it. *)
Lemma handler_skips_eligible_records :
  eligible Sample.readyImage = true
  /\ invoked (after (handler [Sample.insertRecord]) Sample.emptyWorld) = []
  /\ invoked (after (handler [Sample.modifyRecord]) Sample.emptyWorld) = [("doc-1", "acme", 2)]
  /\ invoked (after (handler [Sample.bareRecord; Sample.modifyRecord]) Sample.emptyWorld) = [].
Proof. repeat split; vm_compute; reflexivity. Qed.

Lemma aggregateResults_deferred_witness :
  Z.of_nat (length (fetchedPages Sample.twoOfThree "doc-1")) < 3
  /\ outcome (aggregateResults "doc-1" "acme" 3) Sample.twoOfThree = Ok tt
  /\ statusAttr (after (aggregateResults "doc-1" "acme" 3) Sample.twoOfThree)
       "doc-1" "overallStatus" = Some (AttrS "processing")
  /\ resultsBucket (after (aggregateResults "doc-1" "acme" 3) Sample.twoOfThree) = ∅.
Proof.
  assert (Z.of_nat (length (fetchedPages Sample.twoOfThree "doc-1")) < 3) as Hfew
    by (vm_compute; reflexivity).
  split; [exact Hfew|].
  destruct (aggregateResults_deferred Sample.twoOfThree "doc-1" "acme" 3 Hfew)
    as (Hok & Hstatus & Hbucket & _).
  split; [exact Hok|]. split; [exact Hstatus|]. rewrite Hbucket. reflexivity.
Defined.

(** C4: right after the worker has marked a document as processing, with
    both counts still 0, the completion helper of the data model answers
    true on its status record, while the handler's condition and the scan
    filter answer false and a MODIFY record carrying it triggers
    nothing. *)
Theorem isProcessingComplete_zero_pages :
  let status := statusItem (table Sample.started) "doc-1" in
  table Sample.started !! documentStatusKeys "doc-1" = Some status
  /\ status !! "totalPages" = Some (AttrN 0)
  /\ status !! "processedPages" = Some (AttrN 0)
  /\ status !! "overallStatus" = Some (AttrS "processing")
  /\ isProcessingComplete status = true
  /\ eligible status = false
  /\ evalFilter readyFilter status = false
  /\ invoked (after (handler [ {| eventName := MODIFY;
                                  NewImage := Some status;
                                  OldImage := Some status |} ]) Sample.started) = [].
Proof. repeat split; vm_compute; reflexivity. Qed.

Lemma page_iteration_witness :
  counterOf (statusItem (table Sample.started) "doc-1") = Some 0
  /\ outcome (analyzeChunkDefault "page two") Sample.started = Throw Sample.RateLimited
  /\ outcome (processPage "doc-1" "acme" 1 "page two") Sample.started = Ok tt
  /\ statusAttr (after (processPage "doc-1" "acme" 1 "page two") Sample.started)
       "doc-1" "processedPages" = Some (AttrN 1)
  /\ table (after (processPage "doc-1" "acme" 1 "page two") Sample.started)
       !! documentPageKeys "doc-1" 2 ≫= (.!! "pageAnalysis")
     = Some (AttrS (Sample.stringify (failureMarker (stamp Sample.started)))).
Proof.
  assert (counterOf (statusItem (table Sample.started) "doc-1") = Some 0) as Hp
    by (vm_compute; reflexivity).
  assert (outcome (analyzeChunkDefault "page two") Sample.started = Throw Sample.RateLimited)
    as Hthrow by (vm_compute; reflexivity).
  split; [exact Hp|]. split; [exact Hthrow|].
  destruct (page_iteration Sample.started "doc-1" "acme" 1 "page two")
    as (_ & _ & _ & _ & Hmarker & Htable & Hcounter).
  destruct (Hcounter 0 Hp) as (Hok & _ & _).
  split; [exact Hok|]. split; [vm_compute; reflexivity|].
  change (Z.of_nat 1 + 1) with 2 in Htable. rewrite Htable. cbn [mbind option_bind].
  exact (Hmarker _ Hthrow).
Defined.

(** C6: a download that fails leaves the document failed with both counts
    at 0 and no page record, and stores no error message with the status:
    the error reaches the log only. *)
Theorem processDocument_missing_blob :
  Sample.download "pdfs" "acme/doc-1/missing.pdf" = Throw Sample.NoSuchKey
  /\ let w' := after (processDocument "doc-1" "acme" "acme/doc-1/missing.pdf" "pdfs") Sample.created in
     outcome (processDocument "doc-1" "acme" "acme/doc-1/missing.pdf" "pdfs") Sample.created = Ok tt
     /\ statusAttr Sample.created "doc-1" "overallStatus" = Some (AttrS "pending")
     /\ statusAttr w' "doc-1" "overallStatus" = Some (AttrS "failed")
     /\ statusAttr w' "doc-1" "errorMessage" = None
     /\ statusAttr w' "doc-1" "totalPages" = Some (AttrN 0)
     /\ statusAttr w' "doc-1" "processedPages" = Some (AttrN 0)
     /\ fetchedPages w' "doc-1" = []
     /\ sent isPut w' = sent isPut Sample.created
     /\ sent (isIncrement "doc-1") w' = O.
Proof. repeat split; vm_compute; reflexivity. Qed.

Lemma aggregateResults_manifest_witness :
  3 <= Z.of_nat (length (fetchedPages Sample.processed "doc-1"))
  /\ Forall checks (fetchedPages Sample.processed "doc-1")
  /\ exists m : Manifest,
       resultsBucket (after (aggregateResults "doc-1" "acme" 3) Sample.processed)
         !! "acme/doc-1/results.json" = Some m
       /\ successCount m = 2 /\ failedCount m = 1
       /\ pageNumber <$> chunks m = [Some 1; Some 2; Some 3].
Proof.
  assert (3 <= Z.of_nat (length (fetchedPages Sample.processed "doc-1"))) as Hall
    by (vm_compute; discriminate).
  assert (Forall checks (fetchedPages Sample.processed "doc-1")) as Hchecks
    by (apply checksb_Forall; vm_compute; reflexivity).
  split; [exact Hall|]. split; [exact Hchecks|].
  destruct (aggregateResults_manifest Sample.processed "doc-1" "acme" 3 Hall Hchecks)
    as (m & _ & Hstored & _ & _ & _ & _ & _ & Hsuccess & Hfailed & _ & _ & Hchunks & _).
  exists m. split; [exact Hstored|].
  split; [rewrite Hsuccess; vm_compute; reflexivity|].
  split; [rewrite Hfailed; vm_compute; reflexivity|].
  rewrite Hchunks. vm_compute. reflexivity.
Defined.

(** C7 as stated fails twice.  With two page records stored and a total
    of 1 the aggregation proceeds and the counts sum to 2, not to the
    total; with pages 9999 and 10000 stored the entries of the manifest
    come with page 10000 first. *)
Lemma aggregateResults_counts_and_order :
  (exists m : Manifest,
     1 <= Z.of_nat (length (fetchedPages Sample.twoOfThree "doc-1"))
     /\ outcome (aggregateResults "doc-1" "acme" 1) Sample.twoOfThree = Ok tt
     /\ resultsBucket (after (aggregateResults "doc-1" "acme" 1) Sample.twoOfThree)
          !! "acme/doc-1/results.json" = Some m
     /\ totalPages m = 1
     /\ successCount m + failedCount m = 2)
  /\ (exists m : Manifest,
        2 <= Z.of_nat (length (fetchedPages Sample.longDocument "doc-1"))
        /\ outcome (aggregateResults "doc-1" "acme" 2) Sample.longDocument = Ok tt
        /\ resultsBucket (after (aggregateResults "doc-1" "acme" 2) Sample.longDocument)
             !! "acme/doc-1/results.json" = Some m
        /\ pageNumber <$> chunks m = [Some 10000; Some 9999]).
Proof.
  split; eexists; (split; [vm_compute; discriminate|]);
    (split; [vm_compute; reflexivity|]);
    (split; [vm_compute; reflexivity|]); repeat split.
Qed.

(** C8 as stated fails twice.  Called with a total of 10 the record holds
    10, not 0; and a second call for a document whose counter has moved
    to 1 does not throw: it succeeds and resets the counter to 0. *)
Lemma createDocumentStatus_second_call :
  statusAttr (after (createDocumentStatus "doc-2" "acme" 10) Sample.emptyWorld)
    "doc-2" "totalPages" = Some (AttrN 10)
  /\ let w1 := after (incrementProcessedPages "doc-1") Sample.created in
     statusAttr w1 "doc-1" "processedPages" = Some (AttrN 1)
     /\ (forall e, outcome (createDocumentStatus "doc-1" "acme" 0) w1 <> Throw e)
     /\ statusAttr (after (createDocumentStatus "doc-1" "acme" 0) w1)
          "doc-1" "processedPages" = Some (AttrN 0).
Proof.
  split; [vm_compute; reflexivity|]. split; [vm_compute; reflexivity|].
  split; [|vm_compute; reflexivity].
  intros e. unfold outcome. rewrite createDocumentStatus_run. discriminate.
Qed.

Lemma analyzeChunk_retry_witness :
  (forall j, (j <= 3)%nat -> rateLimited (genCalls Sample.started + j) "page two" = true)
  /\ outcome (analyzeChunkDefault "page two") Sample.started = Throw Sample.RateLimited
  /\ genCalls (after (analyzeChunkDefault "page two") Sample.started) = 4%nat
  /\ sleepsOf (trace (after (analyzeChunkDefault "page two") Sample.started)) = [8000; 4000; 2000]
  /\ outcome (processPage "doc-1" "acme" 1 "page two") Sample.started = Ok tt
  /\ isRateLimit Sample.ServerError = false
  /\ analyzeChunkDefault (H := Sample.withFailingModel) "page two" Sample.started
     = (Throw Sample.ServerError, called "page two" Sample.started).
Proof.
  assert (forall j, (j <= 3)%nat -> rateLimited (genCalls Sample.started + j) "page two" = true)
    as Hlimited by (intros j _; reflexivity).
  assert (counterOf (statusItem (table Sample.started) "doc-1") = Some 0) as Hp
    by (vm_compute; reflexivity).
  split; [exact Hlimited|].
  destruct (analyzeChunk_retry Sample.started "page two" 3 2000 "doc-1" "acme" 1)
    as (_ & _ & _ & _ & _ & Hexhaust).
  destruct (Hexhaust Hlimited) as (_ & Hcalls & Hsleeps & _ & Hpage).
  split; [vm_compute; reflexivity|]. split; [exact Hcalls|]. split; [exact Hsleeps|].
  split; [exact (Hpage 0 Hp)|]. split; [reflexivity|].
  destruct (analyzeChunk_retry (H := Sample.withFailingModel) Sample.started "page two"
              3 2000 "doc-1" "acme" 1) as (_ & _ & Hthrown & Hstep & _).
  destruct (Hstep Sample.ServerError (Hthrown Sample.ServerError eq_refl)) as (_ & Hstop & _).
  apply Hstop. now left.
Defined.

(** C9, where the claim fails.  The model answers every call, with the
    text Error 429, which is no JSON; the parser's complaint quotes the
    text, so its message contains 429.  [analyzeChunk] takes this for the
    rate-limit signal: it calls the model four times, sleeps 2000, 4000
    and 8000 ms in between and ends in the syntax error, although the
    analysis service has raised no error at all. *)
Lemma analyzeChunk_retries_parse_error :
  (forall n, generateContent (Collaborators := Sample.withProseModel) n "page one"
             = Ok "Error 429")
  /\ JSON_parse (Collaborators := Sample.withProseModel) "Error 429"
     = Throw Sample.QuotingSyntaxError
  /\ isRateLimit Sample.QuotingSyntaxError = true
  /\ outcome (analyzeChunkDefault (H := Sample.withProseModel) "page one") Sample.started
     = Throw Sample.QuotingSyntaxError
  /\ genCalls (after (analyzeChunkDefault (H := Sample.withProseModel) "page one")
                 Sample.started) = 4%nat
  /\ sleepsOf (trace (after (analyzeChunkDefault (H := Sample.withProseModel) "page one")
                        Sample.started)) = [8000; 4000; 2000].
Proof. repeat split; vm_compute; reflexivity. Qed.

Lemma documentPageKeys_order_witness :
  0 <= 7 /\ 7 < 42 /\ 42 <= 9999
  /\ String.ltb (documentPageKeys "doc-1" 7).2 (documentPageKeys "doc-1" 42).2 = true.
Proof.
  assert (0 <= 7) as H0 by lia. assert (7 < 42) as H1 by lia.
  assert (42 <= 9999) as H2 by lia.
  repeat (split; [assumption|]).
  exact (proj1 (proj2 (documentPageKeys_order "doc-1" 7 42 H0 H1 H2))).
Defined.

(** ** The services taken together, on the samples *)

Lemma documents_isolated_witness :
  fetchedPages
    (performAll [ OpProcess "doc-2" "acme" "acme/doc-1/report.pdf" "pdfs";
                  OpAggregate "doc-2" "acme" 3 ] Sample.processed) "doc-1"
  = fetchedPages Sample.processed "doc-1".
Proof.
  apply (documents_isolated "doc-1").
  repeat constructor; discriminate.
Defined.

Lemma updateDocumentStatus_frame_witness :
  statusAttr (after (updateDocumentStatus "doc-1"
                       [ ("overallStatus", Some (AttrS "completed"));
                         ("errorMessage", None) ]) Sample.started)
    "doc-1" "overallStatus" = Some (AttrS "completed").
Proof.
  destruct (updateDocumentStatus_frame Sample.started "doc-1"
              [ ("overallStatus", Some (AttrS "completed")); ("errorMessage", None) ])
    as (_ & (item & Hitem & _ & Hwritten & _) & _).
  - cbn. repeat constructor; rewrite ?not_elem_of_cons, ?elem_of_nil; intuition discriminate.
  - cbn. rewrite !not_elem_of_cons, elem_of_nil. intuition discriminate.
  - unfold statusAttr. rewrite Hitem. cbn [mbind option_bind].
    apply Hwritten. now left.
Defined.

Lemma completion_under_interleaving_witness :
  let calls := [ CallUpdateTotalPages "doc-1" "acme" 2;
                 CallIncrement "doc-1";
                 CallSavePage "doc-1" "acme" 1 None;
                 CallIncrement "doc-2";
                 CallIncrement "doc-1" ] in
  exists item,
    table (runSchedule calls Sample.started) !! documentStatusKeys "doc-1" = Some item
    /\ eligible item = true.
Proof.
  intros calls.
  set (stored := statusItem (table Sample.started) "doc-1").
  assert (table Sample.started !! documentStatusKeys "doc-1" = Some stored) as Hstored
    by by_evaluation.
  assert (stored !! "SK" = Some (AttrS "STATUS")) as Hsk by (vm_compute; reflexivity).
  assert (stored !! "processedPages" = Some (AttrN 0)) as Hp by (vm_compute; reflexivity).
  destruct (completion_under_interleaving calls "doc-1" Sample.started stored 0 Hstored Hsk Hp)
    as (item & Hitem & Heligible).
  exists item. split; [exact Hitem|]. rewrite Heligible. vm_compute. reflexivity.
Defined.

Lemma aggregateResults_failure_witness :
  let page := pageItem "doc-1" "acme" 1 (Some (Sample.stringify JNull)) None
                (after (updateTotalPages "doc-1" "acme" 1) Sample.started) in
  fetchedPages Cases.nullPage "doc-1" = [page]
  /\ hasError page = Throw (TypeError "Cannot read properties of null (reading 'error')")
  /\ outcome (aggregateResults "doc-1" "acme" 1) Cases.nullPage
     = Throw (TypeError "Cannot read properties of null (reading 'error')")
  /\ statusAttr (after (aggregateResults "doc-1" "acme" 1) Cases.nullPage)
       "doc-1" "overallStatus" = Some (AttrS "failed")
  /\ statusAttr (after (aggregateResults "doc-1" "acme" 1) Cases.nullPage)
       "doc-1" "errorMessage"
     = Some (AttrS "Aggregation failed: Cannot read properties of null (reading 'error')").
Proof.
  intros page.
  assert (1 <= Z.of_nat (length (fetchedPages Cases.nullPage "doc-1"))) as Hall
    by (vm_compute; discriminate).
  assert (fetchedPages Cases.nullPage "doc-1" = ([] ++ page :: [])%list) as Hpages
    by by_evaluation.
  assert (hasError page = Throw (TypeError "Cannot read properties of null (reading 'error')"))
    as Hthrows by (vm_compute; reflexivity).
  destruct (aggregateResults_failure Cases.nullPage "doc-1" "acme" 1 [] page []
              (TypeError "Cannot read properties of null (reading 'error')")
              Hall Hpages ltac:(constructor) Hthrows)
    as (Hthrow & Hstatus & Hmessage & _).
  repeat split; assumption.
Defined.

Lemma aggregateResults_again_witness :
  let w1 := after (aggregateResults "doc-1" "acme" 3) Sample.processed in
  outcome (aggregateResults "doc-1" "acme" 3) w1 = Ok tt
  /\ length (uploads (trace (after (aggregateResults "doc-1" "acme" 3) w1))) = 2%nat.
Proof.
  assert (3 <= Z.of_nat (length (fetchedPages Sample.processed "doc-1"))) as Hall
    by (vm_compute; discriminate).
  assert (Forall checks (fetchedPages Sample.processed "doc-1")) as Hchecks
    by (apply checksb_Forall; vm_compute; reflexivity).
  destruct (aggregateResults_again Sample.processed "doc-1" "acme" 3 Hall Hchecks)
    as (_ & Hok & Huploads & _).
  split; [exact Hok|]. rewrite Huploads. reflexivity.
Defined.

Lemma deferred_aggregation_retried_witness :
  exists item,
    table (after (aggregateResults "doc-1" "acme" 3) Cases.lagging)
      !! documentStatusKeys "doc-1" = Some item
    /\ eligible item = true.
Proof.
  set (stored := statusItem (table Cases.lagging) "doc-1").
  assert (table Cases.lagging !! documentStatusKeys "doc-1" = Some stored) as Hstored
    by by_evaluation.
  assert (eligible stored = true) as Heligible by (vm_compute; reflexivity).
  assert (Z.of_nat (length (fetchedPages Cases.lagging "doc-1")) < 3) as Hfew
    by (vm_compute; reflexivity).
  destruct (deferred_aggregation_retried Cases.lagging "doc-1" "acme" 3 stored
              Hstored Heligible Hfew) as (item & Hitem & Hstill & _).
  exists item. split; assumption.
Defined.

Lemma processDocument_handoff_witness :
  let first := after (updateStatus "doc-1" "acme" "processing") Cases.completed in
  let again :=
    after (processDocument "doc-1" "acme" "acme/doc-1/report.pdf" "pdfs") Cases.completed in
  (exists item,
     table Sample.processed !! documentStatusKeys "doc-1" = Some item
     /\ item !! "processedPages" = Some (AttrN 3)
     /\ eligible item = true)
  /\ statusAttr Cases.completed "doc-1" "overallStatus" = Some (AttrS "completed")
  /\ ("doc-1", "acme", 3) ∈ invoked (after checkForCompletedDocuments first)
  /\ (exists item,
        table again !! documentStatusKeys "doc-1" = Some item
        /\ item !! "processedPages" = Some (AttrN 6)
        /\ eligible item = false).
Proof.
  intros first again.
  assert (downloadFile "pdfs" "acme/doc-1/report.pdf" = Ok "%PDF-three-pages") as Hdownload
    by reflexivity.
  assert (pdf "%PDF-three-pages" = Ok (3, ["page one"; "page two"; "page three"])) as Hpdf
    by reflexivity.
  split; [|split; [by_evaluation|]].
  - set (stored := statusItem (table Sample.created) "doc-1").
    assert (table Sample.created !! documentStatusKeys "doc-1" = Some stored) as Hstored
      by by_evaluation.
    assert (stored !! "SK" = Some (AttrS "STATUS")) as Hsk by (vm_compute; reflexivity).
    assert (stored !! "processedPages" = Some (AttrN 0)) as Hp by (vm_compute; reflexivity).
    destruct (processDocument_handoff Sample.created "doc-1" "acme" "acme/doc-1/report.pdf"
                "pdfs" "%PDF-three-pages" 3 ["page one"; "page two"; "page three"] stored 0
                Hdownload Hpdf Hstored Hsk Hp)
      as (_ & (item & Hitem & _ & _ & Hprocessed & Heligible & _) & _).
    exists item. split; [exact Hitem|]. split; [exact Hprocessed|]. exact Heligible.
  - set (stored := statusItem (table Cases.completed) "doc-1").
    assert (table Cases.completed !! documentStatusKeys "doc-1" = Some stored) as Hstored
      by by_evaluation.
    assert (stored !! "SK" = Some (AttrS "STATUS")) as Hsk by (vm_compute; reflexivity).
    assert (stored !! "processedPages" = Some (AttrN 3)) as Hp by (vm_compute; reflexivity).
    assert (stored !! "totalPages" = Some (AttrN 3)) as Htotal by (vm_compute; reflexivity).
    destruct (processDocument_handoff Cases.completed "doc-1" "acme" "acme/doc-1/report.pdf"
                "pdfs" "%PDF-three-pages" 3 ["page one"; "page two"; "page three"] stored 3
                Hdownload Hpdf Hstored Hsk Hp)
      as (_ & (item & Hitem & _ & _ & Hprocessed & _ & _ & Hagain) & _ & _ & Hfirst).
    destruct (Hfirst 3 Htotal) as (_ & Hready).
    destruct (Hready eq_refl ltac:(lia)) as (_ & Hcall & _).
    split.
    + assert (callOf (<["overallStatus" := AttrS "processing"]>
                        (<["updatedAt" := AttrS (stamp Cases.completed)]> stored))
              = ("doc-1", "acme", 3)) as Hcalled by (vm_compute; reflexivity).
      rewrite Hcalled in Hcall. exact Hcall.
    + exists item. split; [exact Hitem|]. split; [exact Hprocessed|].
      apply Hagain; [lia|reflexivity].
Defined.

Lemma document_pipeline_witness :
  statusAttr (after (aggregateResults "doc-1" "acme" 3) Sample.processed)
    "doc-1" "overallStatus" = Some (AttrS "completed").
Proof.
  destruct (document_pipeline Sample.emptyWorld "doc-1" "acme" "acme/doc-1/report.pdf"
              "pdfs" "%PDF-three-pages" ["page one"; "page two"; "page three"])
    as (_ & _ & _ & _ & Hcompleted & _).
  - reflexivity.
  - reflexivity.
  - discriminate.
  - vm_compute. discriminate.
  - vm_compute. reflexivity.
  - apply checksb_Forall. vm_compute. reflexivity.
  - exact Hcompleted.
Defined.

Lemma aggregation_is_terminal_witness :
  exists item,
    table (after (aggregateResults "doc-1" "acme" 3) Sample.processed)
      !! documentStatusKeys "doc-1" = Some item
    /\ eligible item = false.
Proof.
  destruct (aggregation_is_terminal Sample.processed "doc-1" "acme" 3)
    as (item & Hitem & _ & Hno & _).
  - vm_compute. discriminate.
  - exists item. split; assumption.
Defined.

Lemma handler_upserted_status_witness :
  outcome (handler
             [ {| eventName := MODIFY;
                  NewImage := Some (statusItem
                                      (table (after (updateStatus "doc-9" "acme" "processing")
                                                Sample.emptyWorld)) "doc-9");
                  OldImage := Some ∅ |};
               Sample.modifyRecord ]) Sample.emptyWorld
  = Throw (TypeError "Cannot read properties of undefined (reading 'S')").
Proof.
  destruct (handler_upserted_status Sample.emptyWorld Sample.emptyWorld "doc-9" "acme"
              "processing" ∅ [Sample.modifyRecord]) as (_ & _ & _ & Hthrow & _).
  - reflexivity.
  - exact Hthrow.
Defined.

Lemma results_not_overwritten_witness :
  resultsBucket (after (aggregateResults "doc-1" "acme" 3) Sample.processed)
    !! resultsKey "doc-2" "acme"
  = resultsBucket Sample.processed !! resultsKey "doc-2" "acme".
Proof.
  destruct (results_not_overwritten Sample.processed "doc-1" "acme" "doc-2" "acme" 3)
    as [_ Hkept]; [reflexivity|reflexivity|discriminate|exact Hkept].
Defined.

Lemma jobs_before_results_witness :
  outcome (Jobs.getJobResults Cases.resultsBucketName Sample.NoSuchKey "doc-1") Sample.processed
  = Throw (NotFoundException "Results not found for file ID: doc-1").
Proof.
  destruct (jobs_before_results Cases.signer Cases.resultsBucketName Sample.NoSuchKey
              Sample.processed "doc-1") as [Hnone _].
  - vm_compute. reflexivity.
  - exact Hnone.
Defined.

Lemma jobs_after_aggregation_witness :
  exists response,
    outcome (Jobs.getJobStatus Cases.signer Cases.resultsBucketName "doc-1")
      (after (aggregateResults "doc-1" "acme" 3) Sample.processed) = Ok response
    /\ Jobs.downloadUrl response
       = Some "https://document-orchestrator-results.example/acme/doc-1/results.json?expires=3600".
Proof.
  destruct (jobs_after_aggregation Cases.signer Cases.resultsBucketName Sample.NoSuchKey
              Sample.processed "doc-1" "acme" 3
              "https://document-orchestrator-results.example/acme/doc-1/results.json?expires=3600")
    as (_ & _ & response & Hok & _ & _ & Hurl).
  - vm_compute. discriminate.
  - apply checksb_Forall. vm_compute. reflexivity.
  - vm_compute. reflexivity.
  - exists response. split; assumption.
Defined.

Lemma publishChunkBatch_batches_witness :
  let chunks := Cases.chunk <$> countFrom 1 1001 in
  let accepted :=
    Kinesis.publishChunkBatch Cases.acceptAll "doc-1" "acme" chunks Cases.emptyStream in
  let refused :=
    Kinesis.publishChunkBatch Cases.refuseSecond "doc-1" "acme" chunks Cases.emptyStream in
  Kinesis.spread [ ("fileId", JStr "doc-1"); ("tenantId", JStr "acme");
                   ("pageNumber", JNum 7) ]
    (Kinesis.chunkData (Cases.chunk 7))
  = [ ("9", JStr "nine"); ("10", JStr "ten"); ("fileId", JStr "doc-1");
      ("tenantId", JStr "acme"); ("pageNumber", JNum 0); ("text", JStr "page");
      ("lang", JStr "en") ]
  /\ accepted.1 = Ok tt
  /\ length <$> Kinesis.requests accepted.2 = [1; 500; 500]%nat
  /\ refused.1
     = Throw (JsErrorOf "Kinesis batch publish failed: Rate exceeded for shard")
  /\ length <$> Kinesis.requests refused.2 = [500; 500]%nat.
Proof.
  intros chunks accepted refused.
  destruct (publishChunkBatch_batches Cases.acceptAll "doc-1" "acme" chunks
              Cases.emptyStream)
    as (_ & _ & _ & _ & _ & _ & sent & _ & _ & _ & _ & Haccepted).
  split; [reflexivity|]. split.
  - apply Haccepted. intros n batch. eexists. reflexivity.
  - repeat split; vm_compute; reflexivity.
Defined.
